(** * Ledger-consistency engine of the point-of-sale application

    A shallow embedding of the four service modules and of the sale form:

    - [dataService.ts]      the transaction ledger and the bill manager,
    - [debtService.ts]      receivables and payables,
    - [inventoryService.ts] the product catalog,
    - [NewSaleForm.tsx]     the sale workflow ([handleSubmit] and the handlers
                            that build the form state).

    The subscriptions, which register listeners of the window, are left
    out.

    Modelling conventions.

    - A JavaScript [number] is a [Z]: quantities are integers and amounts are
      taken in the smallest currency unit.  [NaN], infinities and fractions are
      outside the model.
    - A JavaScript string is a [string] of bytes; [trim] and [toLowerCase] act
      on the ASCII range.
    - An optional property ([category?: string]) is an [option]; a property
      holding [undefined] is dropped by [JSON.stringify], so it is [None] in
      the stored record.  An update payload is a record of options: a property
      is absent or carries a value.
    - [localStorage] holds one JSON document per key; it is modelled by the
      four collections of a [World].  Every read parses a fresh copy, so no
      object is shared between the store and a caller.
    - [new Date()], [Date.now()] and [Math.random()] are read from the host:
      the world carries the stream of clock readings and of random suffixes,
      and a counter for each.  [new Date(s)] on a string is the host's parser
      [parseDate], giving [None] for an invalid date.
    - A thrown [Error] ends the operation and keeps the writes made so far.
    - [window.dispatchEvent] is recorded in the world's trace, after the
      [setItem] it announces; listeners are outside the model. *)

From Stdlib Require Import ZArith String Ascii List Bool Lia Permutation Sorted.
From stdpp Require Import base list strings pretty.

Local Open Scope string_scope.
Local Open Scope list_scope.
Local Open Scope Z_scope.

(* ===================================================================== *)
(** ** JavaScript string primitives                                       *)
(* ===================================================================== *)

Module JS.

(** White space removed by [String.prototype.trim], on the ASCII range:
    TAB, LF, VT, FF, CR and SPACE. *)
Definition isWhiteSpace (c : ascii) : bool :=
  let n := nat_of_ascii c in
  Nat.eqb n 32 || (Nat.leb 9 n && Nat.leb n 13).

Fixpoint trimStart (s : string) : string :=
  match s with
  | EmptyString => EmptyString
  | String c s' => if isWhiteSpace c then trimStart s' else s
  end.

Definition trimEnd (s : string) : string :=
  String.rev (trimStart (String.rev s)).

Definition trim (s : string) : string := trimEnd (trimStart s).

Definition lowerChar (c : ascii) : ascii :=
  let n := nat_of_ascii c in
  if Nat.leb 65 n && Nat.leb n 90 then ascii_of_nat (n + 32) else c.

Fixpoint toLowerCase (s : string) : string :=
  match s with
  | EmptyString => EmptyString
  | String c s' => String (lowerChar c) (toLowerCase s')
  end.

(** [s.includes(term)] *)
Fixpoint includes (s term : string) : bool :=
  String.prefix term s ||
  match s with
  | EmptyString => false
  | String _ s' => includes s' term
  end.

(** Truthiness of a string: every string but the empty one. *)
Definition truthy (s : string) : bool :=
  match s with EmptyString => false | String _ _ => true end.

(** Truthiness of [x] for an optional string [x]. *)
Definition truthyOpt (o : option string) : bool :=
  match o with Some s => truthy s | None => false end.

(** [x || d] where [x] is an optional string and [d] a string. *)
Definition orElse (o : option string) (d : string) : string :=
  match o with
  | Some s => if truthy s then s else d
  | None => d
  end.

(** [x || undefined] where [x] is an optional string. *)
Definition orUndefined (o : option string) : option string :=
  match o with
  | Some s => if truthy s then Some s else None
  | None => None
  end.

(** [x !== undefined ? x : d] *)
Definition definedOr {A : Type} (o : option A) (d : A) : A :=
  match o with Some x => x | None => d end.

(** Template-literal rendering of an integer. *)
Definition numberToString (n : Z) : string := pretty n.

End JS.

(* ===================================================================== *)
(** ** Data model ([types])                                               *)
(* ===================================================================== *)

Inductive TransactionType : Set := inflow | outflow.

Inductive DebtType : Set := receivable | payable.

Inductive DebtStatus : Set := pending | paid | overdue.

Inductive Frequency : Set := once | monthly | yearly.

#[export] Instance TransactionType_eq_dec : EqDecision TransactionType.
Proof. solve_decision. Defined.
#[export] Instance DebtType_eq_dec : EqDecision DebtType.
Proof. solve_decision. Defined.
#[export] Instance DebtStatus_eq_dec : EqDecision DebtStatus.
Proof. solve_decision. Defined.

(** A line of the [items] snapshot of a sale. *)
Record SaleItem : Set := mkSaleItem {
  item_productId : string;
  item_productName : string;
  item_quantity : Z;
  item_variantName : option string;
  item_price : Z
}.

Record Transaction : Set := mkTransaction {
  tx_id : string;
  tx_type : TransactionType;
  tx_description : string;
  tx_amount : Z;
  tx_timestamp : string;
  tx_category : option string;
  tx_paymentMethod : option string;
  tx_items : option (list SaleItem)
}.

Record Bill : Set := mkBill {
  bill_id : string;
  bill_name : string;
  bill_amount : Z;
  bill_dueDate : string;
  bill_frequency : Frequency;
  bill_category : option string;
  bill_notes : option string;
  isPaid : bool;
  bill_createdAt : string
}.

Record DebtEntry : Set := mkDebtEntry {
  debt_id : string;
  debt_type : DebtType;
  counterparty : string;
  debt_amount : Z;
  debt_description : string;
  dueDate : string;
  status : DebtStatus;
  debt_createdAt : string;
  debt_category : option string;
  debt_notes : option string;
  paidAt : option string;
  linkedTransactionId : option string
}.

Record ProductVariant : Set := mkProductVariant {
  variant_id : string;
  variant_name : string;
  variant_quantity : Z;
  sku : option string
}.

(** [standaloneQuantity] is not a declared property of [Product]: it is the
    key that the spread of an update payload leaves in the stored object. *)
Record Product : Set := mkProduct {
  product_id : string;
  product_name : string;
  product_description : option string;
  image : option string;
  price : Z;
  totalQuantity : Z;
  hasVariants : bool;
  variants : list ProductVariant;
  product_category : option string;
  createdAt : string;
  updatedAt : string;
  standaloneQuantity : option Z
}.

(* ===================================================================== *)
(** ** The host, the store and the monad of operations                    *)
(* ===================================================================== *)

Inductive StorageKey : Set :=
  | TRANSACTIONS   (* 'cashier_transactions' *)
  | BILLS          (* 'app_bills' *)
  | DEBTS          (* 'debts' *)
  | PRODUCTS.      (* 'inventory_products' *)

Inductive Effect : Set :=
  | SetItem (k : StorageKey)         (* localStorage.setItem(k, ...) *)
  | Dispatch (k : StorageKey)        (* dispatchEvent(new StorageEvent(..)) *)
  | Alert (message : string).        (* alert(message) *)

Record World : Type := mkWorld {
  parseDate : string -> option Z;    (* new Date(s).getTime(), None = NaN *)
  toISOString : Z -> string;
  clock : nat -> Z;                  (* successive readings of the clock *)
  random : nat -> string;            (* successive random suffixes *)
  ticks : nat;
  draws : nat;
  transactions : list Transaction;
  bills : list Bill;
  debts : list DebtEntry;
  products : list Product;
  trace : list Effect
}.

Inductive Error : Set :=
  | DebtNotFound
  | DebtAlreadyPaid
  | BillNotFound
  | ProductNotFound
  | VariantNotFound
  | HostError (message : string).

(** The text of [new Error(...)] at each throw site. *)
Definition message (e : Error) : string :=
  match e with
  | DebtNotFound => "Debt not found"
  | DebtAlreadyPaid => "Debt is already marked as paid"
  | BillNotFound => "Bill not found"
  | ProductNotFound => "Product not found"
  | VariantNotFound => "Variant not found"
  | HostError m => m
  end.

Inductive Outcome (A : Type) : Type :=
  | Ok (a : A)
  | Throw (e : Error).
Arguments Ok {A} a.
Arguments Throw {A} e.

Definition M (A : Type) : Type := World -> Outcome A * World.

Definition ret {A : Type} (a : A) : M A := fun w => (Ok a, w).

Definition throw {A : Type} (e : Error) : M A := fun w => (Throw e, w).

Definition bind {A B : Type} (m : M A) (k : A -> M B) : M B :=
  fun w =>
    match m w with
    | (Ok a, w') => k a w'
    | (Throw e, w') => (Throw e, w')
    end.

Declare Scope js_scope.
Delimit Scope js_scope with js.
Notation "x <- m ;; k" := (bind m (fun x => k))
  (at level 100, m at next level, right associativity) : js_scope.
Notation "m ;;; k" := (bind m (fun _ => k))
  (at level 100, right associativity) : js_scope.
Local Open Scope js_scope.

Definition modify (f : World -> World) : M unit := fun w => (Ok tt, f w).

Definition emit (e : Effect) : M unit :=
  modify (fun w =>
    mkWorld (parseDate w) (toISOString w) (clock w) (random w) (ticks w)
            (draws w) (transactions w) (bills w) (debts w) (products w)
            (trace w ++ [e])).

(** [new Date()] / [Date.now()]: the next reading of the clock. *)
Definition newDate : M Z := fun w =>
  (Ok (clock w (ticks w)),
   mkWorld (parseDate w) (toISOString w) (clock w) (random w) (S (ticks w))
           (draws w) (transactions w) (bills w) (debts w) (products w)
           (trace w)).

(** [Math.random().toString(36).substring(2, 9)] *)
Definition mathRandom : M string := fun w =>
  (Ok (random w (draws w)),
   mkWorld (parseDate w) (toISOString w) (clock w) (random w) (ticks w)
           (S (draws w)) (transactions w) (bills w) (debts w) (products w)
           (trace w)).

(** [new Date().toISOString()] *)
Definition nowISO : M string := fun w =>
  (t <- newDate ;; ret (toISOString w t)) w.

(** [new Date(s) < now] *)
Definition isBefore (w : World) (s : string) (now : Z) : bool :=
  match parseDate w s with
  | Some t => t <? now
  | None => false
  end.

(** [generateId], the same in the three services. *)
Definition generateId : M string :=
  t <- newDate ;;
  r <- mathRandom ;;
  ret (JS.numberToString t +:+ "_" +:+ r).

Fixpoint forEach {A : Type} (f : A -> M unit) (l : list A) : M unit :=
  match l with
  | [] => ret tt
  | x :: l' => f x ;;; forEach f l'
  end.

Fixpoint mapM {A B : Type} (f : A -> M B) (l : list A) : M (list B) :=
  match l with
  | [] => ret []
  | x :: l' => y <- f x ;; ys <- mapM f l' ;; ret (y :: ys)
  end.

(** [Array.prototype.sort(cmp)]: a stable sort; [cmp a b <= 0] keeps [a]
    before [b]. *)
Fixpoint sortInsert {A : Type} (cmp : A -> A -> Z) (x : A) (l : list A) : list A :=
  match l with
  | [] => [x]
  | y :: l' => if cmp x y <=? 0 then x :: y :: l' else y :: sortInsert cmp x l'
  end.

Fixpoint sort {A : Type} (cmp : A -> A -> Z) (l : list A) : list A :=
  match l with
  | [] => []
  | x :: l' => sortInsert cmp x (sort cmp l')
  end.

(** [new Date(b).getTime() - new Date(a).getTime()]; a [NaN] result counts
    as [0] for the sort. *)
Definition newestFirst (w : World) (a b : string) : Z :=
  match parseDate w b, parseDate w a with
  | Some tb, Some ta => tb - ta
  | _, _ => 0
  end.

(* ===================================================================== *)
(** ** [dataService.ts]: the ledger and the bills                         *)
(* ===================================================================== *)

Definition getTransactions : M (list Transaction) :=
  fun w => (Ok (transactions w), w).

(** [saveTransactions] writes the key and dispatches nothing. *)
Definition saveTransactions (ts : list Transaction) : M unit :=
  modify (fun w =>
    mkWorld (parseDate w) (toISOString w) (clock w) (random w) (ticks w)
            (draws w) ts (bills w) (debts w) (products w)
            (trace w ++ [SetItem TRANSACTIONS])).

Definition addTransaction
    (type : TransactionType) (description : string) (amount : Z)
    (category paymentMethod : option string)
    (items : option (list SaleItem)) : M Transaction :=
  transactions <- getTransactions ;;
  newId <- generateId ;;
  stamp <- nowISO ;;
  let newTransaction :=
    {| tx_id := newId;
       tx_type := type;
       tx_description := description;
       tx_amount := amount;
       tx_timestamp := stamp;
       tx_category := category;
       tx_paymentMethod := paymentMethod;
       tx_items := items |} in
  let transactions := transactions ++ [newTransaction] in
  saveTransactions transactions ;;;
  emit (Dispatch TRANSACTIONS) ;;;
  ret newTransaction.

(** The [filters] argument of [getTransactionsWithFilters]. *)
Record TransactionFilters : Set := mkTransactionFilters {
  query_startDate : option string;
  query_endDate : option string;
  query_type : option TransactionType;
  query_searchTerm : option string
}.

Definition transactionMatches (term : string) (t : Transaction) : bool :=
  JS.includes (JS.toLowerCase (tx_description t)) term
  || match tx_category t with
     | Some c => JS.includes (JS.toLowerCase c) term
     | None => false
     end.

(** [getTransactionsWithFilters].  The timestamps are compared as strings.
    [endOfDay] stands for the host's [new Date(endDate)],
    [setHours(23, 59, 59, 999)] in the local time zone and [toISOString()];
    it gives [None] when the date is invalid, where [toISOString] throws a
    [RangeError].  That call sits in the callback of the filter, so it is
    made only when there is a transaction to test. *)
Definition getTransactionsWithFilters
    (endOfDay : string -> option string) (filters : TransactionFilters)
    : M (list Transaction) :=
  transactions <- getTransactions ;;
  let transactions :=
    if JS.truthyOpt (query_startDate filters)
    then filter (fun t => String.leb (JS.definedOr (query_startDate filters) "")
                                     (tx_timestamp t) = true) transactions
    else transactions in
  transactions <-
    (if JS.truthyOpt (query_endDate filters)
     then
       match transactions with
       | [] => ret []
       | _ :: _ =>
           match endOfDay (JS.definedOr (query_endDate filters) "") with
           | None => throw (HostError "Invalid time value")
           | Some limit =>
               ret (filter (fun t => String.leb (tx_timestamp t) limit = true)
                           transactions)
           end
       end
     else ret transactions) ;;
  let transactions :=
    match query_type filters with
    | Some type => filter (fun t => tx_type t = type) transactions
    | None => transactions
    end in
  let transactions :=
    if JS.truthyOpt (query_searchTerm filters)
    then
      let term := JS.toLowerCase (JS.definedOr (query_searchTerm filters) "") in
      filter (fun t => transactionMatches term t = true) transactions
    else transactions in
  fun w =>
    ret (sort (fun a b => newestFirst w (tx_timestamp a) (tx_timestamp b))
              transactions) w.

Definition getBills : M (list Bill) := fun w => (Ok (bills w), w).

Definition saveBills (bs : list Bill) : M unit :=
  modify (fun w =>
    mkWorld (parseDate w) (toISOString w) (clock w) (random w) (ticks w)
            (draws w) (transactions w) bs (debts w) (products w)
            (trace w ++ [SetItem BILLS])) ;;;
  emit (Dispatch BILLS).

Definition getAllBills : M (list Bill) := getBills.

Definition createBill
    (name : string) (amount : Z) (dueDate : string) (frequency : Frequency)
    (category notes : option string) : M Bill :=
  bills <- getBills ;;
  newId <- generateId ;;
  stamp <- nowISO ;;
  let newBill :=
    {| bill_id := newId;
       bill_name := JS.trim name;
       bill_amount := amount;
       bill_dueDate := dueDate;
       bill_frequency := frequency;
       bill_category := JS.orUndefined (JS.trim <$> category);
       bill_notes := JS.orUndefined (JS.trim <$> notes);
       isPaid := false;
       bill_createdAt := stamp |} in
  saveBills (bills ++ [newBill]) ;;;
  ret newBill.

(** [Partial<Omit<Bill, 'id' | 'createdAt'>>] *)
Record BillUpdates : Set := mkBillUpdates {
  upd_bill_name : option string;
  upd_bill_amount : option Z;
  upd_bill_dueDate : option string;
  upd_bill_frequency : option Frequency;
  upd_bill_category : option string;
  upd_bill_notes : option string;
  upd_isPaid : option bool
}.

Definition updateBill (billId : string) (updates : BillUpdates) : M Bill :=
  bills <- getBills ;;
  match list_find (fun b => bill_id b = billId) bills with
  | None => throw BillNotFound
  | Some (billIndex, current) =>
      let updatedBill :=
        {| bill_id := bill_id current;
           bill_name :=
             JS.orElse (JS.trim <$> upd_bill_name updates) (bill_name current);
           bill_amount :=
             JS.definedOr (upd_bill_amount updates) (bill_amount current);
           bill_dueDate :=
             JS.definedOr (upd_bill_dueDate updates) (bill_dueDate current);
           bill_frequency :=
             JS.definedOr (upd_bill_frequency updates) (bill_frequency current);
           bill_category := JS.orUndefined (JS.trim <$> upd_bill_category updates);
           bill_notes := JS.orUndefined (JS.trim <$> upd_bill_notes updates);
           isPaid := JS.definedOr (upd_isPaid updates) (isPaid current);
           bill_createdAt := bill_createdAt current |} in
      saveBills (<[billIndex := updatedBill]> bills) ;;;
      ret updatedBill
  end.

Definition deleteBill (billId : string) : M unit :=
  bills <- getBills ;;
  saveBills (filter (fun b => bill_id b <> billId) bills).

Definition toggleBillPaid (billId : string) (createTransaction : bool) : M Bill :=
  bills <- getBills ;;
  match list_find (fun b => bill_id b = billId) bills with
  | None => throw BillNotFound
  | Some (billIndex, bill) =>
      let newPaidStatus := negb (isPaid bill) in
      let toggled :=
        {| bill_id := bill_id bill;
           bill_name := bill_name bill;
           bill_amount := bill_amount bill;
           bill_dueDate := bill_dueDate bill;
           bill_frequency := bill_frequency bill;
           bill_category := bill_category bill;
           bill_notes := bill_notes bill;
           isPaid := newPaidStatus;
           bill_createdAt := bill_createdAt bill |} in
      let bills := <[billIndex := toggled]> bills in
      saveBills bills ;;;
      (if newPaidStatus && createTransaction
       then
         _ <- addTransaction outflow ("Pago: " +:+ bill_name bill)
                (bill_amount bill)
                (Some (JS.orElse (bill_category bill) "Gastos Fijos"))
                None None ;;
         ret tt
       else ret tt) ;;;
      ret toggled
  end.

(** [toggleBillPaid(billId)]: the flag defaults to [true]. *)
Definition toggleBillPaidDefault (billId : string) : M Bill :=
  toggleBillPaid billId true.

(* ===================================================================== *)
(** ** [debtService.ts]                                                   *)
(* ===================================================================== *)

Definition getDebts : M (list DebtEntry) := fun w => (Ok (debts w), w).

Definition saveDebts (ds : list DebtEntry) : M unit :=
  modify (fun w =>
    mkWorld (parseDate w) (toISOString w) (clock w) (random w) (ticks w)
            (draws w) (transactions w) (bills w) ds (products w)
            (trace w ++ [SetItem DEBTS])) ;;;
  emit (Dispatch DEBTS).

(** [{ ...debt, status }] *)
Definition setStatus (d : DebtEntry) (s : DebtStatus) : DebtEntry :=
  {| debt_id := debt_id d;
     debt_type := debt_type d;
     counterparty := counterparty d;
     debt_amount := debt_amount d;
     debt_description := debt_description d;
     dueDate := dueDate d;
     status := s;
     debt_createdAt := debt_createdAt d;
     debt_category := debt_category d;
     debt_notes := debt_notes d;
     paidAt := paidAt d;
     linkedTransactionId := linkedTransactionId d |}.

(** The callback of [debts.map] in [getAllDebts]. *)
Definition refreshOverdue (w : World) (now : Z) (debt : DebtEntry) : DebtEntry :=
  if bool_decide (status debt = pending) && isBefore w (dueDate debt) now
  then setStatus debt overdue
  else debt.

Record DebtFilters : Set := mkDebtFilters {
  filter_type : option DebtType;
  filter_status : option DebtStatus;
  filter_searchTerm : option string
}.

(** [getAllDebts()] without argument. *)
Definition noFilters : DebtFilters := mkDebtFilters None None None.

Definition matchesSearch (term : string) (d : DebtEntry) : bool :=
  JS.includes (JS.toLowerCase (counterparty d)) term
  || JS.includes (JS.toLowerCase (debt_description d)) term
  || match debt_category d with
     | Some c => JS.includes (JS.toLowerCase c) term
     | None => false
     end.

Definition applyFilters (filters : DebtFilters) (ds : list DebtEntry) : list DebtEntry :=
  let ds :=
    match filter_type filters with
    | Some t => filter (fun d => debt_type d = t) ds
    | None => ds
    end in
  let ds :=
    match filter_status filters with
    | Some s => filter (fun d => status d = s) ds
    | None => ds
    end in
  if JS.truthyOpt (filter_searchTerm filters)
  then
    let term := JS.toLowerCase (JS.definedOr (filter_searchTerm filters) "") in
    filter (fun d => matchesSearch term d = true) ds
  else ds.

Definition getAllDebts (filters : DebtFilters) : M (list DebtEntry) :=
  debts <- getDebts ;;
  now <- newDate ;;
  fun w =>
    let debts := refreshOverdue w now <$> debts in
    let debts := applyFilters filters debts in
    ret (sort (fun a b => newestFirst w (debt_createdAt a) (debt_createdAt b))
              debts) w.

Definition getDebtById (debtId : string) : M (option DebtEntry) :=
  debts <- getDebts ;;
  ret (snd <$> list_find (fun d => debt_id d = debtId) debts).

Definition createDebt
    (type : DebtType) (counterparty : string) (amount : Z)
    (description dueDate : string) (category notes : option string)
    : M DebtEntry :=
  debts <- getDebts ;;
  newId <- generateId ;;
  now <- newDate ;;
  stamp <- nowISO ;;
  fun w =>
    let newDebt :=
      {| debt_id := newId;
         debt_type := type;
         counterparty := JS.trim counterparty;
         debt_amount := amount;
         debt_description := JS.trim description;
         dueDate := dueDate;
         status := if isBefore w dueDate now then overdue else pending;
         debt_createdAt := stamp;
         debt_category := JS.orUndefined (JS.trim <$> category);
         debt_notes := JS.orUndefined (JS.trim <$> notes);
         paidAt := None;
         linkedTransactionId := None |} in
    (saveDebts (debts ++ [newDebt]) ;;; ret newDebt) w.

(** [Partial<Omit<DebtEntry, 'id' | 'createdAt' | 'linkedTransactionId' | 'paidAt'>>] *)
Record DebtUpdates : Set := mkDebtUpdates {
  upd_type : option DebtType;
  upd_counterparty : option string;
  upd_amount : option Z;
  upd_description : option string;
  upd_dueDate : option string;
  upd_status : option DebtStatus;
  upd_category : option string;
  upd_notes : option string
}.

(** The object literal of [updateDebt]: the stored entry, overridden by the
    payload, with the four text properties recomputed. *)
Definition mergeDebt (current : DebtEntry) (updates : DebtUpdates) : DebtEntry :=
  {| debt_id := debt_id current;
     debt_type := JS.definedOr (upd_type updates) (debt_type current);
     counterparty :=
       JS.orElse (JS.trim <$> upd_counterparty updates) (counterparty current);
     debt_amount := JS.definedOr (upd_amount updates) (debt_amount current);
     debt_description :=
       JS.orElse (JS.trim <$> upd_description updates) (debt_description current);
     dueDate := JS.definedOr (upd_dueDate updates) (dueDate current);
     status := JS.definedOr (upd_status updates) (status current);
     debt_createdAt := debt_createdAt current;
     debt_category := JS.orUndefined (JS.trim <$> upd_category updates);
     debt_notes := JS.orUndefined (JS.trim <$> upd_notes updates);
     paidAt := paidAt current;
     linkedTransactionId := linkedTransactionId current |}.

Definition updateDebt (debtId : string) (updates : DebtUpdates) : M DebtEntry :=
  debts <- getDebts ;;
  match list_find (fun d => debt_id d = debtId) debts with
  | None => throw DebtNotFound
  | Some (debtIndex, current) =>
      let merged := mergeDebt current updates in
      updatedDebt <-
        (if JS.truthyOpt (upd_dueDate updates)
            && bool_decide (status merged = pending)
         then
           now <- newDate ;;
           fun w =>
             ret (setStatus merged
                    (if isBefore w (JS.definedOr (upd_dueDate updates) "") now
                     then overdue else pending)) w
         else ret merged) ;;
      saveDebts (<[debtIndex := updatedDebt]> debts) ;;;
      ret updatedDebt
  end.

Definition deleteDebt (debtId : string) : M unit :=
  debts <- getDebts ;;
  saveDebts (filter (fun d => debt_id d <> debtId) debts).

(** The signature of [dataService.addTransaction], the one import of
    [debtService]. *)
Definition LedgerAdd : Type :=
  TransactionType -> string -> Z -> option string -> option string ->
  option (list SaleItem) -> M Transaction.

(** The object literal that settles a debt. *)
Definition settle (debt : DebtEntry) (stamp txId : string) : DebtEntry :=
  {| debt_id := debt_id debt;
     debt_type := debt_type debt;
     counterparty := counterparty debt;
     debt_amount := debt_amount debt;
     debt_description := debt_description debt;
     dueDate := dueDate debt;
     status := paid;
     debt_createdAt := debt_createdAt debt;
     debt_category := debt_category debt;
     debt_notes := debt_notes debt;
     paidAt := Some stamp;
     linkedTransactionId := Some txId |}.

Definition transactionDescription (debt : DebtEntry) : string :=
  match debt_type debt with
  | receivable => "Cobro: " +:+ counterparty debt +:+ " - " +:+ debt_description debt
  | payable => "Pago: " +:+ counterparty debt +:+ " - " +:+ debt_description debt
  end.

Definition transactionType (debt : DebtEntry) : TransactionType :=
  match debt_type debt with
  | receivable => inflow
  | payable => outflow
  end.

(** [markAsPaid], with the ledger it writes to as a parameter. *)
Definition markAsPaidVia (ledgerAdd : LedgerAdd) (debtId : string)
    : M (DebtEntry * Transaction) :=
  debts <- getDebts ;;
  match list_find (fun d => debt_id d = debtId) debts with
  | None => throw DebtNotFound
  | Some (debtIndex, debt) =>
      if bool_decide (status debt = paid)
      then throw DebtAlreadyPaid
      else
        transaction <-
          ledgerAdd (transactionType debt) (transactionDescription debt)
                    (debt_amount debt) (debt_category debt) None None ;;
        stamp <- nowISO ;;
        let updatedDebt := settle debt stamp (tx_id transaction) in
        saveDebts (<[debtIndex := updatedDebt]> debts) ;;;
        ret (updatedDebt, transaction)
  end.

Definition markAsPaid (debtId : string) : M (DebtEntry * Transaction) :=
  markAsPaidVia addTransaction debtId.

Record DebtStats : Set := mkDebtStats {
  totalReceivablesPending : Z;
  totalPayablesPending : Z;
  netBalance : Z;
  overdueReceivables : nat;
  overduePayables : nat;
  totalPendingDebts : nat
}.

Definition isOpen (d : DebtEntry) : bool :=
  bool_decide (status d = pending) || bool_decide (status d = overdue).

Definition getDebtStats : M DebtStats :=
  debts <- getAllDebts noFilters ;;
  let receivables := filter (fun d => debt_type d = receivable) debts in
  let payables := filter (fun d => debt_type d = payable) debts in
  let sumOpen (l : list DebtEntry) :=
    fold_left (fun sum d => sum + debt_amount d)
              (filter (fun d => isOpen d = true) l) 0 in
  let totalR := sumOpen receivables in
  let totalP := sumOpen payables in
  ret {| totalReceivablesPending := totalR;
         totalPayablesPending := totalP;
         netBalance := totalR - totalP;
         overdueReceivables :=
           length (filter (fun d => status d = overdue) receivables);
         overduePayables :=
           length (filter (fun d => status d = overdue) payables);
         totalPendingDebts := length (filter (fun d => isOpen d = true) debts) |}.

(* ===================================================================== *)
(** ** [inventoryService.ts]                                              *)
(* ===================================================================== *)

Definition getProducts : M (list Product) := fun w => (Ok (products w), w).

Definition saveProducts (ps : list Product) : M unit :=
  modify (fun w =>
    mkWorld (parseDate w) (toISOString w) (clock w) (random w) (ticks w)
            (draws w) (transactions w) (bills w) (debts w) ps
            (trace w ++ [SetItem PRODUCTS])) ;;;
  emit (Dispatch PRODUCTS).

(** [variants.reduce((sum, v) => sum + v.quantity, 0)] *)
Definition sumVariants (vs : list ProductVariant) : Z :=
  fold_left (fun sum v => sum + variant_quantity v) vs 0.

Definition calculateTotalQuantity
    (hasVariants : bool) (variants : list ProductVariant) (standaloneQty : Z) : Z :=
  if hasVariants && (0 <? length variants)%nat
  then sumVariants variants
  else standaloneQty.

Record InventoryFilters : Set := mkInventoryFilters {
  inv_searchTerm : option string;
  inv_category : option string;
  lowStock : option bool
}.

Definition productMatches (term : string) (p : Product) : bool :=
  JS.includes (JS.toLowerCase (product_name p)) term
  || match product_description p with
     | Some d => JS.includes (JS.toLowerCase d) term
     | None => false
     end
  || match product_category p with
     | Some c => JS.includes (JS.toLowerCase c) term
     | None => false
     end.

Definition getAllProducts (filters : InventoryFilters) : M (list Product) :=
  products <- getProducts ;;
  let products :=
    if JS.truthyOpt (inv_searchTerm filters)
    then
      let term := JS.toLowerCase (JS.definedOr (inv_searchTerm filters) "") in
      filter (fun p => productMatches term p = true) products
    else products in
  let products :=
    if JS.truthyOpt (inv_category filters)
    then filter (fun p => product_category p = inv_category filters) products
    else products in
  let products :=
    if JS.definedOr (lowStock filters) false
    then filter (fun p => totalQuantity p <= 10) products
    else products in
  fun w =>
    ret (sort (fun a b => newestFirst w (updatedAt a) (updatedAt b)) products) w.

(** [Omit<ProductVariant, 'id'>] *)
Record VariantInput : Set := mkVariantInput {
  input_name : string;
  input_quantity : Z;
  input_sku : option string
}.

Definition createProduct
    (name : string) (price : Z) (description image category : option string)
    (hasVariants : option bool) (variants : option (list VariantInput))
    (standaloneQuantity : option Z) : M Product :=
  let hasVariants := JS.definedOr hasVariants false in
  let variants := JS.definedOr variants [] in
  let standaloneQuantity := JS.definedOr standaloneQuantity 0 in
  products <- getProducts ;;
  productVariants <-
    mapM (fun v =>
            newId <- generateId ;;
            ret {| variant_id := newId;
                   variant_name := input_name v;
                   variant_quantity := input_quantity v;
                   sku := input_sku v |})
         variants ;;
  let totalQuantity :=
    calculateTotalQuantity hasVariants productVariants standaloneQuantity in
  newId <- generateId ;;
  created <- nowISO ;;
  updated <- nowISO ;;
  let newProduct :=
    {| product_id := newId;
       product_name := JS.trim name;
       product_description := JS.trim <$> description;
       image := image;
       price := price;
       totalQuantity := totalQuantity;
       hasVariants := hasVariants;
       variants := productVariants;
       product_category := JS.trim <$> category;
       createdAt := created;
       updatedAt := updated;
       standaloneQuantity := None |} in
  saveProducts (products ++ [newProduct]) ;;;
  ret newProduct.

Record ProductUpdates : Set := mkProductUpdates {
  upd_name : option string;
  upd_product_description : option string;
  upd_image : option string;
  upd_price : option Z;
  upd_product_category : option string;
  upd_hasVariants : option bool;
  upd_variants : option (list ProductVariant);
  upd_standaloneQuantity : option Z
}.

(** [{ standaloneQuantity: q }], the payload of a sale. *)
Definition onlyStandaloneQuantity (q : Z) : ProductUpdates :=
  mkProductUpdates None None None None None None None (Some q).

Definition updateProduct (productId : string) (updates : ProductUpdates) : M Product :=
  products <- getProducts ;;
  match list_find (fun p => product_id p = productId) products with
  | None => throw ProductNotFound
  | Some (productIndex, currentProduct) =>
      let hasVariants' :=
        JS.definedOr (upd_hasVariants updates) (hasVariants currentProduct) in
      let variants' :=
        JS.definedOr (upd_variants updates) (variants currentProduct) in
      let standaloneQty :=
        JS.definedOr (upd_standaloneQuantity updates)
                     (totalQuantity currentProduct) in
      stamp <- nowISO ;;
      let updatedProduct :=
        {| product_id := product_id currentProduct;
           product_name :=
             JS.orElse (JS.trim <$> upd_name updates) (product_name currentProduct);
           product_description := JS.trim <$> upd_product_description updates;
           image :=
             match upd_image updates with
             | Some i => Some i
             | None => image currentProduct
             end;
           price := JS.definedOr (upd_price updates) (price currentProduct);
           totalQuantity :=
             calculateTotalQuantity hasVariants' variants' standaloneQty;
           hasVariants := hasVariants';
           variants := variants';
           product_category := JS.trim <$> upd_product_category updates;
           createdAt := createdAt currentProduct;
           updatedAt := stamp;
           standaloneQuantity :=
             match upd_standaloneQuantity updates with
             | Some q => Some q
             | None => standaloneQuantity currentProduct
             end |} in
      saveProducts (<[productIndex := updatedProduct]> products) ;;;
      ret updatedProduct
  end.

Definition deleteProduct (productId : string) : M unit :=
  products <- getProducts ;;
  saveProducts (filter (fun p => product_id p <> productId) products).

(** [variant.quantity = q] *)
Definition setQuantity (v : ProductVariant) (q : Z) : ProductVariant :=
  {| variant_id := variant_id v;
     variant_name := variant_name v;
     variant_quantity := q;
     sku := sku v |}.

Definition updateVariantQuantity
    (productId variantId : string) (newQuantity : Z) : M Product :=
  products <- getProducts ;;
  match list_find (fun p => product_id p = productId) products with
  | None => throw ProductNotFound
  | Some (productIndex, product) =>
      match list_find (fun v => variant_id v = variantId) (variants product) with
      | None => throw VariantNotFound
      | Some (variantIndex, variant) =>
          let variants' :=
            <[variantIndex := setQuantity variant (Z.max 0 newQuantity)]>
              (variants product) in
          stamp <- nowISO ;;
          let product' :=
            {| product_id := product_id product;
               product_name := product_name product;
               product_description := product_description product;
               image := image product;
               price := price product;
               totalQuantity := sumVariants variants';
               hasVariants := hasVariants product;
               variants := variants';
               product_category := product_category product;
               createdAt := createdAt product;
               updatedAt := stamp;
               standaloneQuantity := standaloneQuantity product |} in
          saveProducts (<[productIndex := product']> products) ;;;
          ret product'
      end
  end.

Definition getProductById (productId : string) : M (option Product) :=
  products <- getProducts ;;
  ret (snd <$> list_find (fun p => product_id p = productId) products).

(** [Array.from(new Set(xs))]: each value once, at the place where it comes
    first. *)
Fixpoint fromSet (xs : list string) : list string :=
  match xs with
  | [] => []
  | x :: xs' => x :: filter (fun y => y <> x) (fromSet xs')
  end.

(** The comparison of [sort()] without argument: strings by their code
    units, here their bytes. *)
Definition compareStrings (a b : string) : Z :=
  match String.compare a b with
  | Lt => -1
  | Eq => 0
  | Gt => 1
  end.

Definition getCategories : M (list string) :=
  products <- getProducts ;;
  let categories :=
    omap (fun p => JS.orUndefined (product_category p)) products in
  ret (sort compareStrings (fromSet categories)).

(* ===================================================================== *)
(** ** [NewSaleForm.tsx]: the sale workflow                               *)
(* ===================================================================== *)

(** A value of the [ProductQuantity] object. *)
Record LineData : Set := mkLineData {
  quantity : Z;
  selectedVariantId : option string
}.

(** The state of the form.  [productQuantities] is an object used as a map:
    it holds a key once, and its keys are product ids, which are not array
    indices, so [Object.entries] lists them in insertion order. *)
Record FormState : Set := mkFormState {
  form_products : list Product;
  productQuantities : list (string * LineData);
  paymentMethod : string;
  searchTerm : string
}.

(** [products.find(p => p.id === productId)] *)
Definition findProduct (productId : string) (ps : list Product) : option Product :=
  snd <$> list_find (fun p => product_id p = productId) ps.

(** [product.variants.find(v => v.id === variantId)] *)
Definition findVariant (variantId : string) (p : Product) : option ProductVariant :=
  snd <$> list_find (fun v => variant_id v = variantId) (variants p).

(** [delete obj[key]] *)
Definition deleteKey {A : Type} (key : string) (obj : list (string * A)) : list (string * A) :=
  filter (fun e => fst e <> key) obj.

(** [{ ...obj, [key]: value }]: an existing key keeps its place, a new one
    goes last. *)
Fixpoint setKey {A : Type} (key : string) (value : A) (obj : list (string * A))
    : list (string * A) :=
  match obj with
  | [] => [(key, value)]
  | (k, v) :: obj' =>
      if decide (k = key) then (k, value) :: obj'
      else (k, v) :: setKey key value obj'
  end.

(** [obj[key]] *)
Fixpoint getKey {A : Type} (key : string) (obj : list (string * A)) : option A :=
  match obj with
  | [] => None
  | (k, v) :: obj' => if decide (k = key) then Some v else getKey key obj'
  end.

Definition setProductQuantities (st : FormState) (q : list (string * LineData))
    : FormState :=
  mkFormState (form_products st) q (paymentMethod st) (searchTerm st).

Definition updateProductQuantity
    (st : FormState) (productId : string) (newQuantity : Z)
    (variantId : option string) : FormState :=
  if newQuantity =? 0
  then setProductQuantities st (deleteKey productId (productQuantities st))
  else setProductQuantities st
         (setKey productId (mkLineData newQuantity variantId)
                 (productQuantities st)).

Definition updateProductVariant
    (st : FormState) (productId variantId : string) : FormState :=
  match findProduct productId (form_products st) with
  | None => st
  | Some product =>
      match findVariant variantId product with
      | Some variant =>
          if 0 <? variant_quantity variant
          then setProductQuantities st
                 (setKey productId (mkLineData 1 (Some variantId))
                         (productQuantities st))
          else st
      | None => st
      end
  end.

Definition getMaxStock (product : Product) (variantId : option string) : Z :=
  if JS.truthyOpt variantId
  then
    match findVariant (JS.definedOr variantId "") product with
    | Some variant => variant_quantity variant
    | None => 0
    end
  else totalQuantity product.

Definition calculateTotal (st : FormState) : Z :=
  fold_left
    (fun sum e =>
       match findProduct (fst e) (form_products st) with
       | None => sum
       | Some product => sum + price product * quantity (snd e)
       end)
    (productQuantities st) 0.

(** The argument of the [onAddTransaction] callback. *)
Record TransactionInput : Set := mkTransactionInput {
  in_description : string;
  in_amount : Z;
  in_type : TransactionType;
  in_category : option string;
  in_paymentMethod : option string;
  in_items : option (list SaleItem)
}.

(** Modelled from the spec: the [onAddTransaction] property is supplied by the
    component that mounts the form, which is not part of the sources.  Per
    the sale workflow (step 3) and the ledger's [add], it appends one
    transaction built from its argument. *)
Definition onAddTransaction (t : TransactionInput) : M unit :=
  _ <- addTransaction (in_type t) (in_description t) (in_amount t)
         (in_category t) (in_paymentMethod t) (in_items t) ;;
  ret tt.

(** One turn of the loop over [Object.entries(productQuantities)]. *)
Definition sellLine (st : FormState) (e : string * LineData) : M unit :=
  let productId := fst e in
  let data := snd e in
  match findProduct productId (form_products st) with
  | None => ret tt
  | Some product =>
      if JS.truthyOpt (selectedVariantId data)
      then
        let variantId := JS.definedOr (selectedVariantId data) "" in
        match findVariant variantId product with
        | Some variant =>
            _ <- updateVariantQuantity productId variantId
                   (variant_quantity variant - quantity data) ;;
            ret tt
        | None => ret tt
        end
      else
        _ <- updateProduct productId
               (onlyStandaloneQuantity (totalQuantity product - quantity data)) ;;
        ret tt
  end.

Definition saleDescription (st : FormState) : string :=
  let entries := productQuantities st in
  match entries with
  | [(productId, data)] =>
      "Venta: "
      +:+ match findProduct productId (form_products st) with
          | Some p => product_name p
          | None => "undefined"
          end
      +:+ (if 1 <? quantity data
           then " x" +:+ JS.numberToString (quantity data)
           else "")
  | _ => "Venta: " +:+ pretty (length entries) +:+ " productos"
  end.

Definition saleItems (st : FormState) : list SaleItem :=
  omap
    (fun e =>
       match findProduct (fst e) (form_products st) with
       | None => None
       | Some product =>
           let variantName :=
             if JS.truthyOpt (selectedVariantId (snd e))
             then variant_name <$>
                    findVariant (JS.definedOr (selectedVariantId (snd e)) "")
                                product
             else None in
           Some {| item_productId := product_id product;
                   item_productName := product_name product;
                   item_quantity := quantity (snd e);
                   item_variantName := variantName;
                   item_price := price product |}
       end)
    (productQuantities st).

Definition handleSubmitWith
    (onAddTransaction : TransactionInput -> M unit) (st : FormState)
    : M FormState :=
  let itemCount := length (productQuantities st) in
  if Nat.eqb itemCount 0
  then emit (Alert "Agrega al menos un producto a la venta") ;;; ret st
  else
    let total := calculateTotal st in
    forEach (sellLine st) (productQuantities st) ;;;
    let description := saleDescription st in
    let items := saleItems st in
    onAddTransaction
      {| in_description := description;
         in_amount := total;
         in_type := inflow;
         in_category := None;
         in_paymentMethod := JS.orUndefined (Some (paymentMethod st));
         in_items := Some items |} ;;;
    ret (mkFormState (form_products st) [] "" "").

Definition handleSubmit (st : FormState) : M FormState :=
  handleSubmitWith onAddTransaction st.

(** What the render of a product card reads from the state. *)
Definition currentQuantity (st : FormState) (product : Product) : Z :=
  match getKey (product_id product) (productQuantities st) with
  | Some data => quantity data
  | None => 0
  end.

Definition cardVariantId (st : FormState) (product : Product) : option string :=
  let chosen :=
    match getKey (product_id product) (productQuantities st) with
    | Some data => selectedVariantId data
    | None => None
    end in
  if JS.truthyOpt chosen then chosen
  else if hasVariants product && (0 <? length (variants product))%nat
       then variant_id <$> head (variants product)
       else None.

(** The three controls of a product card.  A disabled button does nothing,
    and the selector is there only for a product in variant mode. *)
Inductive CardEvent : Set :=
  | ClickMinus
  | ClickPlus
  | ChooseVariant (variantId : string).

Definition onCardEvent (st : FormState) (product : Product) (ev : CardEvent)
    : FormState :=
  let cur := currentQuantity st product in
  let vid := cardVariantId st product in
  let maxStock := getMaxStock product vid in
  match ev with
  | ClickMinus =>
      if cur =? 0 then st
      else updateProductQuantity st (product_id product) (Z.max 0 (cur - 1)) vid
  | ClickPlus =>
      if (maxStock <=? cur) || (maxStock =? 0) then st
      else updateProductQuantity st (product_id product) (cur + 1) vid
  | ChooseVariant variantId =>
      if hasVariants product && (0 <? length (variants product))%nat
      then updateProductVariant st (product_id product) variantId
      else st
  end.

Definition loadProducts (st : FormState) : M FormState :=
  allProducts <- getAllProducts (mkInventoryFilters None None None) ;;
  ret (mkFormState allProducts (productQuantities st) (paymentMethod st)
                   (searchTerm st)).

(* ===================================================================== *)
(** ** Words of the specification                                         *)
(* ===================================================================== *)

(** "The sum of the variant quantities". *)
Definition variantTotal (vs : list ProductVariant) : Z :=
  foldr Z.add 0 (variant_quantity <$> vs).

(** "[hasVariants] is true and the variants sequence is non-empty". *)
Definition inVariantMode (p : Product) : Prop :=
  hasVariants p = true /\ variants p <> [].

(** The invariant of a product's [totalQuantity], for a product whose
    last-set standalone quantity is [standalone]. *)
Definition totalQuantityInvariant (p : Product) (standalone : Z) : Prop :=
  (inVariantMode p -> totalQuantity p = variantTotal (variants p))
  /\ (~ inVariantMode p -> totalQuantity p = standalone).

(** The host functions of two worlds are the same. *)
Definition sameHost (w w' : World) : Prop :=
  parseDate w' = parseDate w /\ toISOString w' = toISOString w
  /\ clock w' = clock w /\ random w' = random w.

(** Nothing was written between two worlds: only the clock and the random
    source were read. *)
Definition nothingWritten (w w' : World) : Prop :=
  transactions w' = transactions w /\ bills w' = bills w
  /\ debts w' = debts w /\ products w' = products w
  /\ trace w' = trace w /\ sameHost w w'.

(** The status that [updateDebt] stores: the merged status, re-derived from
    the payload's due date when that date is a non-empty string and the
    merged status is pending. *)
Definition updatedStatus (w : World) (d : DebtEntry) (u : DebtUpdates) : DebtStatus :=
  let merged := JS.definedOr (upd_status u) (status d) in
  if JS.truthyOpt (upd_dueDate u) && bool_decide (merged = pending)
  then if isBefore w (JS.definedOr (upd_dueDate u) "") (clock w (ticks w))
       then overdue else pending
  else merged.

(** The filters of [getAllDebts] let an entry through. *)
Definition passes (filters : DebtFilters) (e : DebtEntry) : Prop :=
  e ∈ applyFilters filters [e].

(** The variant that a line item targets: [selectedVariantId] when it is
    truthy. *)
Definition chosenVariant (data : LineData) : option string :=
  if JS.truthyOpt (selectedVariantId data) then selectedVariantId data else None.

(** "Price × quantity" of a line item, the price read from the catalog. *)
Definition lineAmount (ps : list Product) (e : string * LineData) : Z :=
  match findProduct (fst e) ps with
  | Some p => price p * quantity (snd e)
  | None => 0
  end.

(** "The sum of price × quantity over the line items". *)
Definition saleAmount (ps : list Product) (entries : list (string * LineData)) : Z :=
  foldr Z.add 0 (lineAmount ps <$> entries).

(** A line item on product [p]: a quantity above zero that does not exceed
    the stock of the chosen variant, or of the product when no variant is
    chosen, which is the case of a product that is not in variant mode. *)
Definition withinStock (p : Product) (data : LineData) : Prop :=
  0 < quantity data
  /\ match chosenVariant data with
     | Some variantId =>
         exists v, findVariant variantId p = Some v
                   /\ quantity data <= variant_quantity v
     | None => ~ inVariantMode p /\ quantity data <= totalQuantity p
     end.

Definition lineInStock (ps : list Product) (e : string * LineData) : Prop :=
  exists p, findProduct (fst e) ps = Some p /\ withinStock p (snd e).

(** The stock of product [p] went down to [p'] by the quantity of the line:
    on the chosen variant, or on the product's own quantity. *)
Definition decremented (p p' : Product) (data : LineData) : Prop :=
  match chosenVariant data with
  | Some variantId =>
      exists v v',
        findVariant variantId p = Some v
        /\ findVariant variantId p' = Some v'
        /\ variant_quantity v' = variant_quantity v - quantity data
  | None => totalQuantity p' = totalQuantity p - quantity data
  end.

Definition lineSold (before after : list Product) (e : string * LineData) : Prop :=
  exists p p',
    findProduct (fst e) before = Some p
    /\ findProduct (fst e) after = Some p'
    /\ decremented p p' (snd e).

(** The states of the form once it has loaded the products [ps]: the controls
    of the cards of these products, the search box and the payment selector
    are all that change the state before the sale is submitted. *)
Inductive formReachable (ps : list Product) : FormState -> Prop :=
  | reach_mounted :
      formReachable ps (mkFormState ps [] "Efectivo" "")
  | reach_card (st : FormState) (product : Product) (ev : CardEvent) :
      formReachable ps st ->
      product ∈ ps ->
      formReachable ps (onCardEvent st product ev)
  | reach_fields (st : FormState) (method term : string) :
      formReachable ps st ->
      formReachable ps
        (mkFormState (form_products st) (productQuantities st) method term).

(** The form holds the products [ps], and its line items are on distinct
    products and within stock. *)
Definition linesWithinStock (ps : list Product) (st : FormState) : Prop :=
  form_products st = ps
  /\ NoDup (fst <$> productQuantities st)
  /\ Forall (lineInStock ps) (productQuantities st).

(** Ids as [generateId] makes them: products have distinct ids, and no
    variant has the empty id. *)
Definition idsWellFormed (ps : list Product) : Prop :=
  NoDup (product_id <$> ps)
  /\ forall p v, p ∈ ps -> v ∈ variants p -> JS.truthy (variant_id v) = true.

(** The operations that [debtService] exports ([subscribeToDebts] apart,
    which only registers a listener). *)
Inductive DebtOp : Set :=
  | OpGetAllDebts (filters : DebtFilters)
  | OpGetDebtById (debtId : string)
  | OpCreateDebt (type : DebtType) (counterparty : string) (amount : Z)
                 (description dueDate : string) (category notes : option string)
  | OpUpdateDebt (debtId : string) (updates : DebtUpdates)
  | OpDeleteDebt (debtId : string)
  | OpMarkAsPaid (debtId : string)
  | OpGetDebtStats.

(** The world that an operation leaves, whether it returns or throws. *)
Definition afterDebtOp (op : DebtOp) (w : World) : World :=
  match op with
  | OpGetAllDebts filters => snd (getAllDebts filters w)
  | OpGetDebtById debtId => snd (getDebtById debtId w)
  | OpCreateDebt type counterparty amount description dueDate category notes =>
      snd (createDebt type counterparty amount description dueDate category
             notes w)
  | OpUpdateDebt debtId updates => snd (updateDebt debtId updates w)
  | OpDeleteDebt debtId => snd (deleteDebt debtId w)
  | OpMarkAsPaid debtId => snd (markAsPaid debtId w)
  | OpGetDebtStats => snd (getDebtStats w)
  end.

(** The payload of an update names no status other than paid. *)
Definition namesNoOtherStatus (op : DebtOp) : Prop :=
  match op with
  | OpUpdateDebt _ updates =>
      upd_status updates = None \/ upd_status updates = Some paid
  | _ => True
  end.

(** Every paid debt of [before] is still there in [after], at its place,
    and paid. *)
Definition paidStaysPaid (before after : list DebtEntry) : Prop :=
  forall i d,
    before !! i = Some d -> status d = paid ->
    exists d', after !! i = Some d' /\ status d' = paid
               /\ debt_id d' = debt_id d.

(** The date [a] parses, and so does [b], to an instant that is not after
    the one of [a]. *)
Definition atLeastAsRecent (w : World) (a b : string) : Prop :=
  exists ta tb,
    parseDate w a = Some ta /\ parseDate w b = Some tb /\ tb <= ta.

(** What the filters of [getAllDebts] ask of an entry, one by one. *)
Definition debtMatches (filters : DebtFilters) (e : DebtEntry) : Prop :=
  (forall t, filter_type filters = Some t -> debt_type e = t)
  /\ (forall s, filter_status filters = Some s -> status e = s)
  /\ (forall term,
        filter_searchTerm filters = Some term -> term <> "" ->
        matchesSearch (JS.toLowerCase term) e = true).

(** What the filters of [getAllProducts] ask of a product, one by one. *)
Definition productPasses (filters : InventoryFilters) (p : Product) : Prop :=
  (forall term,
      inv_searchTerm filters = Some term -> term <> "" ->
      productMatches (JS.toLowerCase term) p = true)
  /\ (forall c, inv_category filters = Some c -> c <> "" ->
                product_category p = Some c)
  /\ (lowStock filters = Some true -> totalQuantity p <= 10).

(** What the filters of [getTransactionsWithFilters] ask of a transaction,
    one by one; [endOfDay] is the host's end of the day of the end date. *)
Definition transactionPasses
    (endOfDay : string -> option string) (filters : TransactionFilters)
    (t : Transaction) : Prop :=
  (forall s, query_startDate filters = Some s -> s <> "" ->
             String.leb s (tx_timestamp t) = true)
  /\ (forall e limit,
        query_endDate filters = Some e -> e <> "" ->
        endOfDay e = Some limit ->
        String.leb (tx_timestamp t) limit = true)
  /\ (forall type, query_type filters = Some type -> tx_type t = type)
  /\ (forall term,
        query_searchTerm filters = Some term -> term <> "" ->
        transactionMatches (JS.toLowerCase term) t = true).

#[export] Instance StorageKey_eq_dec : EqDecision StorageKey.
Proof. solve_decision. Defined.

(** The operations that the three services export, the subscriptions
    apart. *)
Inductive ServiceOp : Type :=
  | CallAddTransaction (type : TransactionType) (description : string)
      (amount : Z) (category paymentMethod : option string)
      (items : option (list SaleItem))
  | CallGetTransactionsWithFilters (endOfDay : string -> option string)
      (filters : TransactionFilters)
  | CallGetAllBills
  | CallCreateBill (name : string) (amount : Z) (dueDate : string)
      (frequency : Frequency) (category notes : option string)
  | CallUpdateBill (billId : string) (updates : BillUpdates)
  | CallDeleteBill (billId : string)
  | CallToggleBillPaid (billId : string) (createTransaction : bool)
  | CallDebt (op : DebtOp)
  | CallGetAllProducts (filters : InventoryFilters)
  | CallCreateProduct (name : string) (price : Z)
      (description image category : option string) (hasVariants : option bool)
      (variants : option (list VariantInput)) (standaloneQuantity : option Z)
  | CallUpdateProduct (productId : string) (updates : ProductUpdates)
  | CallDeleteProduct (productId : string)
  | CallUpdateVariantQuantity (productId variantId : string) (newQuantity : Z)
  | CallGetProductById (productId : string)
  | CallGetCategories.

(** The world that a call leaves, whether it returns or throws. *)
Definition afterOp (op : ServiceOp) (w : World) : World :=
  match op with
  | CallAddTransaction type description amount category paymentMethod items =>
      snd (addTransaction type description amount category paymentMethod
             items w)
  | CallGetTransactionsWithFilters endOfDay filters =>
      snd (getTransactionsWithFilters endOfDay filters w)
  | CallGetAllBills => snd (getAllBills w)
  | CallCreateBill name amount dueDate frequency category notes =>
      snd (createBill name amount dueDate frequency category notes w)
  | CallUpdateBill billId updates => snd (updateBill billId updates w)
  | CallDeleteBill billId => snd (deleteBill billId w)
  | CallToggleBillPaid billId createTransaction =>
      snd (toggleBillPaid billId createTransaction w)
  | CallDebt op => afterDebtOp op w
  | CallGetAllProducts filters => snd (getAllProducts filters w)
  | CallCreateProduct name price description image category hasVariants
      variants standaloneQuantity =>
      snd (createProduct name price description image category hasVariants
             variants standaloneQuantity w)
  | CallUpdateProduct productId updates =>
      snd (updateProduct productId updates w)
  | CallDeleteProduct productId => snd (deleteProduct productId w)
  | CallUpdateVariantQuantity productId variantId newQuantity =>
      snd (updateVariantQuantity productId variantId newQuantity w)
  | CallGetProductById productId => snd (getProductById productId w)
  | CallGetCategories => snd (getCategories w)
  end.

(** The world after a sequence of calls, made one after the other. *)
Definition afterOps (ops : list ServiceOp) (w : World) : World :=
  foldl (fun w op => afterOp op w) w ops.

(** The collections that a call may write. *)
Definition mayWrite (op : ServiceOp) : list StorageKey :=
  match op with
  | CallAddTransaction _ _ _ _ _ _ => [TRANSACTIONS]
  | CallCreateBill _ _ _ _ _ _ | CallUpdateBill _ _ | CallDeleteBill _ => [BILLS]
  | CallToggleBillPaid _ _ => [BILLS; TRANSACTIONS]
  | CallDebt (OpCreateDebt _ _ _ _ _ _ _)
  | CallDebt (OpUpdateDebt _ _)
  | CallDebt (OpDeleteDebt _) => [DEBTS]
  | CallDebt (OpMarkAsPaid _) => [TRANSACTIONS; DEBTS]
  | CallCreateProduct _ _ _ _ _ _ _ _
  | CallUpdateProduct _ _
  | CallDeleteProduct _
  | CallUpdateVariantQuantity _ _ _ => [PRODUCTS]
  | _ => []
  end.

(** The trace of writing the keys [ks] in turn, each write followed by its
    storage event. *)
Fixpoint announced (ks : list StorageKey) : list Effect :=
  match ks with
  | [] => []
  | k :: ks' => SetItem k :: Dispatch k :: announced ks'
  end.

(** From [w] to [w'] the keys [ks] were written, each write announced, and
    nothing else: the ledger only grew, the other collections and the host
    are as they were. *)
Definition wrote (ks : list StorageKey) (w w' : World) : Prop :=
  trace w' = trace w ++ announced ks
  /\ transactions w `prefix_of` transactions w'
  /\ (TRANSACTIONS ∉ ks -> transactions w' = transactions w)
  /\ (BILLS ∉ ks -> bills w' = bills w)
  /\ (DEBTS ∉ ks -> debts w' = debts w)
  /\ (PRODUCTS ∉ ks -> products w' = products w)
  /\ sameHost w w'.

(** What is owed in one direction: the amounts of the entries of type [t]
    that are not paid, added up. *)
Definition amountOwed (t : DebtType) (ds : list DebtEntry) : Z :=
  foldr Z.add 0
    (debt_amount <$> filter (fun d => debt_type d = t /\ status d <> paid) ds).

(** [{ ...bill, isPaid: !bill.isPaid }], the bill that [toggleBillPaid]
    stores. *)
Definition flipped (b : Bill) : Bill :=
  mkBill (bill_id b) (bill_name b) (bill_amount b) (bill_dueDate b)
         (bill_frequency b) (bill_category b) (bill_notes b)
         (negb (isPaid b)) (bill_createdAt b).

(** What the items of a sale add up to: price × quantity, item by item. *)
Definition itemsAmount (items : list SaleItem) : Z :=
  foldr Z.add 0 ((fun i => item_price i * item_quantity i) <$> items).

(** The two errors of the catalog. *)
Definition catalogError (e : Error) : Prop :=
  e = ProductNotFound \/ e = VariantNotFound.

(** [{ type: t }], the filters that ask for one type of transaction. *)
Definition byType (t : TransactionType) : TransactionFilters :=
  mkTransactionFilters None None (Some t) None.

(** What one entry adds to [amountOwed t]. *)
Definition owedBy (t : DebtType) (d : DebtEntry) : Z :=
  if decide (debt_type d = t /\ status d <> paid) then debt_amount d else 0.

(** A line item in a quantity above zero that the stock shown by the form's
    copy [held] of its product covers: the stock of the chosen variant, or
    of the product when no variant is chosen. *)
Definition withinShown (held : Product) (data : LineData) : Prop :=
  0 < quantity data
  /\ match chosenVariant data with
     | Some variantId =>
         exists v, findVariant variantId held = Some v
                   /\ quantity data <= variant_quantity v
     | None => quantity data <= totalQuantity held
     end.

(** The store holds, in [stored], the stock that the form's copy [held]
    shows for what a line item targets: the quantity of the chosen variant,
    or the total of a product that is not in variant mode. *)
Definition stockAsShown (held stored : Product) (data : LineData) : Prop :=
  match chosenVariant data with
  | Some variantId =>
      exists v v',
        findVariant variantId held = Some v
        /\ findVariant variantId stored = Some v'
        /\ variant_quantity v' = variant_quantity v
  | None => ~ inVariantMode stored /\ totalQuantity stored = totalQuantity held
  end.

(** A line item within the stock that the form's copy of its product shows,
    the store holding that stock still. *)
Definition lineAsShown (form store : list Product) (e : string * LineData)
    : Prop :=
  exists held stored,
    findProduct (fst e) form = Some held
    /\ findProduct (fst e) store = Some stored
    /\ withinShown held (snd e)
    /\ stockAsShown held stored (snd e).

(* ===================================================================== *)
(** ** A concrete host and stores, for the examples                       *)
(* ===================================================================== *)

Module Demo.

Definition parse (s : string) : option Z :=
  if decide (s = "2024-01-01") then Some 1704067200000
  else if decide (s = "2030-01-01") then Some 1893456000000
  else None.

Definition iso (t : Z) : string := "T" +:+ pretty t.

Definition clockAt (n : nat) : Z := 1750000000000 + Z.of_nat n.

Definition randomAt (n : nat) : string := "r" +:+ pretty n.

Definition world
    (ts : list Transaction) (bs : list Bill) (ds : list DebtEntry)
    (ps : list Product) : World :=
  mkWorld parse iso clockAt randomAt 0 0 ts bs ds ps [].

Definition empty : World := world [] [] [] [].

Definition shirtS : ProductVariant := mkProductVariant "v-s" "S" 5 None.
Definition shirtM : ProductVariant := mkProductVariant "v-m" "M" 3 None.

(** A product in variant mode. *)
Definition shirt : Product :=
  mkProduct "p-shirt" "Shirt" (Some "Cotton") None 20 8 true [shirtS; shirtM]
            (Some "Clothes") "T1" "T1" None.

(** A product without variants. *)
Definition mug : Product :=
  mkProduct "p-mug" "Mug" None None 7 12 false [] None "T2" "T2" None.

(** A product that keeps a variant list while [hasVariants] is off, as
    [createProduct] stores it when called with both. *)
Definition cap : Product :=
  mkProduct "p-cap" "Cap" None None 9 7 false [shirtS] None "T3" "T3" None.

Definition shop : World := world [] [] [] [shirt; mug; cap].

(** [createProduct] called with [hasVariants] off, one variant and a
    standalone quantity of 7, then a sale of that variant. *)
Definition capCreation : Outcome Product * World :=
  createProduct "Cap" 9 None None None (Some false)
    (Some [mkVariantInput "S" 5 None]) (Some 7) empty.

Definition capCreated : Product :=
  mkProduct "1750000000001_r1" "Cap" None None 9 7 false
            [mkProductVariant "1750000000000_r0" "S" 5 None] None
            "T1750000000002" "T1750000000003" None.

Definition capUpdate : Outcome Product * World :=
  updateVariantQuantity "1750000000001_r1" "1750000000000_r0" 2
    (snd capCreation).

Definition capUpdated : Product :=
  mkProduct "1750000000001_r1" "Cap" None None 9 2 false
            [mkProductVariant "1750000000000_r0" "S" 2 None] None
            "T1750000000002" "T1750000000004" None.

Definition debtPaid : DebtEntry :=
  mkDebtEntry "d-paid" payable "Acme" 100 "Invoice 7" "2024-01-01" paid
              "T0" None None (Some "T9") (Some "tx-1").

(** Stored as pending, with a due date that has passed. *)
Definition debtPending : DebtEntry :=
  mkDebtEntry "d-pending" receivable "Bob" 50 "Loan" "2024-01-01" pending
              "T0" (Some "Loans") None None None.

Definition debtOverdue : DebtEntry :=
  mkDebtEntry "d-overdue" payable "Acme" 100 "Rent" "2024-01-01" overdue
              "T0" None (Some "urgent") None None.

Definition debtFuture : DebtEntry :=
  mkDebtEntry "d-future" receivable "Carol" 30 "Deposit" "2030-01-01" pending
              "T0" None None None None.

Definition ledger : World :=
  world [] [] [debtPaid; debtPending; debtOverdue; debtFuture] [].

(** A ledger whose write fails, as [setItem] does on a full store. *)
Definition fullLedger : LedgerAdd :=
  fun _ _ _ _ _ _ => throw (HostError "QuotaExceededError").

(** A payload that carries only a status. *)
Definition onlyStatus (s : DebtStatus) : DebtUpdates :=
  mkDebtUpdates None None None None None (Some s) None None.

(** A payload that carries only a due date. *)
Definition onlyDueDate (due : string) : DebtUpdates :=
  mkDebtUpdates None None None None (Some due) None None None.

(** A payload that carries a due date and a status. *)
Definition dueDateAndStatus (due : string) (s : DebtStatus) : DebtUpdates :=
  mkDebtUpdates None None None None (Some due) (Some s) None None.

Definition billRent : Bill :=
  mkBill "b-rent" "Rent" 500 "2024-01-01" monthly (Some "Housing")
         (Some "landlord") false "T0".

Definition billPower : Bill :=
  mkBill "b-power" "Power" 80 "2024-01-01" monthly None None true "T0".

Definition office : World := world [] [billRent; billPower] [] [].

(** A bill payload that carries only an amount. *)
Definition onlyAmount (a : Z) : BillUpdates :=
  mkBillUpdates None (Some a) None None None None None.

(** Two shirts of size S and three mugs, on the catalog of [shop]. *)
Definition basket : FormState :=
  mkFormState [shirt; mug; cap]
    [("p-shirt", mkLineData 2 (Some "v-s")); ("p-mug", mkLineData 3 None)]
    "Efectivo" "".

(** Two debts whose creation dates parse. *)
Definition debtOld : DebtEntry :=
  mkDebtEntry "d-old" receivable "Dana" 40 "Repair" "2024-01-01" pending
              "2024-01-01" None None None None.

Definition debtNew : DebtEntry :=
  mkDebtEntry "d-new" payable "Eli" 60 "Paint" "2030-01-01" pending
              "2030-01-01" None None None None.

Definition book : World := world [] [] [debtOld; debtNew] [].

(** A catalog whose update dates parse: nine pens in stock, thirty books. *)
Definition pen : Product :=
  mkProduct "p-pen" "Pen" None None 2 9 false [] (Some "Office") "2024-01-01"
            "2024-01-01" None.

Definition notebook : Product :=
  mkProduct "p-book" "Notebook" None None 5 30 false [] (Some "Office")
            "2024-01-01" "2030-01-01" None.

Definition stationery : World := world [] [] [] [pen; notebook].

Definition onlyLowStock : InventoryFilters :=
  mkInventoryFilters None None (Some true).

(** A ledger whose timestamps parse, and a host for which only "2024-06-30"
    is a day. *)
Definition sale2024 : Transaction :=
  mkTransaction "t-2024" inflow "Venta: Pen" 2 "2024-01-01"
                None (Some "Efectivo") None.

Definition rent2030 : Transaction :=
  mkTransaction "t-2030" outflow "Pago: Rent" 500 "2030-01-01"
                (Some "Housing") None None.

Definition journal : World := world [sale2024; rent2030] [] [] [].

Definition endOfDay (s : string) : option string :=
  if decide (s = "2024-06-30") then Some "2024-06-30T23:59:59.999Z" else None.

Definition untilJune : TransactionFilters :=
  mkTransactionFilters None (Some "2024-06-30") None None.

Definition untilNonsense : TransactionFilters :=
  mkTransactionFilters None (Some "soon") None None.

(** The catalog of [shop] after the mug was deleted, which the form that
    holds [basket] has not seen. *)
Definition shopWithoutMug : World := world [] [] [] [shirt; cap].

(** A form with nothing chosen. *)
Definition emptyBasket : FormState :=
  mkFormState [shirt; mug; cap] [] "Efectivo" "".

(** The form on the catalog of [shop], after one click on the plus button of
    the shirt's card. *)
Definition oneShirt : FormState :=
  onCardEvent (mkFormState [shirt; mug; cap] [] "Efectivo" "") shirt ClickPlus.

(** Three mugs, on the catalog of [shop]. *)
Definition threeMugs : FormState :=
  mkFormState [shirt; mug; cap] [("p-mug", mkLineData 3 None)] "Efectivo" "".

(** The store after the three mugs were sold once. *)
Definition shopAfterSale : World := snd (handleSubmit threeMugs shop).

(** The form after that sale, which keeps the products it loaded, and the
    three mugs chosen on it again. *)
Definition formAfterSale : FormState :=
  match fst (handleSubmit threeMugs shop) with
  | Ok st => st
  | Throw _ => threeMugs
  end.

Definition threeMugsAgain : FormState :=
  onCardEvent
    (onCardEvent (onCardEvent formAfterSale mug ClickPlus) mug ClickPlus)
    mug ClickPlus.

End Demo.

(** Runs the monad: unfolds the primitives of the host and the store, and
    the projections of a world. *)
Ltac run :=
  lazy beta iota zeta delta
    [generateId nowISO saveDebts saveBills saveProducts saveTransactions
     getDebts getBills getProducts getTransactions
     newDate mathRandom emit modify bind ret throw
     parseDate toISOString clock random ticks draws
     transactions bills debts products trace
     isBefore newestFirst fst snd].

(* ===================================================================== *)
(** ** Array lemmas                                                       *)
(* ===================================================================== *)

Section Arrays.

Context {A : Type} (P : A -> Prop) `{Pdec : !forall x, Decision (P x)}.

Lemma find_lookup (l : list A) (i : nat) (x : A) :
  list_find P l = Some (i, x) -> l !! i = Some x /\ P x.
Proof. intros Hf. apply list_find_Some in Hf. tauto. Qed.

Lemma find_lt (l : list A) (i : nat) (x : A) :
  list_find P l = Some (i, x) -> (i < length l)%nat.
Proof. intros Hf. apply find_lookup in Hf as [Hf _]. eauto using lookup_lt_Some. Qed.

(** Overwriting the found element by one that matches too keeps the index. *)
Lemma find_insert_same (l : list A) (i : nat) (x y : A) :
  list_find P l = Some (i, x) -> P y ->
  list_find P (<[i:=y]> l) = Some (i, y).
Proof.
  intros Hf Hy. apply list_find_Some in Hf as (Hi & Hx & Hlt).
  apply list_find_Some. split; [|split].
  - apply list_lookup_insert_eq. eauto using lookup_lt_Some.
  - exact Hy.
  - intros j z Hj Hji. rewrite list_lookup_insert_ne in Hj by lia. eauto.
Qed.

(** A search that rejects both the old and the new element does not see
    the overwrite. *)
Lemma find_insert_other (l : list A) (i : nat) (x y : A) :
  l !! i = Some x -> ~ P x -> ~ P y ->
  list_find P (<[i:=y]> l) = list_find P l.
Proof.
  revert i. induction l as [|a l IH]; intros i Hi Hx Hy; [done|].
  destruct i as [|i]; simpl in *.
  - injection Hi as ->. rewrite !decide_False by done. done.
  - destruct (decide (P a)); [done|]. by rewrite (IH i).
Qed.

End Arrays.

Lemma sumVariants_from (vs : list ProductVariant) (acc : Z) :
  fold_left (fun sum v => sum + variant_quantity v) vs acc
  = acc + variantTotal vs.
Proof.
  revert acc. induction vs as [|v vs IH]; intros acc.
  - unfold variantTotal. cbn [fold_left fmap list_fmap foldr]. lia.
  - cbn [fold_left]. rewrite IH. unfold variantTotal.
    rewrite fmap_cons. cbn [foldr]. lia.
Qed.

Lemma sumVariants_variantTotal (vs : list ProductVariant) :
  sumVariants vs = variantTotal vs.
Proof. unfold sumVariants. rewrite sumVariants_from. lia. Qed.

Lemma calculateTotalQuantity_variants (hv : bool) (vs : list ProductVariant) (sq : Z) :
  hv = true -> vs <> [] -> calculateTotalQuantity hv vs sq = variantTotal vs.
Proof.
  intros -> Hvs. unfold calculateTotalQuantity.
  destruct vs as [|v vs]; [done|]. simpl. apply sumVariants_variantTotal.
Qed.

Lemma calculateTotalQuantity_standalone (hv : bool) (vs : list ProductVariant) (sq : Z) :
  ~ (hv = true /\ vs <> []) -> calculateTotalQuantity hv vs sq = sq.
Proof.
  intros H. unfold calculateTotalQuantity.
  destruct hv; [|done]. destruct vs as [|v vs]; [done|].
  exfalso. apply H. split; done.
Qed.

(* ===================================================================== *)
(** ** The product catalog                                                *)
(* ===================================================================== *)

Lemma findProduct_Some (pid : string) (ps : list Product) (p : Product) :
  findProduct pid ps = Some p ->
  exists i, list_find (fun p => product_id p = pid) ps = Some (i, p).
Proof.
  unfold findProduct. destruct (list_find _ ps) as [[i p']|] eqn:E; [|done].
  simpl. intros [= ->]. eauto.
Qed.

Lemma findVariant_Some (vid : string) (p : Product) (v : ProductVariant) :
  findVariant vid p = Some v ->
  exists j, list_find (fun v => variant_id v = vid) (variants p) = Some (j, v).
Proof.
  unfold findVariant. destruct (list_find _ (variants p)) as [[j v']|] eqn:E; [|done].
  simpl. intros [= ->]. eauto.
Qed.

Lemma findProduct_id (pid : string) (ps : list Product) (p : Product) :
  findProduct pid ps = Some p -> product_id p = pid.
Proof.
  intros H. apply findProduct_Some in H as [i H].
  by apply find_lookup in H as [_ H].
Qed.

Lemma findVariant_id (vid : string) (p : Product) (v : ProductVariant) :
  findVariant vid p = Some v -> variant_id v = vid.
Proof.
  intros H. apply findVariant_Some in H as [j H].
  by apply find_lookup in H as [_ H].
Qed.

(** What [updateVariantQuantity] returns and stores when the product and the
    variant exist. *)
Lemma updateVariantQuantity_run
    (w : World) (pid vid : string) (q : Z)
    (i : nat) (p : Product) (j : nat) (v : ProductVariant) :
  list_find (fun p => product_id p = pid) (products w) = Some (i, p) ->
  list_find (fun v => variant_id v = vid) (variants p) = Some (j, v) ->
  exists p' w',
    updateVariantQuantity pid vid q w = (Ok p', w')
    /\ variants p' = <[j := setQuantity v (Z.max 0 q)]> (variants p)
    /\ totalQuantity p' = sumVariants (variants p')
    /\ hasVariants p' = hasVariants p
    /\ product_id p' = product_id p
    /\ price p' = price p
    /\ products w' = <[i := p']> (products w)
    /\ transactions w' = transactions w
    /\ bills w' = bills w
    /\ debts w' = debts w
    /\ parseDate w' = parseDate w.
Proof.
  intros Hp Hv. unfold updateVariantQuantity, bind, getProducts.
  rewrite Hp, Hv. cbn.
  eexists _, _. split; [reflexivity|]. cbn. repeat split; reflexivity.
Qed.

Lemma nothingWritten_refl (w : World) : nothingWritten w w.
Proof. repeat split. Qed.

Lemma nothingWritten_trans (w1 w2 w3 : World) :
  nothingWritten w1 w2 -> nothingWritten w2 w3 -> nothingWritten w1 w3.
Proof.
  unfold nothingWritten, sameHost.
  intros (?&?&?&?&?&?&?&?&?) (?&?&?&?&?&?&?&?&?).
  repeat split; congruence.
Qed.

Lemma generateId_run (w : World) :
  exists id w', generateId w = (Ok id, w') /\ nothingWritten w w'.
Proof. eexists _, _. split; [reflexivity|]. repeat split. Qed.

Lemma nowISO_run (w : World) :
  exists s w', nowISO w = (Ok s, w') /\ nothingWritten w w'.
Proof. eexists _, _. split; [reflexivity|]. repeat split. Qed.

(** Giving each variant of [createProduct] its id keeps the quantities. *)
Lemma createProduct_variants (vs : list VariantInput) (w : World) :
  exists pvs w',
    mapM (fun v =>
            newId <- generateId ;;
            ret {| variant_id := newId;
                   variant_name := input_name v;
                   variant_quantity := input_quantity v;
                   sku := input_sku v |}) vs w = (Ok pvs, w')
    /\ variant_quantity <$> pvs = input_quantity <$> vs
    /\ nothingWritten w w'.
Proof.
  revert w. induction vs as [|v vs IH]; intros w.
  - exists [], w. split; [reflexivity|]. split; [done|apply nothingWritten_refl].
  - cbn [mapM]. unfold bind at 1. unfold bind at 1.
    destruct (generateId_run w) as (newId & w1 & -> & Hw1).
    cbn [ret]. unfold bind at 1.
    destruct (IH w1) as (pvs & w2 & -> & Hq & Hw2).
    eexists _, w2. split; [reflexivity|]. split.
    + rewrite !fmap_cons. cbn. by rewrite Hq.
    + eauto using nothingWritten_trans.
Qed.

Lemma createProduct_run
    (w : World) (name : string) (price : Z)
    (description image category : option string)
    (hv : option bool) (vs : option (list VariantInput)) (sq : option Z) :
  exists p w',
    createProduct name price description image category hv vs sq w = (Ok p, w')
    /\ products w' = products w ++ [p]
    /\ hasVariants p = JS.definedOr hv false
    /\ variant_quantity <$> variants p = input_quantity <$> JS.definedOr vs []
    /\ totalQuantity p
       = calculateTotalQuantity (hasVariants p) (variants p) (JS.definedOr sq 0).
Proof.
  unfold createProduct, getProducts. unfold bind at 1. unfold bind at 1.
  destruct (createProduct_variants (JS.definedOr vs []) w)
    as (pvs & w1 & -> & Hq & Hw1).
  destruct Hw1 as (_ & _ & _ & Hps & _).
  run. eexists _, _. split; [reflexivity|].
  run. repeat split; done.
Qed.

Lemma updateProduct_run
    (w : World) (pid : string) (u : ProductUpdates) (i : nat) (p : Product) :
  list_find (fun p => product_id p = pid) (products w) = Some (i, p) ->
  exists p' w',
    updateProduct pid u w = (Ok p', w')
    /\ products w' = <[i := p']> (products w)
    /\ hasVariants p' = JS.definedOr (upd_hasVariants u) (hasVariants p)
    /\ variants p' = JS.definedOr (upd_variants u) (variants p)
    /\ totalQuantity p'
       = calculateTotalQuantity (hasVariants p') (variants p')
           (JS.definedOr (upd_standaloneQuantity u) (totalQuantity p))
    /\ product_description p' = JS.trim <$> upd_product_description u
    /\ product_category p' = JS.trim <$> upd_product_category u
    /\ product_id p' = product_id p
    /\ price p' = JS.definedOr (upd_price u) (price p)
    /\ transactions w' = transactions w
    /\ bills w' = bills w
    /\ debts w' = debts w
    /\ parseDate w' = parseDate w.
Proof.
  intros Hp. unfold updateProduct, bind, getProducts. rewrite Hp. cbn.
  eexists _, _. split; [reflexivity|]. cbn. repeat split; reflexivity.
Qed.

Lemma findProduct_insert_same
    (ps : list Product) (pid : string) (i : nat) (p p' : Product) :
  list_find (fun p => product_id p = pid) ps = Some (i, p) ->
  product_id p' = product_id p ->
  findProduct pid (<[i := p']> ps) = Some p'.
Proof.
  intros Hp Hid. unfold findProduct.
  rewrite (find_insert_same _ ps i p p'); [done|done|].
  apply find_lookup in Hp as [_ Hp]. simpl in *. congruence.
Qed.

Lemma findProduct_insert_other
    (ps : list Product) (pid pid' : string) (i : nat) (p p' : Product) :
  list_find (fun p => product_id p = pid) ps = Some (i, p) ->
  product_id p' = product_id p ->
  pid' <> pid ->
  findProduct pid' (<[i := p']> ps) = findProduct pid' ps.
Proof.
  intros Hp Hid Hne. unfold findProduct.
  apply find_lookup in Hp as [Hi Hp]. simpl in Hp.
  rewrite (find_insert_other _ ps i p p'); [done|done|..]; simpl; congruence.
Qed.

Lemma findVariant_setQuantity
    (p p' : Product) (vid : string) (j : nat) (v : ProductVariant) (q : Z) :
  list_find (fun v => variant_id v = vid) (variants p) = Some (j, v) ->
  variants p' = <[j := setQuantity v q]> (variants p) ->
  findVariant vid p' = Some (setQuantity v q).
Proof.
  intros Hv Hvs. unfold findVariant. rewrite Hvs.
  rewrite (find_insert_same _ (variants p) j v (setQuantity v q)); [done|done|].
  apply find_lookup in Hv as [_ Hv]. exact Hv.
Qed.

(** C9.  Whatever quantity [updateVariantQuantity] is given, negative ones
    included, and for every product and variant it finds, the operation
    succeeds and the variant it stores carries [max(0, newQuantity)], which
    is never negative. *)
Theorem updateVariantQuantity_clamps_to_zero
    (w : World) (pid vid : string) (q : Z) (p : Product) (v : ProductVariant) :
  findProduct pid (products w) = Some p ->
  findVariant vid p = Some v ->
  exists p' w' v',
    updateVariantQuantity pid vid q w = (Ok p', w')
    /\ findProduct pid (products w') = Some p'
    /\ findVariant vid p' = Some v'
    /\ variant_quantity v' = Z.max 0 q
    /\ 0 <= variant_quantity v'.
Proof.
  intros Hp Hv.
  apply findProduct_Some in Hp as [i Hp].
  apply findVariant_Some in Hv as [j Hv].
  destruct (updateVariantQuantity_run w pid vid q i p j v Hp Hv)
    as (p' & w' & Hrun & Hvs & _ & _ & Hid & _ & Hps & _).
  exists p', w', (setQuantity v (Z.max 0 q)).
  split; [exact Hrun|]. split; [|split; [|split]].
  - rewrite Hps. eapply findProduct_insert_same; eauto.
  - eapply findVariant_setQuantity; eauto.
  - reflexivity.
  - simpl. lia.
Qed.

Lemma updateVariantQuantity_clamps_to_zero_witness :
  findProduct "p-shirt" (products Demo.shop) = Some Demo.shirt
  /\ findVariant "v-s" Demo.shirt = Some Demo.shirtS
  /\ exists p' w' v',
       updateVariantQuantity "p-shirt" "v-s" (-4) Demo.shop = (Ok p', w')
       /\ findProduct "p-shirt" (products w') = Some p'
       /\ findVariant "v-s" p' = Some v'
       /\ variant_quantity v' = Z.max 0 (-4)
       /\ 0 <= variant_quantity v'.
Proof.
  split; [reflexivity|]. split; [reflexivity|].
  apply (updateVariantQuantity_clamps_to_zero
           Demo.shop "p-shirt" "v-s" (-4) Demo.shirt Demo.shirtS);
    reflexivity.
Defined.

(** C3, as the code has it.  [createProduct] and [updateProduct] store a
    product whose [totalQuantity] is the sum of the variant quantities when
    [hasVariants] is true and the variants are not empty, and otherwise the
    standalone quantity of the call: the argument of [createProduct] (zero by
    default), the payload's [standaloneQuantity] for [updateProduct], or the
    product's current [totalQuantity] when the payload has none.
    [updateVariantQuantity] stores the sum of the variant quantities, whether
    [hasVariants] is true or not. *)
Theorem totalQuantity_after_catalog_writes :
  (forall w name price description image category hv vs sq,
      exists p w',
        createProduct name price description image category hv vs sq w
          = (Ok p, w')
        /\ products w' = products w ++ [p]
        /\ totalQuantityInvariant p (JS.definedOr sq 0))
  /\ (forall w pid u p,
        findProduct pid (products w) = Some p ->
        exists p' w',
          updateProduct pid u w = (Ok p', w')
          /\ findProduct pid (products w') = Some p'
          /\ totalQuantityInvariant p'
               (JS.definedOr (upd_standaloneQuantity u) (totalQuantity p)))
  /\ (forall w pid vid q p v,
        findProduct pid (products w) = Some p ->
        findVariant vid p = Some v ->
        exists p' w',
          updateVariantQuantity pid vid q w = (Ok p', w')
          /\ findProduct pid (products w') = Some p'
          /\ totalQuantity p' = variantTotal (variants p')).
Proof.
  split; [|split].
  - intros w name price description image category hv vs sq.
    destruct (createProduct_run w name price description image category hv vs sq)
      as (p & w' & Hrun & Hps & _ & _ & Htot).
    exists p, w'. split; [exact Hrun|]. split; [exact Hps|].
    split; intros Hmode; rewrite Htot.
    + destruct Hmode. by apply calculateTotalQuantity_variants.
    + by apply calculateTotalQuantity_standalone.
  - intros w pid u p Hp. apply findProduct_Some in Hp as [i Hp].
    destruct (updateProduct_run w pid u i p Hp)
      as (p' & w' & Hrun & Hps & _ & _ & Htot & _ & _ & Hid & _).
    exists p', w'. split; [exact Hrun|]. split.
    + rewrite Hps. eapply findProduct_insert_same; eauto.
    + split; intros Hmode; rewrite Htot.
      * destruct Hmode. by apply calculateTotalQuantity_variants.
      * by apply calculateTotalQuantity_standalone.
  - intros w pid vid q p v Hp Hv.
    apply findProduct_Some in Hp as [i Hp].
    apply findVariant_Some in Hv as [j Hv].
    destruct (updateVariantQuantity_run w pid vid q i p j v Hp Hv)
      as (p' & w' & Hrun & _ & Htot & _ & Hid & _ & Hps & _).
    exists p', w'. split; [exact Hrun|]. split.
    + rewrite Hps. eapply findProduct_insert_same; eauto.
    + rewrite Htot. apply sumVariants_variantTotal.
Qed.

Lemma totalQuantity_after_catalog_writes_witness :
  (exists p w',
      createProduct "Shirt" 20 None None None (Some true)
        (Some [mkVariantInput "S" 5 None; mkVariantInput "M" 3 None]) None
        Demo.empty = (Ok p, w')
      /\ products w' = products Demo.empty ++ [p]
      /\ totalQuantityInvariant p 0)
  /\ (exists p' w',
        updateProduct "p-mug" (onlyStandaloneQuantity 10) Demo.shop = (Ok p', w')
        /\ findProduct "p-mug" (products w') = Some p'
        /\ totalQuantityInvariant p' 10)
  /\ (exists p' w',
        updateVariantQuantity "p-cap" "v-s" 2 Demo.shop = (Ok p', w')
        /\ findProduct "p-cap" (products w') = Some p'
        /\ totalQuantity p' = variantTotal (variants p')).
Proof.
  destruct totalQuantity_after_catalog_writes as (Hcreate & Hupdate & Hvariant).
  split; [|split].
  - apply Hcreate.
  - apply (Hupdate Demo.shop "p-mug" (onlyStandaloneQuantity 10) Demo.mug).
    reflexivity.
  - apply (Hvariant Demo.shop "p-cap" "v-s" 2 Demo.cap Demo.shirtS); reflexivity.
Defined.

(** C3 as stated fails for [updateVariantQuantity]: a product created with
    [hasVariants] off, one variant and a standalone quantity of 7 satisfies
    the invariant; after [updateVariantQuantity] sets its variant to 2 the
    stored [totalQuantity] is 2, with [hasVariants] still off, and no longer
    the standalone quantity. *)
Lemma totalQuantity_after_updateVariantQuantity_counterexample :
  fst Demo.capCreation = Ok Demo.capCreated
  /\ totalQuantityInvariant Demo.capCreated 7
  /\ fst Demo.capUpdate = Ok Demo.capUpdated
  /\ findProduct "1750000000001_r1" (products (snd Demo.capUpdate))
     = Some Demo.capUpdated
  /\ hasVariants Demo.capUpdated = false
  /\ totalQuantity Demo.capUpdated = 2
  /\ ~ totalQuantityInvariant Demo.capUpdated 7.
Proof.
  split; [vm_compute; reflexivity|].
  split.
  - split; [intros [Hm _]; discriminate Hm|reflexivity].
  - split; [vm_compute; reflexivity|].
    split; [vm_compute; reflexivity|].
    split; [reflexivity|]. split; [reflexivity|].
    intros [_ Hs]. cut (2 = 7); [lia|]. apply Hs. intros [Hm _]. discriminate Hm.
Qed.

(* ===================================================================== *)
(** ** The ledger                                                         *)
(* ===================================================================== *)

Lemma addTransaction_run
    (w : World) (type : TransactionType) (description : string) (amount : Z)
    (category paymentMethod : option string) (items : option (list SaleItem)) :
  exists tx w',
    addTransaction type description amount category paymentMethod items w
      = (Ok tx, w')
    /\ transactions w' = transactions w ++ [tx]
    /\ tx_type tx = type
    /\ tx_description tx = description
    /\ tx_amount tx = amount
    /\ tx_category tx = category
    /\ tx_paymentMethod tx = paymentMethod
    /\ tx_items tx = items
    /\ trace w' = trace w ++ [SetItem TRANSACTIONS; Dispatch TRANSACTIONS]
    /\ bills w' = bills w
    /\ debts w' = debts w
    /\ products w' = products w
    /\ sameHost w w'.
Proof.
  unfold addTransaction, getTransactions, generateId, nowISO, saveTransactions,
    emit, modify, newDate, mathRandom, bind, ret. cbn.
  eexists _, _. split; [reflexivity|]. cbn.
  repeat split; try reflexivity. by rewrite <- app_assoc.
Qed.

(* ===================================================================== *)
(** ** Debts: settlement                                                  *)
(* ===================================================================== *)

Lemma markAsPaidVia_found
    (ledgerAdd : LedgerAdd) (w : World) (id : string) (i : nat) (d : DebtEntry) :
  list_find (fun d => debt_id d = id) (debts w) = Some (i, d) ->
  status d <> paid ->
  markAsPaidVia ledgerAdd id w
  = (transaction <-
       ledgerAdd (transactionType d) (transactionDescription d)
                 (debt_amount d) (debt_category d) None None ;;
     stamp <- nowISO ;;
     saveDebts (<[i := settle d stamp (tx_id transaction)]> (debts w)) ;;;
     ret (settle d stamp (tx_id transaction), transaction)) w.
Proof.
  intros Hd Hs. unfold markAsPaidVia, getDebts. unfold bind at 1.
  rewrite Hd. by rewrite bool_decide_eq_false_2.
Qed.

(** C1.  For a debt found under [id] whose status is pending or overdue,
    [markAsPaid] succeeds; it appends exactly one transaction to the ledger
    (inflow for a receivable, outflow for a payable, of the debt's amount,
    described "Cobro: ..." or "Pago: ..." with the counterparty and the
    description), and after that write it stores the debt as paid, with
    [paidAt] set and [linkedTransactionId] the id of that transaction.  When
    the ledger write fails instead, the operation fails with it and the debts
    are not written. *)
Theorem markAsPaid_settles
    (w : World) (id : string) (i : nat) (d : DebtEntry) :
  list_find (fun d => debt_id d = id) (debts w) = Some (i, d) ->
  status d = pending \/ status d = overdue ->
  (exists tx d' w' stamp,
      markAsPaid id w = (Ok (d', tx), w')
      /\ transactions w' = transactions w ++ [tx]
      /\ tx_type tx
         = match debt_type d with receivable => inflow | payable => outflow end
      /\ tx_amount tx = debt_amount d
      /\ tx_description tx
         = match debt_type d with
           | receivable => "Cobro: "
           | payable => "Pago: "
           end +:+ counterparty d +:+ " - " +:+ debt_description d
      /\ debts w' = <[i := d']> (debts w)
      /\ d' = settle d stamp (tx_id tx)
      /\ status d' = paid
      /\ paidAt d' = Some stamp
      /\ linkedTransactionId d' = Some (tx_id tx)
      /\ trace w'
         = trace w ++ [SetItem TRANSACTIONS; Dispatch TRANSACTIONS;
                       SetItem DEBTS; Dispatch DEBTS])
  /\ (forall ledgerAdd e w1,
        ledgerAdd (transactionType d) (transactionDescription d)
                  (debt_amount d) (debt_category d) None None w
          = (Throw e, w1) ->
        markAsPaidVia ledgerAdd id w = (Throw e, w1)).
Proof.
  intros Hd Hs.
  assert (Hnp : status d <> paid) by (destruct Hs as [Hs|Hs]; rewrite Hs; done).
  split.
  - unfold markAsPaid. rewrite (markAsPaidVia_found _ w id i d Hd Hnp).
    unfold bind at 1.
    destruct (addTransaction_run w (transactionType d) (transactionDescription d)
                (debt_amount d) (debt_category d) None None)
      as (tx & w1 & -> & Htxs & Hty & Hdesc & Hamt & _ & _ & _ & Htr & _ & Hds & _).
    eexists tx, _, _, _. split; [reflexivity|]. cbn.
    rewrite Htxs, Hty, Hdesc, Hamt, Htr.
    repeat split; try reflexivity.
    + unfold transactionDescription. by destruct (debt_type d).
    + by rewrite <- !app_assoc.
  - intros ledgerAdd e w1 Hfail.
    rewrite (markAsPaidVia_found _ w id i d Hd Hnp).
    unfold bind at 1. by rewrite Hfail.
Qed.

Lemma markAsPaid_settles_witness :
  list_find (fun d => debt_id d = "d-overdue") (debts Demo.ledger)
  = Some (2%nat, Demo.debtOverdue)
  /\ (status Demo.debtOverdue = pending \/ status Demo.debtOverdue = overdue)
  /\ (exists tx d' w',
        markAsPaid "d-overdue" Demo.ledger = (Ok (d', tx), w')
        /\ transactions w' = transactions Demo.ledger ++ [tx]
        /\ tx_type tx = outflow
        /\ tx_amount tx = 100
        /\ tx_description tx = "Pago: Acme - Rent"
        /\ debts w' = <[2%nat := d']> (debts Demo.ledger)
        /\ status d' = paid
        /\ linkedTransactionId d' = Some (tx_id tx))
  /\ markAsPaidVia Demo.fullLedger "d-overdue" Demo.ledger
     = (Throw (HostError "QuotaExceededError"), Demo.ledger).
Proof.
  assert (Hfind : list_find (fun d => debt_id d = "d-overdue") (debts Demo.ledger)
                  = Some (2%nat, Demo.debtOverdue)) by reflexivity.
  assert (Hopen : status Demo.debtOverdue = pending
                  \/ status Demo.debtOverdue = overdue) by (right; reflexivity).
  destruct (markAsPaid_settles Demo.ledger "d-overdue" 2 Demo.debtOverdue
              Hfind Hopen)
    as [(tx & d' & w' & stamp & Hrun & Htxs & Hty & Hamt & Hdesc & Hds & _
         & Hst & _ & Hlink & _) Hfail].
  split; [exact Hfind|]. split; [exact Hopen|]. split.
  - exists tx, d', w'. repeat split; assumption.
  - apply Hfail. reflexivity.
Defined.

(** C4.  [markAsPaid] on a debt whose stored status is paid fails with the
    already-paid error and leaves the world as it was: no transaction is
    added and the debts are not written.  On an id that no stored debt
    carries it fails with the not-found error, the world unchanged too. *)
Theorem markAsPaid_rejects (w : World) (id : string) :
  (forall i d,
      list_find (fun d => debt_id d = id) (debts w) = Some (i, d) ->
      status d = paid ->
      markAsPaid id w = (Throw DebtAlreadyPaid, w)
      /\ message DebtAlreadyPaid = "Debt is already marked as paid")
  /\ ((forall d, d ∈ debts w -> debt_id d <> id) ->
      markAsPaid id w = (Throw DebtNotFound, w)
      /\ message DebtNotFound = "Debt not found").
Proof.
  split.
  - intros i d Hd Hs. split; [|reflexivity].
    unfold markAsPaid, markAsPaidVia, getDebts. unfold bind at 1.
    rewrite Hd. by rewrite bool_decide_eq_true_2.
  - intros Hnone. split; [|reflexivity].
    unfold markAsPaid, markAsPaidVia, getDebts. unfold bind at 1.
    assert (Hf : list_find (fun d => debt_id d = id) (debts w) = None).
    { apply list_find_None, Forall_forall. intros d Hin. by apply Hnone. }
    by rewrite Hf.
Qed.

Lemma markAsPaid_rejects_witness :
  list_find (fun d => debt_id d = "d-paid") (debts Demo.ledger)
  = Some (0%nat, Demo.debtPaid)
  /\ status Demo.debtPaid = paid
  /\ markAsPaid "d-paid" Demo.ledger = (Throw DebtAlreadyPaid, Demo.ledger)
  /\ (forall d, d ∈ debts Demo.ledger -> debt_id d <> "d-none")
  /\ markAsPaid "d-none" Demo.ledger = (Throw DebtNotFound, Demo.ledger).
Proof.
  assert (Hnone : forall d, d ∈ debts Demo.ledger -> debt_id d <> "d-none").
  { intros d Hin. apply list_elem_of_In in Hin. simpl in Hin.
    destruct Hin as [<-|[<-|[<-|[<-|[]]]]]; discriminate. }
  split; [reflexivity|]. split; [reflexivity|]. split; [|split].
  - apply (proj1 (markAsPaid_rejects Demo.ledger "d-paid") 0%nat Demo.debtPaid);
      reflexivity.
  - exact Hnone.
  - apply (proj2 (markAsPaid_rejects Demo.ledger "d-none") Hnone).
Defined.

(* ===================================================================== *)
(** ** Debts: updates                                                     *)
(* ===================================================================== *)

Lemma updateDebt_run
    (w : World) (id : string) (u : DebtUpdates) (i : nat) (d : DebtEntry) :
  list_find (fun d => debt_id d = id) (debts w) = Some (i, d) ->
  exists d' w',
    updateDebt id u w = (Ok d', w')
    /\ debts w' = <[i := d']> (debts w)
    /\ d' = setStatus (mergeDebt d u) (updatedStatus w d u)
    /\ transactions w' = transactions w
    /\ bills w' = bills w
    /\ products w' = products w.
Proof.
  intros Hd. unfold updateDebt, getDebts. unfold bind at 1. rewrite Hd.
  unfold updatedStatus. cbn [status mergeDebt].
  destruct (JS.truthyOpt (upd_dueDate u)
            && bool_decide (JS.definedOr (upd_status u) (status d) = pending))
    eqn:Hc.
  - eexists _, _. split; [reflexivity|]. cbn. repeat split; reflexivity.
  - eexists _, _. split; [reflexivity|]. cbn. repeat split; reflexivity.
Qed.

Lemma updateDebt_missing (w : World) (id : string) (u : DebtUpdates) :
  list_find (fun d => debt_id d = id) (debts w) = None ->
  updateDebt id u w = (Throw DebtNotFound, w).
Proof.
  intros Hd. unfold updateDebt, getDebts. unfold bind at 1. by rewrite Hd.
Qed.

Lemma getAllDebts_run (w : World) (filters : DebtFilters) :
  exists w',
    getAllDebts filters w
    = (Ok (sort (fun a b => newestFirst w (debt_createdAt a) (debt_createdAt b))
             (applyFilters filters
                (refreshOverdue w (clock w (ticks w)) <$> debts w))),
       w')
    /\ nothingWritten w w'
    /\ ticks w' = S (ticks w)
    /\ draws w' = draws w.
Proof.
  unfold getAllDebts. run. eexists. split; [reflexivity|].
  unfold nothingWritten, sameHost. run. repeat split.
Qed.

Lemma createDebt_run
    (w : World) (type : DebtType) (cp : string) (amount : Z)
    (description due : string) (category notes : option string) :
  exists d w',
    createDebt type cp amount description due category notes w = (Ok d, w')
    /\ debts w' = debts w ++ [d]
    /\ status d
       = (if isBefore w due (clock w (S (ticks w))) then overdue else pending)
    /\ transactions w' = transactions w.
Proof.
  unfold createDebt. run. eexists _, _. split; [reflexivity|].
  run. repeat split.
Qed.

Lemma deleteDebt_run (w : World) (id : string) :
  exists w',
    deleteDebt id w = (Ok tt, w')
    /\ debts w' = filter (fun d => debt_id d <> id) (debts w)
    /\ transactions w' = transactions w.
Proof.
  unfold deleteDebt. run. eexists. split; [reflexivity|]. run. repeat split.
Qed.

Lemma getDebtStats_run (w : World) :
  exists s w', getDebtStats w = (Ok s, w') /\ nothingWritten w w'.
Proof.
  unfold getDebtStats. unfold bind at 1.
  destruct (getAllDebts_run w noFilters) as (w' & -> & Hw & _).
  eexists _, w'. split; [reflexivity|]. exact Hw.
Qed.

Lemma paidStaysPaid_refl (l : list DebtEntry) : paidStaysPaid l l.
Proof. intros i d Hi Hs. eauto. Qed.

Lemma paidStaysPaid_insert (l : list DebtEntry) (i : nat) (d d' : DebtEntry) :
  l !! i = Some d ->
  debt_id d' = debt_id d ->
  (status d = paid -> status d' = paid) ->
  paidStaysPaid l (<[i := d']> l).
Proof.
  intros Hi Hid Hst j e Hj Hs. destruct (decide (i = j)) as [->|Hne].
  - assert (e = d) as -> by congruence.
    exists d'. split; [|auto].
    apply list_lookup_insert_eq. eauto using lookup_lt_Some.
  - exists e. by rewrite list_lookup_insert_ne.
Qed.

(** [markAsPaid] leaves the debts as they are, or overwrites one of them
    with its settled form. *)
Lemma markAsPaid_debts (w : World) (id : string) :
  debts (snd (markAsPaid id w)) = debts w
  \/ exists i d stamp txId,
       debts w !! i = Some d
       /\ debts (snd (markAsPaid id w))
          = <[i := settle d stamp txId]> (debts w).
Proof.
  destruct (list_find (fun d => debt_id d = id) (debts w)) as [[i d]|] eqn:Hd.
  - destruct (decide (status d = paid)) as [Hs|Hs].
    + left. unfold markAsPaid, markAsPaidVia, getDebts. unfold bind at 1.
      rewrite Hd. by rewrite bool_decide_eq_true_2.
    + right. unfold markAsPaid.
      rewrite (markAsPaidVia_found _ w id i d Hd Hs). unfold bind at 1.
      destruct (addTransaction_run w (transactionType d)
                  (transactionDescription d) (debt_amount d) (debt_category d)
                  None None) as (tx & w1 & -> & _).
      apply find_lookup in Hd as [Hi _].
      eexists i, d, _, _. split; [exact Hi|]. reflexivity.
  - left. unfold markAsPaid, markAsPaidVia, getDebts. unfold bind at 1.
    by rewrite Hd.
Qed.

(** C5, as the code has it.  No operation of the debt service takes a debt
    out of the paid status, provided the payload of [updateDebt] carries no
    status or the status paid: after [getAllDebts], [getDebtById],
    [createDebt], [updateDebt], [markAsPaid] and [getDebtStats] every debt
    stored as paid is still stored at its place, as paid; [deleteDebt]
    removes entries and changes none; and the list that [getAllDebts]
    reports shows a paid debt as it is stored.  A payload of [updateDebt]
    that carries the status pending or overdue does take a paid debt out of
    the paid status: the debt is stored with the status of the payload, or
    as overdue when that status is pending and the payload carries a due
    date, not empty, that is before the clock reading. *)
Theorem paid_is_terminal (op : DebtOp) (w : World) :
  (namesNoOtherStatus op ->
   match op with
   | OpDeleteDebt _ => sublist (debts (afterDebtOp op w)) (debts w)
   | _ => paidStaysPaid (debts w) (debts (afterDebtOp op w))
   end)
  /\ (forall now d, status d = paid -> refreshOverdue w now d = d)
  /\ (forall id u i d s,
        op = OpUpdateDebt id u ->
        list_find (fun d => debt_id d = id) (debts w) = Some (i, d) ->
        status d = paid ->
        upd_status u = Some s ->
        s <> paid ->
        exists d' w',
          updateDebt id u w = (Ok d', w')
          /\ debts w' !! i = Some d'
          /\ debt_id d' = debt_id d
          /\ status d' <> paid
          /\ status d'
             = if bool_decide (s = pending)
                  && JS.truthyOpt (upd_dueDate u)
                  && isBefore w (JS.definedOr (upd_dueDate u) "")
                       (clock w (ticks w))
               then overdue else s).
Proof.
  split; [|split].
  - intros Hop.
    destruct op as [f|id|ty cp amt ds due cat notes|id u|id|id|];
      cbn [afterDebtOp].
    + destruct (getAllDebts_run w f) as (w' & Hrun & (_ & _ & Hds & _) & _).
      rewrite Hrun. cbn [snd]. rewrite Hds. apply paidStaysPaid_refl.
    + apply paidStaysPaid_refl.
    + destruct (createDebt_run w ty cp amt ds due cat notes)
        as (d & w' & Hrun & Hds & _).
      rewrite Hrun. cbn [snd]. rewrite Hds.
      intros i e Hi Hs. exists e. split; [|done]. by apply lookup_app_l_Some.
    + destruct (list_find (fun d => debt_id d = id) (debts w))
        as [[i d]|] eqn:Hd.
      * destruct (updateDebt_run w id u i d Hd)
          as (d' & w' & Hrun & Hds & Hd' & _).
        rewrite Hrun. cbn [snd]. rewrite Hds, Hd'.
        apply find_lookup in Hd as [Hi _].
        apply (paidStaysPaid_insert _ i d); [done|done|].
        intros Hs. cbn [status setStatus]. unfold updatedStatus.
        cbn [namesNoOtherStatus] in Hop.
        destruct Hop as [Hu|Hu]; rewrite Hu; cbn [JS.definedOr];
          rewrite ?Hs; by rewrite andb_false_r.
      * rewrite (updateDebt_missing w id u Hd). apply paidStaysPaid_refl.
    + destruct (deleteDebt_run w id) as (w' & Hrun & Hds & _).
      rewrite Hrun. cbn [snd]. rewrite Hds. apply sublist_filter.
    + destruct (markAsPaid_debts w id) as [Hsame|(i & d & stamp & txId & Hi & Hds)].
      * rewrite Hsame. apply paidStaysPaid_refl.
      * rewrite Hds. by apply (paidStaysPaid_insert _ i d).
    + destruct (getDebtStats_run w) as (s & w' & Hrun & (_ & _ & Hds & _)).
      rewrite Hrun. cbn [snd]. rewrite Hds. apply paidStaysPaid_refl.
  - intros now d Hs. unfold refreshOverdue. by rewrite Hs.
  - intros id u i d s _ Hd Hpaid Hu Hs.
    destruct (updateDebt_run w id u i d Hd) as (d' & w' & Hrun & Hds & Hd' & _).
    exists d', w'. split; [exact Hrun|].
    split; [rewrite Hds; apply list_lookup_insert_eq; by eapply find_lt|].
    assert (Hstored :
              status d'
              = if bool_decide (s = pending)
                   && JS.truthyOpt (upd_dueDate u)
                   && isBefore w (JS.definedOr (upd_dueDate u) "")
                        (clock w (ticks w))
                then overdue else s).
    { rewrite Hd'. cbn [status setStatus]. unfold updatedStatus.
      rewrite Hu. cbn [JS.definedOr].
      destruct (decide (s = pending)) as [->|Hne].
      - rewrite !bool_decide_eq_true_2 by done. cbn [andb].
        rewrite andb_true_r.
        by destruct (JS.truthyOpt (upd_dueDate u)), (isBefore _ _ _).
      - rewrite !bool_decide_eq_false_2 by done.
        by rewrite andb_false_r. }
    split; [by rewrite Hd'|]. split; [|exact Hstored].
    rewrite Hstored. by destruct (_ && _).
Qed.

Lemma paid_is_terminal_witness :
  namesNoOtherStatus (OpUpdateDebt "d-paid" (Demo.onlyDueDate "2030-01-01"))
  /\ paidStaysPaid (debts Demo.ledger)
       (debts (afterDebtOp
                 (OpUpdateDebt "d-paid" (Demo.onlyDueDate "2030-01-01"))
                 Demo.ledger))
  /\ exists d' w',
       updateDebt "d-paid" (Demo.dueDateAndStatus "2024-01-01" pending)
         Demo.ledger = (Ok d', w')
       /\ debts w' !! 0%nat = Some d'
       /\ status d' = overdue.
Proof.
  assert (Hop : namesNoOtherStatus
                  (OpUpdateDebt "d-paid" (Demo.onlyDueDate "2030-01-01")))
    by (left; reflexivity).
  split; [exact Hop|]. split.
  - exact (proj1 (paid_is_terminal
                    (OpUpdateDebt "d-paid" (Demo.onlyDueDate "2030-01-01"))
                    Demo.ledger) Hop).
  - destruct (paid_is_terminal
                (OpUpdateDebt "d-paid"
                   (Demo.dueDateAndStatus "2024-01-01" pending))
                Demo.ledger) as (_ & _ & Hout).
    destruct (Hout "d-paid" (Demo.dueDateAndStatus "2024-01-01" pending)
                0%nat Demo.debtPaid pending eq_refl eq_refl eq_refl eq_refl
                ltac:(discriminate))
      as (d' & w' & Hrun & Hi & _ & _ & Hs).
    exists d', w'. split; [exact Hrun|]. split; [exact Hi|].
    rewrite Hs. reflexivity.
Defined.

(** C5 as stated fails: the payload of [updateDebt] may carry a status, and
    on a paid debt the payload [{ status: 'pending' }] stores it as pending. *)
Lemma paid_reopened_by_updateDebt_counterexample :
  debts Demo.ledger !! 0%nat = Some Demo.debtPaid
  /\ status Demo.debtPaid = paid
  /\ fst (updateDebt "d-paid" (Demo.onlyStatus pending) Demo.ledger)
     = Ok (setStatus Demo.debtPaid pending)
  /\ debts (snd (updateDebt "d-paid" (Demo.onlyStatus pending) Demo.ledger))
       !! 0%nat
     = Some (setStatus Demo.debtPaid pending)
  /\ status (setStatus Demo.debtPaid pending) = pending
  /\ ~ paidStaysPaid (debts Demo.ledger)
        (debts (afterDebtOp (OpUpdateDebt "d-paid" (Demo.onlyStatus pending))
                  Demo.ledger)).
Proof.
  assert (Hstored :
            debts (snd (updateDebt "d-paid" (Demo.onlyStatus pending) Demo.ledger))
              !! 0%nat
            = Some (setStatus Demo.debtPaid pending))
    by (vm_compute; reflexivity).
  split; [reflexivity|]. split; [reflexivity|].
  split; [vm_compute; reflexivity|]. split; [exact Hstored|].
  split; [reflexivity|].
  intros Hstays.
  destruct (Hstays 0%nat Demo.debtPaid eq_refl eq_refl) as (d' & Hd' & Hpaid & _).
  cbn [afterDebtOp] in Hd'. rewrite Hstored in Hd'.
  injection Hd' as <-. discriminate Hpaid.
Qed.

(** C8, as the code has it.  For a debt stored as pending and a payload of
    [updateDebt] that carries a due date: when the payload carries no status
    or the status pending, the stored status becomes overdue when the new
    due date is before the clock reading and pending otherwise (for the
    empty due date, on a host that parses the empty string as an invalid
    date); when the payload carries the status overdue or paid, that status
    is stored and nothing is derived.  A debt stored as overdue is stored as
    pending only when the payload itself carries the status pending and no
    due date, not empty, that is before the clock reading; so it stays
    overdue when the payload carries no status, and is never reverted to
    pending when the payload carries no status or another one, whatever the
    new due date. *)
Theorem updateDebt_rederives_status
    (w : World) (id : string) (u : DebtUpdates) (i : nat) (d : DebtEntry) :
  list_find (fun d => debt_id d = id) (debts w) = Some (i, d) ->
  exists d' w',
    updateDebt id u w = (Ok d', w')
    /\ debts w' = <[i := d']> (debts w)
    /\ (forall due,
          upd_dueDate u = Some due -> status d = pending ->
          dueDate d' = due
          /\ (upd_status u = None \/ upd_status u = Some pending ->
              due <> "" \/ parseDate w "" = None ->
              status d'
              = if isBefore w due (clock w (ticks w)) then overdue else pending)
          /\ (forall s, upd_status u = Some s -> s <> pending ->
                        status d' = s))
    /\ (status d = overdue ->
        (status d' = pending
         <-> upd_status u = Some pending
             /\ JS.truthyOpt (upd_dueDate u)
                && isBefore w (JS.definedOr (upd_dueDate u) "")
                     (clock w (ticks w)) = false)
        /\ (upd_status u = None -> status d' = overdue)).
Proof.
  intros Hd.
  destruct (updateDebt_run w id u i d Hd) as (d' & w' & Hrun & Hds & Hd' & _).
  exists d', w'. split; [exact Hrun|]. split; [exact Hds|].
  rewrite Hd'. cbn [status setStatus dueDate mergeDebt]. unfold updatedStatus.
  split.
  - intros due Hdue Hs. rewrite Hdue, Hs. cbn [JS.definedOr JS.truthyOpt].
    split; [reflexivity|]. split.
    + intros Hu Hvalid.
      assert (Hmerged : JS.definedOr (upd_status u) pending = pending)
        by (destruct Hu as [-> | ->]; reflexivity).
      rewrite Hmerged, bool_decide_eq_true_2, andb_true_r by done.
      destruct due as [|c due]; cbn [JS.truthy]; [|done].
      destruct Hvalid as [Hne|Hempty]; [done|].
      unfold isBefore. by rewrite Hempty.
    + intros s Hu Hne. rewrite Hu. cbn [JS.definedOr].
      by rewrite bool_decide_eq_false_2, andb_false_r.
  - intros Hs. rewrite Hs. split.
    + destruct (upd_status u) as [[| |]|]; cbn [JS.definedOr].
      * rewrite bool_decide_eq_true_2, andb_true_r by done.
        destruct (JS.truthyOpt (upd_dueDate u)); cbn [andb];
          [destruct (isBefore _ _ _)|]; intuition congruence.
      * rewrite bool_decide_eq_false_2, andb_false_r by done.
        intuition congruence.
      * rewrite bool_decide_eq_false_2, andb_false_r by done.
        intuition congruence.
      * rewrite bool_decide_eq_false_2, andb_false_r by done.
        intuition congruence.
    + intros ->. cbn [JS.definedOr].
      by rewrite bool_decide_eq_false_2, andb_false_r.
Qed.

Lemma updateDebt_rederives_status_witness :
  list_find (fun d => debt_id d = "d-future") (debts Demo.ledger)
  = Some (3%nat, Demo.debtFuture)
  /\ (exists d' w',
        updateDebt "d-future" (Demo.onlyDueDate "2024-01-01") Demo.ledger
        = (Ok d', w')
        /\ status d' = overdue)
  /\ list_find (fun d => debt_id d = "d-overdue") (debts Demo.ledger)
     = Some (2%nat, Demo.debtOverdue)
  /\ (exists d' w',
        updateDebt "d-overdue" (Demo.dueDateAndStatus "2030-01-01" paid)
          Demo.ledger = (Ok d', w')
        /\ status d' <> pending).
Proof.
  assert (Hfind : list_find (fun d => debt_id d = "d-future") (debts Demo.ledger)
                  = Some (3%nat, Demo.debtFuture)) by reflexivity.
  assert (Hfind' : list_find (fun d => debt_id d = "d-overdue")
                     (debts Demo.ledger)
                   = Some (2%nat, Demo.debtOverdue)) by reflexivity.
  split; [exact Hfind|]. split; [|split; [exact Hfind'|]].
  - destruct (updateDebt_rederives_status Demo.ledger "d-future"
                (Demo.onlyDueDate "2024-01-01") 3 Demo.debtFuture Hfind)
      as (d' & w' & Hrun & _ & Hdue & _).
    exists d', w'. split; [exact Hrun|].
    destruct (Hdue "2024-01-01" eq_refl eq_refl) as (_ & Hs & _).
    rewrite Hs; [reflexivity|by left|left; discriminate].
  - destruct (updateDebt_rederives_status Demo.ledger "d-overdue"
                (Demo.dueDateAndStatus "2030-01-01" paid) 2 Demo.debtOverdue
                Hfind')
      as (d' & w' & Hrun & _ & _ & Hkept).
    exists d', w'. split; [exact Hrun|].
    destruct (Hkept eq_refl) as [Hiff _].
    intros Hpending. apply Hiff in Hpending as [Hu _]. discriminate Hu.
Defined.

(** C8 as stated fails when the payload carries a status too.  An overdue
    debt updated with [{ dueDate: '2030-01-01', status: 'pending' }] is stored
    as pending; a pending debt updated with a past due date and the status
    paid is stored as paid and not re-derived. *)
Lemma overdue_reverted_by_updateDebt_counterexample :
  debts Demo.ledger !! 2%nat = Some Demo.debtOverdue
  /\ status Demo.debtOverdue = overdue
  /\ isBefore Demo.ledger "2030-01-01" (clock Demo.ledger 0%nat) = false
  /\ status <$>
       debts (snd (updateDebt "d-overdue"
                     (Demo.dueDateAndStatus "2030-01-01" pending) Demo.ledger))
         !! 2%nat
     = Some pending
  /\ debts Demo.ledger !! 3%nat = Some Demo.debtFuture
  /\ status Demo.debtFuture = pending
  /\ isBefore Demo.ledger "2024-01-01" (clock Demo.ledger 0%nat) = true
  /\ status <$>
       debts (snd (updateDebt "d-future"
                     (Demo.dueDateAndStatus "2024-01-01" paid) Demo.ledger))
         !! 3%nat
     = Some paid.
Proof. repeat split; vm_compute; reflexivity. Qed.


(* ===================================================================== *)
(** ** Bills                                                              *)
(* ===================================================================== *)

Lemma updateBill_run
    (w : World) (id : string) (u : BillUpdates) (i : nat) (b : Bill) :
  list_find (fun b => bill_id b = id) (bills w) = Some (i, b) ->
  exists b' w',
    updateBill id u w = (Ok b', w')
    /\ bills w' = <[i := b']> (bills w)
    /\ bill_category b' = JS.orUndefined (JS.trim <$> upd_bill_category u)
    /\ bill_notes b' = JS.orUndefined (JS.trim <$> upd_bill_notes u)
    /\ bill_id b' = bill_id b
    /\ transactions w' = transactions w.
Proof.
  intros Hb. unfold updateBill, getBills. unfold bind at 1. rewrite Hb.
  run. eexists _, _. split; [reflexivity|]. run. repeat split.
Qed.

(** C10.  An update rewrites the optional text properties from its payload
    alone.  [updateProduct] stores as description and category the trimmed
    texts of the payload, so none when the payload omits them; [updateDebt]
    and [updateBill] store as category and notes the trimmed texts of the
    payload when these are not empty, so none when the payload omits them.
    What the entity held before plays no part. *)
Theorem updates_rewrite_optional_text :
  (forall w pid u p,
      findProduct pid (products w) = Some p ->
      exists p' w',
        updateProduct pid u w = (Ok p', w')
        /\ findProduct pid (products w') = Some p'
        /\ product_description p' = JS.trim <$> upd_product_description u
        /\ product_category p' = JS.trim <$> upd_product_category u
        /\ (upd_product_description u = None -> product_description p' = None)
        /\ (upd_product_category u = None -> product_category p' = None))
  /\ (forall w id u i d,
        list_find (fun d => debt_id d = id) (debts w) = Some (i, d) ->
        exists d' w',
          updateDebt id u w = (Ok d', w')
          /\ debts w' !! i = Some d'
          /\ debt_category d' = JS.orUndefined (JS.trim <$> upd_category u)
          /\ debt_notes d' = JS.orUndefined (JS.trim <$> upd_notes u)
          /\ (upd_category u = None -> debt_category d' = None)
          /\ (upd_notes u = None -> debt_notes d' = None))
  /\ (forall w id u i b,
        list_find (fun b => bill_id b = id) (bills w) = Some (i, b) ->
        exists b' w',
          updateBill id u w = (Ok b', w')
          /\ bills w' !! i = Some b'
          /\ bill_category b' = JS.orUndefined (JS.trim <$> upd_bill_category u)
          /\ bill_notes b' = JS.orUndefined (JS.trim <$> upd_bill_notes u)
          /\ (upd_bill_category u = None -> bill_category b' = None)
          /\ (upd_bill_notes u = None -> bill_notes b' = None)).
Proof.
  split; [|split].
  - intros w pid u p Hp. apply findProduct_Some in Hp as [i Hp].
    destruct (updateProduct_run w pid u i p Hp)
      as (p' & w' & Hrun & Hps & _ & _ & _ & Hdesc & Hcat & Hid & _).
    exists p', w'. split; [exact Hrun|]. split.
    { rewrite Hps. eapply findProduct_insert_same; eauto. }
    rewrite Hdesc, Hcat. repeat split; intros ->; reflexivity.
  - intros w id u i d Hd.
    destruct (updateDebt_run w id u i d Hd) as (d' & w' & Hrun & Hds & Hd' & _).
    exists d', w'. split; [exact Hrun|]. split.
    { rewrite Hds. apply list_lookup_insert_eq. eapply find_lt, Hd. }
    rewrite Hd'. cbn [debt_category debt_notes setStatus mergeDebt].
    repeat split; intros ->; reflexivity.
  - intros w id u i b Hb.
    destruct (updateBill_run w id u i b Hb)
      as (b' & w' & Hrun & Hbs & Hcat & Hnotes & _).
    exists b', w'. split; [exact Hrun|]. split.
    { rewrite Hbs. apply list_lookup_insert_eq. eapply find_lt, Hb. }
    rewrite Hcat, Hnotes. repeat split; intros ->; reflexivity.
Qed.

Lemma updates_rewrite_optional_text_witness :
  (product_description Demo.shirt = Some "Cotton"
   /\ exists p' w',
        updateProduct "p-shirt" (onlyStandaloneQuantity 6) Demo.shop = (Ok p', w')
        /\ findProduct "p-shirt" (products w') = Some p'
        /\ product_description p' = None
        /\ product_category p' = None)
  /\ (debt_category Demo.debtPending = Some "Loans"
      /\ exists d' w',
           updateDebt "d-pending" (Demo.onlyDueDate "2030-01-01") Demo.ledger
           = (Ok d', w')
           /\ debts w' !! 1%nat = Some d'
           /\ debt_category d' = None
           /\ debt_notes d' = None)
  /\ (bill_category Demo.billRent = Some "Housing"
      /\ exists b' w',
           updateBill "b-rent" (Demo.onlyAmount 550) Demo.office = (Ok b', w')
           /\ bills w' !! 0%nat = Some b'
           /\ bill_category b' = None
           /\ bill_notes b' = None).
Proof.
  destruct updates_rewrite_optional_text as (Hproduct & Hdebt & Hbill).
  split; [|split]; (split; [reflexivity|]).
  - destruct (Hproduct Demo.shop "p-shirt" (onlyStandaloneQuantity 6)
                Demo.shirt eq_refl)
      as (p' & w' & Hrun & Hfind & _ & _ & Hdesc & Hcat).
    exists p', w'. repeat split; auto.
  - destruct (Hdebt Demo.ledger "d-pending" (Demo.onlyDueDate "2030-01-01")
                1%nat Demo.debtPending eq_refl)
      as (d' & w' & Hrun & Hfind & _ & _ & Hcat & Hnotes).
    exists d', w'. repeat split; auto.
  - destruct (Hbill Demo.office "b-rent" (Demo.onlyAmount 550)
                0%nat Demo.billRent eq_refl)
      as (b' & w' & Hrun & Hfind & _ & _ & Hcat & Hnotes).
    exists b', w'. repeat split; auto.
Defined.

(** C7.  For a bill found under [id], [toggleBillPaid] succeeds and stores
    the bill with [isPaid] flipped and nothing else changed.  When the new
    state is paid and the flag is set, the bills are written first and then
    exactly one transaction is appended: an outflow of the bill's amount,
    described "Pago: " followed by the bill's name, in the bill's category,
    or in "Gastos Fijos" when the bill has none.  In every other case, so
    whenever the bill goes back to unpaid, the ledger is left as it was. *)
Theorem toggleBillPaid_flips
    (w : World) (id : string) (flag : bool) (i : nat) (b : Bill) :
  list_find (fun b => bill_id b = id) (bills w) = Some (i, b) ->
  exists b' w',
    toggleBillPaid id flag w = (Ok b', w')
    /\ isPaid b' = negb (isPaid b)
    /\ b' = mkBill (bill_id b) (bill_name b) (bill_amount b) (bill_dueDate b)
              (bill_frequency b) (bill_category b) (bill_notes b)
              (negb (isPaid b)) (bill_createdAt b)
    /\ bills w' = <[i := b']> (bills w)
    /\ if negb (isPaid b) && flag
       then
         exists tx,
           transactions w' = transactions w ++ [tx]
           /\ tx_type tx = outflow
           /\ tx_description tx = "Pago: " +:+ bill_name b
           /\ tx_amount tx = bill_amount b
           /\ tx_category tx = Some (JS.orElse (bill_category b) "Gastos Fijos")
           /\ (bill_category b = None -> tx_category tx = Some "Gastos Fijos")
           /\ (forall c, bill_category b = Some c -> c <> "" ->
                         tx_category tx = Some c)
           /\ trace w'
              = trace w ++ [SetItem BILLS; Dispatch BILLS;
                            SetItem TRANSACTIONS; Dispatch TRANSACTIONS]
       else
         transactions w' = transactions w
         /\ trace w' = trace w ++ [SetItem BILLS; Dispatch BILLS].
Proof.
  intros Hb. unfold toggleBillPaid, getBills. unfold bind at 1. rewrite Hb.
  destruct (negb (isPaid b) && flag) eqn:Hc.
  - unfold addTransaction. run.
    eexists _, _. split; [reflexivity|]. run.
    split; [reflexivity|]. split; [reflexivity|]. split; [reflexivity|].
    eexists. split; [reflexivity|]. cbn.
    repeat split.
    + intros ->. reflexivity.
    + intros c -> Hc'. destruct c; [done|reflexivity].
    + by rewrite <- !app_assoc.
  - run. eexists _, _. split; [reflexivity|]. run.
    repeat split. by rewrite <- !app_assoc.
Qed.

Lemma toggleBillPaid_flips_witness :
  list_find (fun b => bill_id b = "b-rent") (bills Demo.office)
  = Some (0%nat, Demo.billRent)
  /\ exists b' w' tx,
       toggleBillPaid "b-rent" true Demo.office = (Ok b', w')
       /\ isPaid b' = true
       /\ bills w' = <[0%nat := b']> (bills Demo.office)
       /\ transactions w' = transactions Demo.office ++ [tx]
       /\ tx_type tx = outflow
       /\ tx_description tx = "Pago: Rent"
       /\ tx_amount tx = 500
       /\ tx_category tx = Some "Housing".
Proof.
  assert (Hfind : list_find (fun b => bill_id b = "b-rent") (bills Demo.office)
                  = Some (0%nat, Demo.billRent)) by reflexivity.
  split; [exact Hfind|].
  destruct (toggleBillPaid_flips Demo.office "b-rent" true 0 Demo.billRent Hfind)
    as (b' & w' & Hrun & Hpaid & _ & Hbs & Htx).
  cbn [Demo.billRent isPaid negb andb] in Htx.
  destruct Htx as (tx & Htxs & Hty & Hdesc & Hamt & Hcat & _).
  exists b', w', tx. repeat split; assumption.
Defined.

(* ===================================================================== *)
(** ** Debts: the overdue status derived on read                          *)
(* ===================================================================== *)

Lemma sortInsert_perm {A : Type} (cmp : A -> A -> Z) (x : A) (l : list A) :
  sortInsert cmp x l ≡ₚ x :: l.
Proof.
  induction l as [|y l IH]; [done|]. cbn [sortInsert].
  destruct (cmp x y <=? 0); [done|]. rewrite IH. apply Permutation_swap.
Qed.

Lemma sort_perm {A : Type} (cmp : A -> A -> Z) (l : list A) :
  sort cmp l ≡ₚ l.
Proof.
  induction l as [|x l IH]; [done|]. cbn [sort].
  rewrite sortInsert_perm. by rewrite IH.
Qed.

Lemma elem_of_sort {A : Type} (cmp : A -> A -> Z) (l : list A) (x : A) :
  x ∈ sort cmp l <-> x ∈ l.
Proof. by rewrite sort_perm. Qed.

(** The filters judge each entry on its own. *)
Lemma elem_of_applyFilters (filters : DebtFilters) (l : list DebtEntry) (e : DebtEntry) :
  e ∈ applyFilters filters l <-> e ∈ l /\ passes filters e.
Proof.
  unfold passes, applyFilters.
  destruct (filter_type filters), (filter_status filters),
    (JS.truthyOpt (filter_searchTerm filters));
    rewrite ?list_elem_of_filter, ?list_elem_of_singleton; intuition.
Qed.

Lemma noFilters_pass (e : DebtEntry) : passes noFilters e.
Proof. unfold passes. cbn. apply list_elem_of_singleton. reflexivity. Qed.

Lemma refreshOverdue_due (w : World) (now : Z) (d : DebtEntry) :
  status d = pending -> isBefore w (dueDate d) now = true ->
  refreshOverdue w now d = setStatus d overdue.
Proof. intros Hs Hdue. unfold refreshOverdue. by rewrite Hs, Hdue. Qed.

(** No entry comes out of the derivation pending with a due date passed. *)
Lemma refreshOverdue_settled (w : World) (now : Z) (d : DebtEntry) :
  ~ (status (refreshOverdue w now d) = pending
     /\ isBefore w (dueDate (refreshOverdue w now d)) now = true).
Proof.
  unfold refreshOverdue.
  destruct (bool_decide (status d = pending)) eqn:Hs; cbn [andb].
  - destruct (isBefore w (dueDate d) now) eqn:Hdue.
    + cbn. intros [? _]. discriminate.
    + intros [_ ?]. congruence.
  - apply bool_decide_eq_false in Hs. tauto.
Qed.

Lemma refreshOverdue_idempotent (w : World) (now : Z) (d : DebtEntry) :
  refreshOverdue w now (refreshOverdue w now d) = refreshOverdue w now d.
Proof.
  unfold refreshOverdue at 1.
  destruct (bool_decide (status (refreshOverdue w now d) = pending)) eqn:Hs;
    cbn [andb]; [|done].
  destruct (isBefore w (dueDate (refreshOverdue w now d)) now) eqn:Hdue; [|done].
  apply bool_decide_eq_true in Hs.
  destruct (refreshOverdue_settled w now d). by split.
Qed.

Lemma isBefore_later (w : World) (s : string) (now later : Z) :
  isBefore w s now = true -> now <= later -> isBefore w s later = true.
Proof.
  unfold isBefore. destruct (parseDate w s) as [t|]; [|done].
  intros H1 H2. apply Z.ltb_lt in H1. apply Z.ltb_lt. lia.
Qed.

(** Two calls in a row: the second reads the next clock value and sees the
    debts that the first one saw. *)
Lemma getAllDebts_again (w : World) (filters : DebtFilters) :
  fst (getAllDebts filters (snd (getAllDebts filters w)))
  = Ok (sort (fun a b => newestFirst w (debt_createdAt a) (debt_createdAt b))
          (applyFilters filters
             (refreshOverdue w (clock w (S (ticks w))) <$> debts w)))
  /\ debts (snd (getAllDebts filters (snd (getAllDebts filters w)))) = debts w.
Proof. unfold getAllDebts. run. split; reflexivity. Qed.

(** C6.  Let a debt be stored as pending with a due date before the clock
    reading.  [getAllDebts] succeeds and writes nothing; the list it reports
    holds that debt with the status overdue whenever the filters let it through
    (they always do when no filter is given), and never holds an entry that
    is pending with its due date passed, so not the debt as stored.  A second
    call right after leaves the stored debts alone again; it reports the same
    list when the clock reads the same, and still reports the debt as overdue
    when the clock has moved on.  The derivation is idempotent on every
    entry. *)
Theorem getAllDebts_reports_overdue
    (w : World) (filters : DebtFilters) (d : DebtEntry) :
  d ∈ debts w ->
  status d = pending ->
  isBefore w (dueDate d) (clock w (ticks w)) = true ->
  exists reported w',
    getAllDebts filters w = (Ok reported, w')
    /\ nothingWritten w w'
    /\ (passes filters (setStatus d overdue) -> setStatus d overdue ∈ reported)
    /\ passes noFilters (setStatus d overdue)
    /\ (forall e, e ∈ reported ->
          ~ (status e = pending
             /\ isBefore w (dueDate e) (clock w (ticks w)) = true))
    /\ (d ∉ reported)
    /\ debts (snd (getAllDebts filters w')) = debts w
    /\ (clock w (S (ticks w)) = clock w (ticks w) ->
        fst (getAllDebts filters w') = Ok reported)
    /\ (clock w (ticks w) <= clock w (S (ticks w)) ->
        passes filters (setStatus d overdue) ->
        exists again,
          fst (getAllDebts filters w') = Ok again
          /\ setStatus d overdue ∈ again)
    /\ (forall now e,
          refreshOverdue w now (refreshOverdue w now e) = refreshOverdue w now e).
Proof.
  intros Hin Hs Hdue.
  destruct (getAllDebts_run w filters) as (w' & Hrun & Hnw & _).
  destruct (getAllDebts_again w filters) as [Hagain Hkept].
  rewrite Hrun in Hagain, Hkept. cbn [snd] in Hagain, Hkept.
  eexists _, w'. split; [exact Hrun|]. split; [exact Hnw|].
  assert (Hnone : forall e,
             e ∈ sort (fun a b => newestFirst w (debt_createdAt a) (debt_createdAt b))
                   (applyFilters filters
                      (refreshOverdue w (clock w (ticks w)) <$> debts w)) ->
             ~ (status e = pending
                /\ isBefore w (dueDate e) (clock w (ticks w)) = true)).
  { intros e He. apply elem_of_sort, elem_of_applyFilters in He as [He _].
    apply list_elem_of_fmap in He as (e0 & -> & _).
    apply refreshOverdue_settled. }
  split; [|split; [|split; [|split; [|split; [|split; [|split]]]]]].
  - intros Hadm. apply elem_of_sort, elem_of_applyFilters. split; [|exact Hadm].
    apply list_elem_of_fmap. exists d. split; [|exact Hin].
    symmetry. by apply refreshOverdue_due.
  - apply noFilters_pass.
  - exact Hnone.
  - intros Hd. apply (Hnone d Hd). by split.
  - exact Hkept.
  - intros Hclock. rewrite Hagain. by rewrite Hclock.
  - intros Hclock Hadm. eexists. split; [exact Hagain|].
    apply elem_of_sort, elem_of_applyFilters. split; [|exact Hadm].
    apply list_elem_of_fmap. exists d. split; [|exact Hin].
    symmetry. apply refreshOverdue_due; [exact Hs|].
    eapply isBefore_later; eauto.
  - intros now e. apply refreshOverdue_idempotent.
Qed.

Lemma getAllDebts_reports_overdue_witness :
  Demo.debtPending ∈ debts Demo.ledger
  /\ status Demo.debtPending = pending
  /\ isBefore Demo.ledger (dueDate Demo.debtPending)
       (clock Demo.ledger (ticks Demo.ledger)) = true
  /\ exists reported w',
       getAllDebts noFilters Demo.ledger = (Ok reported, w')
       /\ debts w' = debts Demo.ledger
       /\ setStatus Demo.debtPending overdue ∈ reported
       /\ Demo.debtPending ∉ reported.
Proof.
  assert (Hin : Demo.debtPending ∈ debts Demo.ledger).
  { apply list_elem_of_In. simpl. auto. }
  assert (Hdue : isBefore Demo.ledger (dueDate Demo.debtPending)
                   (clock Demo.ledger (ticks Demo.ledger)) = true)
    by reflexivity.
  split; [exact Hin|]. split; [reflexivity|]. split; [exact Hdue|].
  destruct (getAllDebts_reports_overdue Demo.ledger noFilters Demo.debtPending
              Hin eq_refl Hdue)
    as (reported & w' & Hrun & (_ & _ & Hds & _) & Hrep & Hadm & _ & Hnot & _).
  exists reported, w'. repeat split; auto.
Defined.

(* ===================================================================== *)
(** ** The sale                                                           *)
(* ===================================================================== *)

Lemma chosenVariant_Some (data : LineData) (vid : string) :
  chosenVariant data = Some vid ->
  JS.truthyOpt (selectedVariantId data) = true
  /\ JS.definedOr (selectedVariantId data) "" = vid.
Proof.
  unfold chosenVariant.
  destruct (JS.truthyOpt (selectedVariantId data)); [|done].
  intros ->. done.
Qed.

Lemma chosenVariant_None (data : LineData) :
  chosenVariant data = None -> JS.truthyOpt (selectedVariantId data) = false.
Proof.
  unfold chosenVariant.
  destruct (selectedVariantId data) as [s|]; [|done].
  cbn. by destruct (JS.truthy s).
Qed.

(** One turn of the loop, for a line whose stock the store holds as the
    form's copy shows it: the stored product loses the quantity sold, the
    other products are as before. *)
Lemma sellLine_shown
    (st : FormState) (w : World) (e : string * LineData)
    (held stored : Product) :
  findProduct (fst e) (form_products st) = Some held ->
  findProduct (fst e) (products w) = Some stored ->
  withinShown held (snd e) ->
  stockAsShown held stored (snd e) ->
  exists w' p',
    sellLine st e w = (Ok tt, w')
    /\ findProduct (fst e) (products w') = Some p'
    /\ decremented stored p' (snd e)
    /\ (forall pid, pid <> fst e ->
          findProduct pid (products w') = findProduct pid (products w)).
Proof.
  intros Hform Hstore [Hq Hstock] Hshown.
  apply findProduct_Some in Hstore as [i Hstore].
  unfold sellLine. rewrite Hform. unfold decremented.
  unfold stockAsShown in Hshown.
  destruct (chosenVariant (snd e)) as [vid|] eqn:Hchosen.
  - apply chosenVariant_Some in Hchosen as [-> ->].
    destruct Hstock as (v & Hv & Hle).
    destruct Hshown as (v0 & v' & Hv0 & Hv' & Hsame).
    assert (v0 = v) as -> by congruence. rewrite Hv.
    pose proof Hv' as Hfound. apply findVariant_Some in Hv' as [j Hj].
    destruct (updateVariantQuantity_run w (fst e) vid
                (variant_quantity v - quantity (snd e)) i stored j v'
                Hstore Hj)
      as (p' & w' & Hrun & Hvs & _ & _ & Hid & _ & Hps & _).
    exists w', p'. unfold bind. rewrite Hrun.
    split; [reflexivity|]. rewrite Hps.
    split; [eapply findProduct_insert_same; eauto|]. split.
    + exists v', (setQuantity v'
                    (Z.max 0 (variant_quantity v - quantity (snd e)))).
      split; [exact Hfound|].
      split; [eapply findVariant_setQuantity; eauto|].
      cbn. lia.
    + intros pid Hne. eapply findProduct_insert_other; eauto.
  - apply chosenVariant_None in Hchosen as ->.
    destruct Hshown as [Hmode Hsame].
    destruct (updateProduct_run w (fst e)
                (onlyStandaloneQuantity (totalQuantity held - quantity (snd e)))
                i stored Hstore)
      as (p' & w' & Hrun & Hps & Hhv & Hvs & Htot & _ & _ & Hid & _).
    exists w', p'. unfold bind. rewrite Hrun.
    split; [reflexivity|]. rewrite Hps.
    split; [eapply findProduct_insert_same; eauto|]. split.
    + rewrite Htot, Hhv, Hvs, Hsame. cbn [onlyStandaloneQuantity upd_hasVariants
        upd_variants upd_standaloneQuantity JS.definedOr].
      by apply calculateTotalQuantity_standalone.
    + intros pid Hne. eapply findProduct_insert_other; eauto.
Qed.

(** The loop of [handleSubmit] over such line items, on distinct products. *)
Lemma sellLines_shown (st : FormState) (entries : list (string * LineData)) :
  forall w,
    NoDup (fst <$> entries) ->
    Forall (lineAsShown (form_products st) (products w)) entries ->
    exists w',
      forEach (sellLine st) entries w = (Ok tt, w')
      /\ (forall pid, pid ∉ fst <$> entries ->
            findProduct pid (products w') = findProduct pid (products w))
      /\ Forall (lineSold (products w) (products w')) entries.
Proof.
  induction entries as [|e rest IH]; intros w Hnodup Hlines.
  - exists w. repeat split; auto.
  - rewrite fmap_cons in Hnodup. apply NoDup_cons in Hnodup as [Hfresh Hnodup].
    apply Forall_cons in Hlines
      as [(held & stored & Hform & Hstore & Hstock & Hshown) Hrest].
    destruct (sellLine_shown st w e held stored Hform Hstore Hstock Hshown)
      as (w1 & p' & Hrun & Hp' & Hdec & Hframe).
    assert (Hother : forall e', e' ∈ rest -> fst e' <> fst e).
    { intros e' Hin Heq. apply Hfresh. rewrite <- Heq.
      by apply list_elem_of_fmap_2. }
    assert (Hrest1 : Forall (lineAsShown (form_products st) (products w1))
                       rest).
    { apply Forall_forall. intros e' Hin. rewrite Forall_forall in Hrest.
      destruct (Hrest e' Hin) as (h & s & Hh & Hs & Hw & Hsh).
      exists h, s. rewrite (Hframe _ (Hother e' Hin)). auto. }
    destruct (IH w1 Hnodup Hrest1) as (w' & Hloop & Hframe' & Hsold).
    exists w'. cbn [forEach]. unfold bind at 1. rewrite Hrun.
    split; [exact Hloop|]. split.
    + intros pid Hpid. rewrite fmap_cons in Hpid.
      apply not_elem_of_cons in Hpid as [Hne Hpid].
      rewrite Hframe' by exact Hpid. by apply Hframe.
    + apply Forall_cons. split.
      * exists stored, p'. split; [exact Hstore|]. split; [|exact Hdec].
        rewrite Hframe' by exact Hfresh. exact Hp'.
      * apply Forall_forall. intros e' Hin. rewrite Forall_forall in Hsold.
        destruct (Hsold e' Hin) as (p & q & Hp & Hq & Hpq).
        exists p, q. rewrite <- (Hframe _ (Hother e' Hin)). auto.
Qed.

Lemma saleAmount_cons
    (ps : list Product) (e : string * LineData) (rest : list (string * LineData)) :
  saleAmount ps (e :: rest) = lineAmount ps e + saleAmount ps rest.
Proof. reflexivity. Qed.

Lemma calculateTotal_from
    (snapshot ps : list Product) (entries : list (string * LineData)) (acc : Z) :
  (forall pid, findProduct pid snapshot = findProduct pid ps) ->
  fold_left
    (fun sum e =>
       match findProduct (fst e) snapshot with
       | None => sum
       | Some product => sum + price product * quantity (snd e)
       end) entries acc
  = acc + saleAmount ps entries.
Proof.
  intros Hsame. revert acc.
  induction entries as [|e rest IH]; intros acc.
  - unfold saleAmount. cbn. lia.
  - cbn [fold_left]. rewrite IH, saleAmount_cons. unfold lineAmount.
    rewrite <- Hsame. destruct (findProduct (fst e) snapshot); lia.
Qed.

Lemma calculateTotal_saleAmount (st : FormState) (ps : list Product) :
  (forall pid, findProduct pid (form_products st) = findProduct pid ps) ->
  calculateTotal st = saleAmount ps (productQuantities st).
Proof.
  intros Hsame. unfold calculateTotal.
  by rewrite (calculateTotal_from _ ps _ 0 Hsame).
Qed.

Lemma calculateTotal_items_from
    (ps : list Product) (entries : list (string * LineData)) (acc : Z) :
  fold_left
    (fun sum e =>
       match findProduct (fst e) ps with
       | None => sum
       | Some product => sum + price product * quantity (snd e)
       end) entries acc
  = acc + itemsAmount
            (saleItems (mkFormState ps entries "" "")).
Proof.
  unfold itemsAmount, saleItems. cbn [productQuantities form_products].
  revert acc. induction entries as [|e entries IH]; intros acc.
  - cbn. lia.
  - cbn [fold_left omap list_omap]. rewrite IH.
    destruct (findProduct (fst e) ps) as [p|]; [|done].
    rewrite fmap_cons. cbn [foldr item_price item_quantity]. lia.
Qed.

(** The amount of a sale is the sum over the items that go with it. *)
Lemma calculateTotal_items (st : FormState) :
  calculateTotal st = itemsAmount (saleItems st).
Proof.
  unfold calculateTotal. rewrite calculateTotal_items_from. by destruct st.
Qed.

Lemma updateVariantQuantity_outcome (w : World) (pid vid : string) (q : Z) :
  (exists p' w',
      updateVariantQuantity pid vid q w = (Ok p', w')
      /\ transactions w' = transactions w)
  \/ (exists err,
        updateVariantQuantity pid vid q w = (Throw err, w)
        /\ catalogError err).
Proof.
  destruct (list_find (fun p => product_id p = pid) (products w))
    as [[i p]|] eqn:Hp.
  - destruct (list_find (fun v => variant_id v = vid) (variants p))
      as [[j v]|] eqn:Hv.
    + left. destruct (updateVariantQuantity_run w pid vid q i p j v Hp Hv)
        as (p' & w' & Hrun & _ & _ & _ & _ & _ & _ & Htxs & _).
      eauto.
    + right. exists VariantNotFound. split; [|by right].
      unfold updateVariantQuantity, getProducts. unfold bind at 1.
      by rewrite Hp, Hv.
  - right. exists ProductNotFound. split; [|by left].
    unfold updateVariantQuantity, getProducts. unfold bind at 1.
    by rewrite Hp.
Qed.

Lemma updateProduct_outcome (w : World) (pid : string) (u : ProductUpdates) :
  (exists p' w',
      updateProduct pid u w = (Ok p', w')
      /\ transactions w' = transactions w)
  \/ (exists err,
        updateProduct pid u w = (Throw err, w) /\ catalogError err).
Proof.
  destruct (list_find (fun p => product_id p = pid) (products w))
    as [[i p]|] eqn:Hp.
  - left. destruct (updateProduct_run w pid u i p Hp)
      as (p' & w' & Hrun & _ & _ & _ & _ & _ & _ & _ & _ & Htxs & _).
    eauto.
  - right. exists ProductNotFound. split; [|by left].
    unfold updateProduct, getProducts. unfold bind at 1. by rewrite Hp.
Qed.

Lemma sellLine_outcome (st : FormState) (e : string * LineData) (w : World) :
  (exists w', sellLine st e w = (Ok tt, w')
              /\ transactions w' = transactions w)
  \/ (exists err, sellLine st e w = (Throw err, w) /\ catalogError err).
Proof.
  unfold sellLine.
  destruct (findProduct (fst e) (form_products st)) as [p|]; [|left; eauto].
  destruct (JS.truthyOpt (selectedVariantId (snd e))).
  - destruct (findVariant _ p) as [v|]; [|left; eauto].
    unfold bind.
    destruct (updateVariantQuantity_outcome w (fst e)
                (JS.definedOr (selectedVariantId (snd e)) "")
                (variant_quantity v - quantity (snd e)))
      as [(p' & w' & -> & Htxs)|(err & -> & Herr)]; eauto.
  - unfold bind.
    destruct (updateProduct_outcome w (fst e)
                (onlyStandaloneQuantity (totalQuantity p - quantity (snd e))))
      as [(p' & w' & -> & Htxs)|(err & -> & Herr)]; eauto.
Qed.

Lemma sellLines_outcome (st : FormState) (entries : list (string * LineData)) :
  forall w,
    (exists w', forEach (sellLine st) entries w = (Ok tt, w')
                /\ transactions w' = transactions w)
    \/ (exists err w', forEach (sellLine st) entries w = (Throw err, w')
                       /\ catalogError err
                       /\ transactions w' = transactions w).
Proof.
  induction entries as [|e entries IH]; intros w; [left; eauto|].
  cbn [forEach]. unfold bind.
  destruct (sellLine_outcome st e w) as [(w1 & -> & Htxs)|(err & -> & Herr)].
  - destruct (IH w1) as [(w' & -> & Htxs')|(err & w' & -> & Herr & Htxs')].
    + left. exists w'. split; [done|congruence].
    + right. exists err, w'. split; [done|]. split; [done|congruence].
  - right. eauto.
Qed.

Lemma handleSubmit_nonempty (st : FormState) (w : World) :
  productQuantities st <> [] ->
  handleSubmit st w
  = match forEach (sellLine st) (productQuantities st) w with
    | (Ok _, w1) =>
        match
          addTransaction inflow (saleDescription st) (calculateTotal st) None
            (JS.orUndefined (Some (paymentMethod st))) (Some (saleItems st)) w1
        with
        | (Ok _, w') => (Ok (mkFormState (form_products st) [] "" ""), w')
        | (Throw err, w') => (Throw err, w')
        end
    | (Throw err, w1) => (Throw err, w1)
    end.
Proof.
  intros Hsome. unfold handleSubmit, handleSubmitWith.
  destruct (productQuantities st) as [|e rest]; [done|].
  cbn [length Nat.eqb]. unfold bind at 1.
  destruct (forEach (sellLine st) (e :: rest) w) as [[[]|err] w1]; [|done].
  unfold onAddTransaction.
  cbn [in_type in_description in_amount in_category in_paymentMethod
         in_items].
  unfold bind at 1. unfold bind at 1.
  by destruct (addTransaction _ _ _ _ _ _ w1) as [[tx|err] w'].
Qed.

(** C2, as the code has it.  Every completed sale of one or more line items
    records exactly one transaction, an inflow that carries the items of the
    sale and whose amount is the sum of price × quantity over the line
    items, at the prices of the form's copy of the products.  When the line
    items are on distinct products, each in a quantity above zero that the
    stock shown by the form's copy covers (the chosen variant's, or the
    product's when no variant is chosen), and the store still holds for
    each line the stock that the form's copy shows (the quantity of the
    chosen variant, or the total of the product, which the store does not
    hold in variant mode), the sale completes, and for every line item the
    stored quantity of the chosen variant, or the stored quantity of the
    product when no variant is chosen, is the former one less the quantity
    sold. *)
Theorem handleSubmit_completes_sale (w : World) (st : FormState) :
  productQuantities st <> [] ->
  (forall st' w',
      handleSubmit st w = (Ok st', w') ->
      productQuantities st' = []
      /\ exists tx,
           transactions w' = transactions w ++ [tx]
           /\ tx_type tx = inflow
           /\ tx_items tx = Some (saleItems st)
           /\ tx_amount tx = itemsAmount (saleItems st)
           /\ tx_amount tx
              = saleAmount (form_products st) (productQuantities st))
  /\ (NoDup (fst <$> productQuantities st) ->
      Forall (lineAsShown (form_products st) (products w))
        (productQuantities st) ->
      exists st' w',
        handleSubmit st w = (Ok st', w')
        /\ Forall (lineSold (products w) (products w')) (productQuantities st)).
Proof.
  intros Hsome. rewrite (handleSubmit_nonempty st w Hsome). split.
  - intros st' w'.
    destruct (sellLines_outcome st (productQuantities st) w)
      as [(w1 & -> & Htxs)|(err & w1 & -> & _ & _)]; [|discriminate].
    destruct (addTransaction_run w1 inflow (saleDescription st)
                (calculateTotal st) None
                (JS.orUndefined (Some (paymentMethod st)))
                (Some (saleItems st)))
      as (tx & w2 & -> & Htxs' & Hty & _ & Hamt & _ & _ & Hitems & _).
    intros [= <- <-]. split; [reflexivity|]. exists tx.
    split; [congruence|]. split; [exact Hty|]. split; [exact Hitems|].
    split; [by rewrite Hamt, calculateTotal_items|].
    rewrite Hamt. by apply calculateTotal_saleAmount.
  - intros Hnodup Hlines.
    destruct (sellLines_shown st (productQuantities st) w Hnodup Hlines)
      as (w1 & -> & _ & Hsold).
    destruct (addTransaction_run w1 inflow (saleDescription st)
                (calculateTotal st) None
                (JS.orUndefined (Some (paymentMethod st)))
                (Some (saleItems st)))
      as (tx & w2 & -> & _ & _ & _ & _ & _ & _ & _ & _ & _ & _ & Hps & _).
    eexists _, w2. split; [reflexivity|]. by rewrite Hps.
Qed.

Lemma handleSubmit_completes_sale_witness :
  productQuantities Demo.basket <> []
  /\ NoDup (fst <$> productQuantities Demo.basket)
  /\ Forall (lineAsShown (form_products Demo.basket) (products Demo.shop))
       (productQuantities Demo.basket)
  /\ exists st' w' tx,
       handleSubmit Demo.basket Demo.shop = (Ok st', w')
       /\ transactions w' = transactions Demo.shop ++ [tx]
       /\ tx_type tx = inflow
       /\ tx_amount tx = 61
       /\ Forall (lineSold (products Demo.shop) (products w'))
            (productQuantities Demo.basket).
Proof.
  assert (Hsome : productQuantities Demo.basket <> []) by discriminate.
  assert (Hnodup : NoDup (fst <$> productQuantities Demo.basket)).
  { cbn. apply NoDup_cons. split; [|apply NoDup_singleton].
    intros Hin. apply list_elem_of_singleton in Hin. discriminate Hin. }
  assert (Hlines : Forall (lineAsShown (form_products Demo.basket)
                             (products Demo.shop))
                     (productQuantities Demo.basket)).
  { apply Forall_cons. split; [|apply Forall_cons; split; [|constructor]].
    - exists Demo.shirt, Demo.shirt. split; [reflexivity|].
      split; [reflexivity|]. split.
      + split; [reflexivity|].
        exists Demo.shirtS. split; [reflexivity|]. cbn; lia.
      + exists Demo.shirtS, Demo.shirtS. by repeat split.
    - exists Demo.mug, Demo.mug. split; [reflexivity|].
      split; [reflexivity|]. split.
      + split; [reflexivity|]. cbn; lia.
      + split; [intros [Hm _]; discriminate Hm|reflexivity]. }
  split; [exact Hsome|]. split; [exact Hnodup|]. split; [exact Hlines|].
  destruct (handleSubmit_completes_sale Demo.shop Demo.basket Hsome)
    as [Hdone Hsold].
  destruct (Hsold Hnodup Hlines) as (st' & w' & Hrun & Hlinesold).
  destruct (Hdone st' w' Hrun) as (_ & tx & Htxs & Hty & _ & _ & Hamt).
  exists st', w', tx. split; [exact Hrun|]. split; [exact Htxs|].
  split; [exact Hty|]. split; [rewrite Hamt; reflexivity|exact Hlinesold].
Defined.

(** C2 as stated fails for a form that has not reloaded the catalog.  The
    form keeps the products it loaded when a sale is done.  Three mugs sold
    from a stock of twelve leave nine; three mugs chosen again on the same
    form, within the twelve that it shows and within the nine in store, are
    sold in a second completed sale, which records its inflow of 21 and
    writes twelve less three: the stored quantity is nine before and nine
    after. *)
Lemma second_sale_from_same_form_counterexample :
  let sold := handleSubmit Demo.threeMugsAgain Demo.shopAfterSale in
  fst (handleSubmit Demo.threeMugs Demo.shop) = Ok Demo.formAfterSale
  /\ formReachable (form_products Demo.formAfterSale) Demo.threeMugsAgain
  /\ productQuantities Demo.threeMugsAgain = [("p-mug", mkLineData 3 None)]
  /\ Forall (lineInStock (form_products Demo.threeMugsAgain))
       (productQuantities Demo.threeMugsAgain)
  /\ Forall (lineInStock (products Demo.shopAfterSale))
       (productQuantities Demo.threeMugsAgain)
  /\ fst sold = Ok (mkFormState [Demo.shirt; Demo.mug; Demo.cap] [] "" "")
  /\ ((fun t => (tx_type t, tx_amount t)) <$> transactions Demo.shopAfterSale)
     = [(inflow, 21)]
  /\ ((fun t => (tx_type t, tx_amount t)) <$> transactions (snd sold))
     = [(inflow, 21); (inflow, 21)]
  /\ (totalQuantity <$> findProduct "p-mug" (products Demo.shopAfterSale))
     = Some 9
  /\ (totalQuantity <$> findProduct "p-mug" (products (snd sold))) = Some 9
  /\ ~ Forall (lineSold (products Demo.shopAfterSale) (products (snd sold)))
         (productQuantities Demo.threeMugsAgain).
Proof.
  intros sold.
  assert (Hlines : productQuantities Demo.threeMugsAgain
                   = [("p-mug", mkLineData 3 None)])
    by (vm_compute; reflexivity).
  assert (Hheld : form_products Demo.threeMugsAgain
                  = [Demo.shirt; Demo.mug; Demo.cap])
    by (vm_compute; reflexivity).
  assert (Hbefore : findProduct "p-mug" (products Demo.shopAfterSale)
                    = Some (mkProduct "p-mug" "Mug" None None 7 9 false []
                              None "T2" "T1750000000000" (Some 9)))
    by (vm_compute; reflexivity).
  assert (Hafter : totalQuantity <$> findProduct "p-mug" (products (snd sold))
                   = Some 9)
    by (vm_compute; reflexivity).
  rewrite Hlines, Hheld.
  split; [vm_compute; reflexivity|]. split.
  { assert (Hloaded : form_products Demo.formAfterSale
                      = [Demo.shirt; Demo.mug; Demo.cap])
      by (vm_compute; reflexivity).
    rewrite Hloaded.
    assert (Hreset : Demo.formAfterSale
                     = mkFormState [Demo.shirt; Demo.mug; Demo.cap] [] "" "")
      by (vm_compute; reflexivity).
    unfold Demo.threeMugsAgain. rewrite Hreset.
    apply reach_card; [|by right; left].
    apply reach_card; [|by right; left].
    apply reach_card; [|by right; left].
    apply (reach_fields _ (mkFormState [Demo.shirt; Demo.mug; Demo.cap] []
                             "Efectivo" "") "" "").
    apply reach_mounted. }
  split; [reflexivity|]. split.
  { apply Forall_cons. split; [|constructor].
    exists Demo.mug. split; [reflexivity|]. split; [reflexivity|].
    split; [intros [Hm _]; discriminate Hm|]. cbn; lia. }
  split.
  { apply Forall_cons. split; [|constructor].
    eexists. split; [exact Hbefore|]. split; [reflexivity|].
    split; [intros [Hm _]; discriminate Hm|]. cbn; lia. }
  split; [vm_compute; reflexivity|]. split; [vm_compute; reflexivity|].
  split; [vm_compute; reflexivity|]. split; [by rewrite Hbefore|].
  split; [exact Hafter|].
  intros Hsold. apply Forall_cons in Hsold as [(p & p' & Hp & Hp' & Hdec) _].
  cbn [fst snd] in Hp, Hp', Hdec. rewrite Hbefore in Hp. injection Hp as <-.
  rewrite Hp' in Hafter. cbn [fmap option_fmap option_map] in Hafter.
  injection Hafter as Hnine.
  unfold decremented in Hdec. cbn in Hdec. lia.
Qed.

(** The example of the specification: two shirts of size S sold from a
    stock of five leave three, the total goes from eight to six, and the
    ledger gains one inflow of 40. *)
Example sale_of_two_shirts :
  let st := mkFormState [Demo.shirt] [("p-shirt", mkLineData 2 (Some "v-s"))]
              "Efectivo" "" in
  let w' := snd (handleSubmit st Demo.shop) in
  (variant_quantity <$> (findProduct "p-shirt" (products w')
                           ≫= findVariant "v-s")) = Some 3
  /\ (totalQuantity <$> findProduct "p-shirt" (products w')) = Some 6
  /\ ((fun t => (tx_type t, tx_amount t, tx_description t, tx_items t))
        <$> transactions w')
     = [(inflow, 40, "Venta: Shirt x2",
         Some [mkSaleItem "p-shirt" "Shirt" 2 (Some "S") 20])].
Proof. repeat split; vm_compute; reflexivity. Qed.

(* ===================================================================== *)
(** ** The form keeps its line items within stock                         *)
(* ===================================================================== *)

Section ObjectKeys.

Context {A : Type}.
Implicit Types (obj : list (string * A)) (key : string) (value : A).

Lemma elem_of_setKey obj key value (e : string * A) :
  e ∈ setKey key value obj -> e = (key, value) \/ e ∈ obj.
Proof.
  induction obj as [|[k v] obj IH]; cbn [setKey].
  - intros He. apply list_elem_of_singleton in He. by left.
  - destruct (decide (k = key)) as [->|Hne]; intros He;
      apply elem_of_cons in He as [->|He].
    + by left.
    + right. apply elem_of_cons. by right.
    + right. apply elem_of_cons. by left.
    + destruct (IH He) as [->|Hin]; [by left|].
      right. apply elem_of_cons. by right.
Qed.

Lemma setKey_keys obj key value :
  fst <$> setKey key value obj
  = if decide (key ∈ fst <$> obj) then fst <$> obj else (fst <$> obj) ++ [key].
Proof.
  induction obj as [|[k v] obj IH]; cbn [setKey].
  - rewrite decide_False; [done|]. apply not_elem_of_nil.
  - destruct (decide (k = key)) as [->|Hne].
    + rewrite decide_True; [done|]. rewrite fmap_cons. apply elem_of_cons. by left.
    + rewrite !fmap_cons, IH. cbn [fst].
      destruct (decide (key ∈ fst <$> obj)) as [Hin|Hout].
      * rewrite decide_True; [done|]. apply elem_of_cons. by right.
      * rewrite decide_False; [done|].
        intros Hin. apply elem_of_cons in Hin as [->|Hin]; done.
Qed.

Lemma setKey_NoDup obj key value :
  NoDup (fst <$> obj) -> NoDup (fst <$> setKey key value obj).
Proof.
  intros Hnd. rewrite setKey_keys.
  destruct (decide (key ∈ fst <$> obj)) as [Hin|Hout]; [done|].
  apply NoDup_app. split; [done|]. split; [|apply NoDup_singleton].
  intros k Hk Hk'. apply list_elem_of_singleton in Hk' as ->. done.
Qed.

Lemma deleteKey_NoDup obj key :
  NoDup (fst <$> obj) -> NoDup (fst <$> deleteKey key obj).
Proof.
  intros Hnd. unfold deleteKey.
  eapply sublist_NoDup; [exact Hnd|]. apply fmap_sublist, sublist_filter.
Qed.

Lemma elem_of_deleteKey obj key (e : string * A) :
  e ∈ deleteKey key obj -> e ∈ obj.
Proof. unfold deleteKey. rewrite list_elem_of_filter. tauto. Qed.

Lemma getKey_Some obj key value :
  getKey key obj = Some value -> (key, value) ∈ obj.
Proof.
  induction obj as [|[k v] obj IH]; cbn [getKey]; [done|].
  destruct (decide (k = key)) as [->|Hne].
  - intros [= ->]. apply elem_of_cons. by left.
  - intros Hget. apply elem_of_cons. right. by apply IH.
Qed.

End ObjectKeys.

Lemma findProduct_elem_of (ps : list Product) (p : Product) :
  NoDup (product_id <$> ps) -> p ∈ ps ->
  findProduct (product_id p) ps = Some p.
Proof.
  unfold findProduct. induction ps as [|a ps IH]; intros Hnd Hin.
  - by apply elem_of_nil in Hin.
  - rewrite fmap_cons in Hnd. apply NoDup_cons in Hnd as [Hfresh Hnd].
    cbn [list_find]. destruct (decide (product_id a = product_id p)) as [Heq|Hne].
    + apply elem_of_cons in Hin as [->|Hin]; [done|].
      exfalso. apply Hfresh. rewrite Heq. by apply list_elem_of_fmap_2.
    + apply elem_of_cons in Hin as [->|Hin]; [done|].
      specialize (IH Hnd Hin).
      destruct (list_find (fun q => product_id q = product_id p) ps)
        as [[i q]|]; [|done].
      exact IH.
Qed.

Lemma findVariant_elem_of (vid : string) (p : Product) (v : ProductVariant) :
  findVariant vid p = Some v -> v ∈ variants p.
Proof.
  intros Hv. apply findVariant_Some in Hv as [j Hj].
  apply find_lookup in Hj as [Hj _]. eapply list_elem_of_lookup_2, Hj.
Qed.

Lemma inVariantMode_bool (p : Product) :
  hasVariants p && (0 <? length (variants p))%nat = true <-> inVariantMode p.
Proof.
  unfold inVariantMode.
  destruct (hasVariants p), (variants p) as [|v vs]; cbn;
    split; try tauto; try discriminate; try (intros [? ?]; congruence).
  intros _. split; [reflexivity|discriminate].
Qed.

Section Form.

Variable ps : list Product.
Hypothesis ids : idsWellFormed ps.

Lemma card_line (st : FormState) (product : Product) (data : LineData) :
  linesWithinStock ps st -> product ∈ ps ->
  getKey (product_id product) (productQuantities st) = Some data ->
  withinStock product data.
Proof.
  intros (_ & _ & Hall) Hin Hget. apply getKey_Some in Hget.
  rewrite Forall_forall in Hall. destruct (Hall _ Hget) as (p & Hp & Hstock).
  cbn [fst snd] in Hp, Hstock.
  rewrite (findProduct_elem_of ps product (proj1 ids) Hin) in Hp.
  by injection Hp as <-.
Qed.

Lemma currentQuantity_nonneg (st : FormState) (product : Product) :
  linesWithinStock ps st -> product ∈ ps -> 0 <= currentQuantity st product.
Proof.
  intros Hst Hin. unfold currentQuantity.
  destruct (getKey (product_id product) (productQuantities st)) as [data|] eqn:Hget;
    [|done].
  destruct (card_line st product data Hst Hin Hget) as [Hq _]. lia.
Qed.

(** The variant that a card shows is the one its line item holds, or the
    first variant of a product in variant mode; a card without variant
    belongs to a product that is not in variant mode. *)
Lemma cardVariantId_chosen (st : FormState) (product : Product) (q : Z) :
  product ∈ ps ->
  match chosenVariant (mkLineData q (cardVariantId st product)) with
  | Some vid =>
      cardVariantId st product = Some vid
      /\ JS.truthy vid = true
      /\ forall data,
           getKey (product_id product) (productQuantities st) = Some data ->
           chosenVariant data = Some vid
           \/ (chosenVariant data = None /\ inVariantMode product)
  | None =>
      JS.truthyOpt (cardVariantId st product) = false
      /\ ~ inVariantMode product
      /\ forall data,
           getKey (product_id product) (productQuantities st) = Some data ->
           chosenVariant data = None
  end.
Proof.
  intros Hin. unfold chosenVariant at 1. cbn [selectedVariantId].
  destruct (JS.truthyOpt (cardVariantId st product)) eqn:Htruthy.
  - destruct (cardVariantId st product) as [vid|] eqn:Hcard; [|done].
    split; [done|]. split; [exact Htruthy|].
    intros data Hget. unfold cardVariantId in Hcard. rewrite Hget in Hcard.
    unfold chosenVariant.
    destruct (JS.truthyOpt (selectedVariantId data)); [left; exact Hcard|].
    right. split; [done|]. apply inVariantMode_bool.
    by destruct (hasVariants product && (0 <? length (variants product))%nat).
  - split; [done|]. unfold cardVariantId in Htruthy. split.
    + intros Hmode.
      destruct (JS.truthyOpt
                  match getKey (product_id product) (productQuantities st) with
                  | Some data => selectedVariantId data
                  | None => None
                  end) eqn:Hchosen; [congruence|].
      apply inVariantMode_bool in Hmode as Hb. rewrite Hb in Htruthy.
      destruct Hmode as [_ Hvs].
      destruct (variants product) as [|v vs] eqn:Hvariants; [done|].
      cbn in Htruthy.
      rewrite (proj2 ids product v Hin) in Htruthy; [done|].
      rewrite Hvariants. apply elem_of_cons. by left.
    + intros data Hget. rewrite Hget in Htruthy. unfold chosenVariant.
      destruct (JS.truthyOpt (selectedVariantId data)) eqn:Hsel; [|done].
      rewrite Hsel in Htruthy. congruence.
Qed.

Lemma within_setKey (st : FormState) (product : Product) (data : LineData) :
  linesWithinStock ps st -> product ∈ ps -> withinStock product data ->
  linesWithinStock ps (setProductQuantities st
            (setKey (product_id product) data (productQuantities st))).
Proof.
  intros (Hps & Hnd & Hall) Hin Hstock. split; [exact Hps|].
  cbn [productQuantities setProductQuantities]. split.
  - by apply setKey_NoDup.
  - apply Forall_forall. intros e He.
    apply elem_of_setKey in He as [->|He].
    + exists product. split; [|exact Hstock].
      apply findProduct_elem_of; [exact (proj1 ids)|exact Hin].
    + rewrite Forall_forall in Hall. by apply Hall.
Qed.

Lemma within_deleteKey (st : FormState) (key : string) :
  linesWithinStock ps st ->
  linesWithinStock ps (setProductQuantities st (deleteKey key (productQuantities st))).
Proof.
  intros (Hps & Hnd & Hall). split; [exact Hps|].
  cbn [productQuantities setProductQuantities]. split.
  - by apply deleteKey_NoDup.
  - apply Forall_forall. intros e He. apply elem_of_deleteKey in He.
    rewrite Forall_forall in Hall. by apply Hall.
Qed.

Lemma within_updateProductQuantity
    (st : FormState) (product : Product) (q : Z) (vid : option string) :
  linesWithinStock ps st -> product ∈ ps ->
  (q <> 0 -> withinStock product (mkLineData q vid)) ->
  linesWithinStock ps (updateProductQuantity st (product_id product) q vid).
Proof.
  intros Hst Hin Hstock. unfold updateProductQuantity.
  destruct (q =? 0) eqn:Hq.
  - by apply within_deleteKey.
  - apply within_setKey; [done|done|]. apply Hstock. by apply Z.eqb_neq.
Qed.

Lemma within_onCardEvent (st : FormState) (product : Product) (ev : CardEvent) :
  linesWithinStock ps st -> product ∈ ps ->
  linesWithinStock ps (onCardEvent st product ev).
Proof.
  intros Hst Hin. unfold onCardEvent.
  pose proof (currentQuantity_nonneg st product Hst Hin) as Hcur.
  destruct ev as [| |variantId].
  - (* the minus button *)
    destruct (currentQuantity st product =? 0) eqn:Hzero; [exact Hst|].
    apply Z.eqb_neq in Hzero.
    apply within_updateProductQuantity; [done|done|]. intros Hq.
    assert (Hget : exists data,
               getKey (product_id product) (productQuantities st) = Some data
               /\ quantity data = currentQuantity st product).
    { unfold currentQuantity in *.
      destruct (getKey (product_id product) (productQuantities st)) as [data|];
        [eauto|done]. }
    destruct Hget as (data & Hget & Hdata).
    destruct (card_line st product data Hst Hin Hget) as [Hpos Hstock].
    pose proof (cardVariantId_chosen st product
                  (Z.max 0 (currentQuantity st product - 1)) Hin) as Hcard.
    split; [cbn [quantity]; lia|]. cbn [quantity].
    destruct (chosenVariant
                (mkLineData (Z.max 0 (currentQuantity st product - 1))
                   (cardVariantId st product))) as [vid|].
    + destruct Hcard as (_ & _ & Hsame).
      destruct (Hsame data Hget) as [Hsome|[Hnone Hmode]].
      * rewrite Hsome in Hstock. destruct Hstock as (v & Hv & Hle).
        exists v. split; [exact Hv|]. lia.
      * rewrite Hnone in Hstock. by destruct Hstock.
    + destruct Hcard as (_ & Hmode & Hsame). split; [exact Hmode|].
      rewrite (Hsame data Hget) in Hstock. lia.
  - (* the plus button *)
    destruct ((getMaxStock product (cardVariantId st product)
               <=? currentQuantity st product)
              || (getMaxStock product (cardVariantId st product) =? 0))
      eqn:Hdisabled; [exact Hst|].
    apply orb_false_iff in Hdisabled as [Hmax _]. apply Z.leb_gt in Hmax.
    apply within_updateProductQuantity; [done|done|]. intros _.
    pose proof (cardVariantId_chosen st product
                  (currentQuantity st product + 1) Hin) as Hcard.
    split; [cbn [quantity]; lia|]. cbn [quantity].
    unfold getMaxStock in Hmax.
    destruct (chosenVariant
                (mkLineData (currentQuantity st product + 1)
                   (cardVariantId st product))) as [vid|].
    + destruct Hcard as (Hvid & Htruthy & _). rewrite Hvid in Hmax.
      cbn [JS.truthyOpt JS.definedOr] in Hmax. rewrite Htruthy in Hmax.
      destruct (findVariant vid product) as [v|]; [|lia].
      exists v. split; [reflexivity|]. lia.
    + destruct Hcard as (Hfalsy & Hmode & _). rewrite Hfalsy in Hmax.
      split; [exact Hmode|]. lia.
  - (* the variant selector *)
    destruct (hasVariants product && (0 <? length (variants product))%nat);
      [|exact Hst].
    unfold updateProductVariant. destruct Hst as (Hps & Hnd & Hall).
    rewrite Hps, (findProduct_elem_of ps product (proj1 ids) Hin).
    destruct (findVariant variantId product) as [variant|] eqn:Hvariant;
      [|by repeat split].
    destruct (0 <? variant_quantity variant) eqn:Hstocked; [|by repeat split].
    apply Z.ltb_lt in Hstocked.
    apply within_setKey; [by repeat split|done|].
    split; [cbn; lia|]. unfold chosenVariant. cbn [selectedVariantId quantity].
    assert (Htruthy : JS.truthy variantId = true).
    { rewrite <- (findVariant_id _ _ _ Hvariant).
      apply (proj2 ids product variant Hin).
      by eapply findVariant_elem_of. }
    cbn [JS.truthyOpt]. rewrite Htruthy.
    exists variant. split; [exact Hvariant|]. lia.
Qed.

Lemma reachable_within_stock (st : FormState) :
  formReachable ps st -> linesWithinStock ps st.
Proof.
  induction 1 as [|st product ev _ IH Hin|st method term _ IH].
  - split; [reflexivity|]. split; [apply NoDup_nil_2|constructor].
  - by apply within_onCardEvent.
  - exact IH.
Qed.

End Form.

(** X20.  Let the form have loaded products whose ids are distinct and whose
    variants all have a non-empty id.  Then every state that the form
    reaches through the controls of its product cards, its search box and
    its payment selector keeps its line items on distinct products, each in
    a quantity above zero that the stock of the products it loaded covers:
    the stock of the chosen variant, or of the product when it is not in
    variant mode. *)
Lemma formReachable_within_stock (ps : list Product) (st : FormState) :
  idsWellFormed ps -> formReachable ps st -> linesWithinStock ps st.
Proof. intros ids. by apply reachable_within_stock. Qed.

(* ===================================================================== *)
(** ** The form loads the catalog as stored                               *)
(* ===================================================================== *)

Lemma findProduct_None (pid : string) (ps : list Product) :
  findProduct pid ps = None <-> forall p, p ∈ ps -> product_id p <> pid.
Proof.
  unfold findProduct.
  destruct (list_find (fun p => product_id p = pid) ps) as [[i p]|] eqn:Hfind.
  - split; [done|]. intros Hnone. apply find_lookup in Hfind as [Hi Hp].
    destruct (Hnone p); [|done]. eapply list_elem_of_lookup_2, Hi.
  - split; [|done]. intros _. apply list_find_None in Hfind.
    rewrite Forall_forall in Hfind. exact Hfind.
Qed.

(** Looking a product up by id does not depend on the order of a catalog
    whose ids are distinct. *)
Lemma findProduct_perm (pid : string) (ps ps' : list Product) :
  NoDup (product_id <$> ps) -> ps ≡ₚ ps' ->
  findProduct pid ps = findProduct pid ps'.
Proof.
  intros Hnd Hperm.
  assert (Hnd' : NoDup (product_id <$> ps')) by (by rewrite <- Hperm).
  destruct (findProduct pid ps) as [p|] eqn:Hfind.
  - pose proof (findProduct_id _ _ _ Hfind) as <-.
    apply findProduct_Some in Hfind as [i Hfind].
    apply find_lookup in Hfind as [Hi _].
    symmetry. apply findProduct_elem_of; [exact Hnd'|].
    rewrite <- Hperm. eapply list_elem_of_lookup_2, Hi.
  - symmetry. apply findProduct_None. intros p Hin.
    apply (proj1 (findProduct_None pid ps) Hfind). by rewrite Hperm.
Qed.

(** X21.  Mounting the form: on a catalog whose ids are distinct,
    [loadProducts] reads the whole catalog, writes nothing, keeps the line
    items, and every id then finds in the form the product that it finds in
    the store. *)
Lemma loadProducts_agrees (w : World) (st : FormState) :
  NoDup (product_id <$> products w) ->
  exists st' w',
    loadProducts st w = (Ok st', w')
    /\ products w' = products w
    /\ productQuantities st' = productQuantities st
    /\ form_products st' ≡ₚ products w
    /\ forall pid, findProduct pid (form_products st') = findProduct pid (products w').
Proof.
  intros Hnd. unfold loadProducts, getAllProducts. run. cbn.
  eexists _, _. split; [reflexivity|]. cbn.
  split; [reflexivity|]. split; [reflexivity|]. split; [apply sort_perm|].
  intros pid. symmetry. apply findProduct_perm; [exact Hnd|].
  symmetry. apply sort_perm.
Qed.

(* ===================================================================== *)
(** ** The example of a settled payable                                   *)
(* ===================================================================== *)

(** A payable of 100 to Acme, due before the clock reading, is overdue as
    soon as it is created; [markAsPaid] then stores it as paid, linked to
    the one transaction of the ledger, an outflow of 100. *)
Example payable_created_overdue_then_paid :
  let created := createDebt payable "Acme" 100 "Invoice" "2024-01-01" None None
                   Demo.empty in
  let settled := markAsPaid "1750000000000_r0" (snd created) in
  (status <$> debts (snd created)) = [overdue]
  /\ ((fun d => (status d, linkedTransactionId d)) <$> debts (snd settled))
     = [(paid, Some "1750000000003_r1")]
  /\ ((fun t => (tx_id t, tx_type t, tx_amount t, tx_description t))
        <$> transactions (snd settled))
     = [("1750000000003_r1", outflow, 100, "Pago: Acme - Invoice")].
Proof. repeat split; vm_compute; reflexivity. Qed.

(* ===================================================================== *)
(** ** What a call writes                                                 *)
(* ===================================================================== *)

Lemma announced_app (ks1 ks2 : list StorageKey) :
  announced (ks1 ++ ks2) = announced ks1 ++ announced ks2.
Proof. induction ks1 as [|k ks1 IH]; [done|]. cbn. by rewrite IH. Qed.

Lemma wrote_nothing (w w' : World) : nothingWritten w w' -> wrote [] w w'.
Proof.
  intros (Htxs & Hbs & Hds & Hps & Htr & Hhost). unfold wrote.
  rewrite Htr, Htxs, Hbs, Hds, Hps. cbn [announced]. rewrite app_nil_r.
  split; [done|]. split; [done|]. by repeat (split; [done|]).
Qed.

Lemma wrote_trans (ks1 ks2 : list StorageKey) (w w1 w2 : World) :
  wrote ks1 w w1 -> wrote ks2 w1 w2 -> wrote (ks1 ++ ks2) w w2.
Proof.
  intros (Htr1 & Hpre1 & Ht1 & Hb1 & Hd1 & Hp1 & Hh1)
         (Htr2 & Hpre2 & Ht2 & Hb2 & Hd2 & Hp2 & Hh2).
  unfold wrote. rewrite Htr2, Htr1, announced_app, app_assoc.
  split; [done|]. split; [by etrans|].
  split; [intros [? ?]%not_elem_of_app; by rewrite Ht2, Ht1|].
  split; [intros [? ?]%not_elem_of_app; by rewrite Hb2, Hb1|].
  split; [intros [? ?]%not_elem_of_app; by rewrite Hd2, Hd1|].
  split; [intros [? ?]%not_elem_of_app; by rewrite Hp2, Hp1|].
  destruct Hh1 as (?&?&?&?), Hh2 as (?&?&?&?).
  unfold sameHost. repeat split; congruence.
Qed.

(** Closes [wrote ks w w'] when [w'] is computed from [w]. *)
Ltac kept_or_written :=
  first [ intros _; reflexivity
        | intros Hk; exfalso; apply Hk; repeat constructor ].

(** Closes [ks ⊆ ks'] on explicit lists of keys. *)
Ltac keys_within :=
  let k := fresh "k" in
  let Hk := fresh "Hk" in
  intros k Hk;
  repeat (apply elem_of_cons in Hk as [->|Hk]; [repeat constructor|]);
  by apply elem_of_nil in Hk.

Ltac wrote_by_run :=
  unfold wrote, sameHost; run; cbn [announced];
  split; [by rewrite <- ?app_assoc, ?app_nil_r|];
  split; [first [reflexivity | by apply prefix_app_r]|];
  split; [kept_or_written|]; split; [kept_or_written|];
  split; [kept_or_written|]; split; [kept_or_written|];
  repeat split; reflexivity.

Lemma addTransaction_wrote
    (w : World) (type : TransactionType) (description : string) (amount : Z)
    (category paymentMethod : option string) (items : option (list SaleItem)) :
  wrote [TRANSACTIONS] w
    (snd (addTransaction type description amount category paymentMethod items w)).
Proof. unfold addTransaction. wrote_by_run. Qed.

Lemma bills_wrote (w : World) :
  (forall name amount due frequency category notes,
      wrote [BILLS] w
        (snd (createBill name amount due frequency category notes w)))
  /\ (forall id u, exists ks,
        wrote ks w (snd (updateBill id u w)) /\ ks ⊆ [BILLS])
  /\ (forall id, wrote [BILLS] w (snd (deleteBill id w)))
  /\ (forall id flag, exists ks,
        wrote ks w (snd (toggleBillPaid id flag w))
        /\ ks ⊆ [BILLS; TRANSACTIONS]).
Proof.
  split; [|split; [|split]].
  - intros. unfold createBill. wrote_by_run.
  - intros id u. unfold updateBill, getBills. unfold bind at 1.
    destruct (list_find (fun b => bill_id b = id) (bills w)) as [[i b]|].
    + exists [BILLS]. split; [wrote_by_run|done].
    + exists []. split; [wrote_by_run|keys_within].
  - intros. unfold deleteBill. wrote_by_run.
  - intros id flag. unfold toggleBillPaid, getBills. unfold bind at 1.
    destruct (list_find (fun b => bill_id b = id) (bills w)) as [[i b]|].
    + destruct (negb (isPaid b) && flag).
      * exists [BILLS; TRANSACTIONS]. split; [|done].
        unfold addTransaction. wrote_by_run.
      * exists [BILLS]. split; [wrote_by_run|keys_within].
    + exists []. split; [wrote_by_run|keys_within].
Qed.

Lemma getTransactionsWithFilters_reads
    (w : World) (endOfDay : string -> option string)
    (filters : TransactionFilters) :
  snd (getTransactionsWithFilters endOfDay filters w) = w.
Proof.
  unfold getTransactionsWithFilters, getTransactions. unfold bind at 1.
  unfold bind at 1.
  destruct (JS.truthyOpt (query_endDate filters)); [|by destruct w].
  destruct (if JS.truthyOpt (query_startDate filters) then _ else _)
    as [|t ts]; [by destruct w|].
  destruct (endOfDay _); by destruct w.
Qed.

Lemma debts_wrote (op : DebtOp) (w : World) :
  exists ks, wrote ks w (afterDebtOp op w) /\ ks ⊆ mayWrite (CallDebt op).
Proof.
  destruct op as [f|id|ty cp amt ds due cat notes|id u|id|id|];
    cbn [afterDebtOp mayWrite].
  - exists []. split; [|keys_within].
    destruct (getAllDebts_run w f) as (w' & -> & Hw & _). by apply wrote_nothing.
  - exists []. split; [|keys_within]. unfold getDebtById. wrote_by_run.
  - exists [DEBTS]. split; [|keys_within]. unfold createDebt. wrote_by_run.
  - unfold updateDebt, getDebts. unfold bind at 1.
    destruct (list_find (fun d => debt_id d = id) (debts w)) as [[i d]|].
    + exists [DEBTS]. split; [|keys_within].
      destruct (JS.truthyOpt (upd_dueDate u)
                && bool_decide (status (mergeDebt d u) = pending));
        wrote_by_run.
    + exists []. split; [wrote_by_run|keys_within].
  - exists [DEBTS]. split; [|keys_within]. unfold deleteDebt. wrote_by_run.
  - unfold markAsPaid, markAsPaidVia, getDebts. unfold bind at 1.
    destruct (list_find (fun d => debt_id d = id) (debts w)) as [[i d]|].
    + destruct (bool_decide (status d = paid)).
      * exists []. split; [wrote_by_run|keys_within].
      * exists [TRANSACTIONS; DEBTS]. split; [|keys_within].
        unfold addTransaction. wrote_by_run.
    + exists []. split; [wrote_by_run|keys_within].
  - exists []. split; [|keys_within].
    destruct (getDebtStats_run w) as (s & w' & -> & Hw). by apply wrote_nothing.
Qed.

Lemma createProduct_wrote
    (w : World) (name : string) (price : Z)
    (description image category : option string)
    (hv : option bool) (vs : option (list VariantInput)) (sq : option Z) :
  wrote [PRODUCTS] w
    (snd (createProduct name price description image category hv vs sq w)).
Proof.
  unfold createProduct, getProducts. unfold bind at 1. unfold bind at 1.
  destruct (createProduct_variants (JS.definedOr vs []) w)
    as (pvs & w1 & -> & _ & Hw1).
  apply (wrote_trans [] [PRODUCTS] w w1); [by apply wrote_nothing|].
  wrote_by_run.
Qed.

Lemma products_wrote (w : World) :
  (forall f, wrote [] w (snd (getAllProducts f w)))
  /\ (forall pid u, exists ks,
        wrote ks w (snd (updateProduct pid u w)) /\ ks ⊆ [PRODUCTS])
  /\ (forall pid, wrote [PRODUCTS] w (snd (deleteProduct pid w)))
  /\ (forall pid vid q, exists ks,
        wrote ks w (snd (updateVariantQuantity pid vid q w))
        /\ ks ⊆ [PRODUCTS])
  /\ (forall pid, wrote [] w (snd (getProductById pid w)))
  /\ wrote [] w (snd (getCategories w)).
Proof.
  split; [|split; [|split; [|split; [|split]]]].
  - intros f. unfold getAllProducts. wrote_by_run.
  - intros pid u. unfold updateProduct, getProducts. unfold bind at 1.
    destruct (list_find (fun p => product_id p = pid) (products w)) as [[i p]|].
    + exists [PRODUCTS]. split; [wrote_by_run|keys_within].
    + exists []. split; [wrote_by_run|keys_within].
  - intros pid. unfold deleteProduct. wrote_by_run.
  - intros pid vid q. unfold updateVariantQuantity, getProducts.
    unfold bind at 1.
    destruct (list_find (fun p => product_id p = pid) (products w)) as [[i p]|].
    + destruct (list_find (fun v => variant_id v = vid) (variants p))
        as [[j v]|].
      * exists [PRODUCTS]. split; [wrote_by_run|keys_within].
      * exists []. split; [wrote_by_run|keys_within].
    + exists []. split; [wrote_by_run|keys_within].
  - intros pid. unfold getProductById. wrote_by_run.
  - unfold getCategories. wrote_by_run.
Qed.

(** Every call writes keys among those of [mayWrite], each write announced,
    and nothing else. *)
Lemma afterOp_wrote (op : ServiceOp) (w : World) :
  exists ks, wrote ks w (afterOp op w) /\ ks ⊆ mayWrite op.
Proof.
  destruct (bills_wrote w) as (Hcreate & Hupdate & Hdelete & Htoggle).
  destruct (products_wrote w) as (Hall & Hupd & Hdel & Hvar & Hget & Hcat).
  destruct op as [ty ds amt cat pm its|eod f| |nm amt due fr cat nt|id u|id
                  |id flag|op|f|nm pr ds im cat hv vs sq|pid u|pid|pid vid q
                  |pid| ];
    cbn [afterOp].
  - eexists. split; [apply addTransaction_wrote|keys_within].
  - exists []. rewrite getTransactionsWithFilters_reads.
    split; [apply wrote_nothing, nothingWritten_refl|keys_within].
  - exists []. split; [|keys_within]. apply wrote_nothing, nothingWritten_refl.
  - eexists. split; [apply Hcreate|keys_within].
  - apply Hupdate.
  - eexists. split; [apply Hdelete|keys_within].
  - apply Htoggle.
  - apply debts_wrote.
  - eexists. split; [apply Hall|keys_within].
  - eexists. split; [apply createProduct_wrote|keys_within].
  - apply Hupd.
  - eexists. split; [apply Hdel|keys_within].
  - apply Hvar.
  - eexists. split; [apply Hget|keys_within].
  - eexists. split; [apply Hcat|keys_within].
Qed.

Lemma afterOps_snoc (ops : list ServiceOp) (op : ServiceOp) (w : World) :
  afterOps (ops ++ [op]) w = afterOp op (afterOps ops w).
Proof. unfold afterOps. by rewrite foldl_app. Qed.

(** X1.  The ledger is append-only: whatever calls are made to the three
    services, in whatever order and whether they return or throw, the
    transactions recorded before are a prefix of the ledger afterwards, so
    each of them is still there, unchanged, at its place. *)
Theorem ledger_is_append_only (ops : list ServiceOp) (w : World) :
  transactions w `prefix_of` transactions (afterOps ops w)
  /\ forall i t,
       transactions w !! i = Some t ->
       transactions (afterOps ops w) !! i = Some t.
Proof.
  assert (Hprefix : transactions w `prefix_of` transactions (afterOps ops w)).
  { induction ops as [|op ops IH] using rev_ind; [done|].
    rewrite afterOps_snoc.
    destruct (afterOp_wrote op (afterOps ops w)) as (ks & (_ & Hgrow & _) & _).
    by etrans. }
  split; [exact Hprefix|].
  intros i t Hi. destruct Hprefix as [more ->]. by apply lookup_app_l_Some.
Qed.

(** X2.  No write goes unannounced: over any sequence of calls the trace
    grows by writes of storage keys, each one followed at once by the
    storage event of its key. *)
Theorem writes_are_announced (ops : list ServiceOp) (w : World) :
  exists ks, trace (afterOps ops w) = trace w ++ announced ks.
Proof.
  induction ops as [|op ops IH] using rev_ind.
  - exists []. cbn. by rewrite app_nil_r.
  - destruct IH as [ks IH]. rewrite afterOps_snoc.
    destruct (afterOp_wrote op (afterOps ops w)) as (ks' & (Htrace & _) & _).
    exists (ks ++ ks'). by rewrite Htrace, IH, announced_app, app_assoc.
Qed.

(** X3.  A call writes its own collections only: a collection outside
    [mayWrite] is the same after the call as before, whether the call
    returns or throws.  So the catalog calls leave the ledger, the bills and
    the debts alone, the debt calls leave the bills and the catalog alone
    and only [markAsPaid] reaches the ledger, the bill calls leave the debts
    and the catalog alone and only [toggleBillPaid] reaches the ledger, and
    the calls that read write nothing. *)
Theorem calls_write_their_own_collections (op : ServiceOp) (w : World) :
  (TRANSACTIONS ∉ mayWrite op -> transactions (afterOp op w) = transactions w)
  /\ (BILLS ∉ mayWrite op -> bills (afterOp op w) = bills w)
  /\ (DEBTS ∉ mayWrite op -> debts (afterOp op w) = debts w)
  /\ (PRODUCTS ∉ mayWrite op -> products (afterOp op w) = products w)
  /\ (mayWrite op = [] -> trace (afterOp op w) = trace w).
Proof.
  destruct (afterOp_wrote op w)
    as (ks & (Htrace & _ & Htxs & Hbs & Hds & Hps & _) & Hks).
  repeat split; intros Hout.
  - apply Htxs. intros Hin. by apply Hout, Hks.
  - apply Hbs. intros Hin. by apply Hout, Hks.
  - apply Hds. intros Hin. by apply Hout, Hks.
  - apply Hps. intros Hin. by apply Hout, Hks.
  - rewrite Hout in Hks. destruct ks as [|k ks].
    + rewrite Htrace. cbn. by rewrite app_nil_r.
    + exfalso. eapply elem_of_nil, Hks. by left.
Qed.

Lemma calls_write_their_own_collections_witness :
  (TRANSACTIONS ∉ mayWrite (CallUpdateVariantQuantity "p-shirt" "v-s" 2))
  /\ transactions
       (afterOp (CallUpdateVariantQuantity "p-shirt" "v-s" 2) Demo.shop)
     = transactions Demo.shop.
Proof.
  assert (Hout : TRANSACTIONS ∉ mayWrite
                   (CallUpdateVariantQuantity "p-shirt" "v-s" 2)).
  { cbn. intros Hin. apply list_elem_of_singleton in Hin. discriminate. }
  split; [exact Hout|].
  destruct (calls_write_their_own_collections
              (CallUpdateVariantQuantity "p-shirt" "v-s" 2) Demo.shop)
    as [Hledger _].
  exact (Hledger Hout).
Defined.

(* ===================================================================== *)
(** ** Lists as they are reported                                         *)
(* ===================================================================== *)

Section Sorting.

Context {A : Type} (cmp : A -> A -> Z) (ok : A -> Prop).
Hypothesis cmp_total :
  forall a b, ok a -> ok b -> cmp a b <= 0 \/ cmp b a <= 0.
Hypothesis cmp_trans :
  forall a b c, ok a -> ok b -> ok c ->
                cmp a b <= 0 -> cmp b c <= 0 -> cmp a c <= 0.

Lemma sortInsert_sorted (x : A) (l : list A) :
  ok x -> Forall ok l ->
  StronglySorted (fun a b => cmp a b <= 0) l ->
  StronglySorted (fun a b => cmp a b <= 0) (sortInsert cmp x l).
Proof.
  intros Hx Hl Hsorted. induction Hsorted as [|y l Hsorted IH Hy].
  - cbn. apply SSorted_cons; [constructor|constructor].
  - apply Forall_cons in Hl as [Hoky Hl]. cbn [sortInsert].
    destruct (cmp x y <=? 0) eqn:Hxy.
    + apply Z.leb_le in Hxy. apply SSorted_cons.
      * by apply SSorted_cons.
      * apply Forall_cons. split; [exact Hxy|].
        rewrite Forall_forall in Hy, Hl. apply Forall_forall. intros z Hz.
        apply (cmp_trans x y z); auto.
    + apply Z.leb_gt in Hxy. apply SSorted_cons; [by apply IH|].
      rewrite sortInsert_perm. apply Forall_cons. split; [|exact Hy].
      destruct (cmp_total x y Hx Hoky); [lia|done].
Qed.

Lemma sort_sorted (l : list A) :
  Forall ok l -> StronglySorted (fun a b => cmp a b <= 0) (sort cmp l).
Proof.
  induction l as [|x l IH]; intros Hl; [constructor|].
  apply Forall_cons in Hl as [Hx Hl]. cbn [sort].
  apply sortInsert_sorted; [done| |by apply IH].
  by rewrite sort_perm.
Qed.

End Sorting.

Lemma StronglySorted_among {A : Type} (R R' : A -> A -> Prop) (l : list A) :
  (forall a b, a ∈ l -> b ∈ l -> R a b -> R' a b) ->
  StronglySorted R l -> StronglySorted R' l.
Proof.
  intros Himpl Hsorted. induction Hsorted as [|x l Hsorted IH Hx].
  - constructor.
  - apply SSorted_cons.
    + apply IH. intros a b Ha Hb. apply Himpl; by apply elem_of_cons; right.
    + rewrite Forall_forall in Hx. apply Forall_forall. intros y Hy.
      apply Himpl; [by apply elem_of_cons; left|by apply elem_of_cons; right|].
      by apply Hx.
Qed.

(** Sorting by [newestFirst] puts the entries whose dates parse in the order
    of their dates, the most recent first. *)
Lemma sort_newestFirst {A : Type} (w : World) (date : A -> string) (l : list A) :
  Forall (fun a => is_Some (parseDate w (date a))) l ->
  StronglySorted (fun a b => atLeastAsRecent w (date a) (date b))
    (sort (fun a b => newestFirst w (date a) (date b)) l).
Proof.
  intros Hl.
  pose proof (sort_sorted (fun a b => newestFirst w (date a) (date b))
                (fun a => is_Some (parseDate w (date a)))) as Hsorted.
  assert (Hok : Forall (fun a => is_Some (parseDate w (date a)))
                  (sort (fun a b => newestFirst w (date a) (date b)) l))
    by (by rewrite sort_perm).
  eapply StronglySorted_among; [|apply Hsorted; [..|exact Hl]].
  - intros a b Ha Hb Hab. rewrite Forall_forall in Hok.
    destruct (Hok a Ha) as [ta Hta], (Hok b Hb) as [tb Htb].
    exists ta, tb. unfold newestFirst in Hab. rewrite Hta, Htb in Hab.
    repeat split; auto. lia.
  - intros a b [ta Hta] [tb Htb]. unfold newestFirst. rewrite Hta, Htb. lia.
  - intros a b c [ta Hta] [tb Htb] [tc Htc]. unfold newestFirst.
    rewrite Hta, Htb, Htc. lia.
Qed.

Lemma truthy_nonempty (s : string) : JS.truthy s = true <-> s <> "".
Proof. destruct s; cbn; split; intros; congruence. Qed.

Lemma forall_Some {A : Type} (o : option A) (P : A -> Prop) :
  (forall x, o = Some x -> P x) <-> match o with Some x => P x | None => True end.
Proof.
  destruct o as [x|]; split; intros H; auto.
  - intros y [= <-]. exact H.
  - intros y Hy. discriminate Hy.
Qed.

Lemma passes_debtMatches (filters : DebtFilters) (e : DebtEntry) :
  passes filters e <-> debtMatches filters e.
Proof.
  unfold passes, debtMatches, applyFilters. rewrite !forall_Some.
  destruct filters as [ft fs fterm]; cbn [filter_type filter_status
    filter_searchTerm].
  assert (Hsearch :
            forall l : list DebtEntry,
              e ∈ (if JS.truthyOpt fterm
                   then filter (fun d => matchesSearch
                                  (JS.toLowerCase (JS.definedOr fterm "")) d
                                = true) l
                   else l)
              <-> e ∈ l /\ match fterm with
                           | Some term =>
                               term <> "" ->
                               matchesSearch (JS.toLowerCase term) e = true
                           | None => True
                           end).
  { intros l. destruct fterm as [term|]; cbn [JS.truthyOpt JS.definedOr];
      [|tauto].
    destruct (JS.truthy term) eqn:Hterm.
    - apply truthy_nonempty in Hterm. rewrite list_elem_of_filter. tauto.
    - assert (term = "") as -> by (destruct term; [done|discriminate]).
      tauto. }
  rewrite Hsearch.
  destruct ft as [t|], fs as [s|];
    rewrite ?list_elem_of_filter, ?list_elem_of_singleton; tauto.
Qed.

Lemma refreshOverdue_createdAt (w : World) (now : Z) (d : DebtEntry) :
  debt_createdAt (refreshOverdue w now d) = debt_createdAt d.
Proof. unfold refreshOverdue. by destruct (_ && _). Qed.

Lemma length_sort {A : Type} (cmp : A -> A -> Z) (l : list A) :
  length (sort cmp l) = length l.
Proof. by rewrite sort_perm. Qed.

Lemma length_applyFilters (filters : DebtFilters) (l : list DebtEntry) :
  (length (applyFilters filters l) <= length l)%nat.
Proof.
  unfold applyFilters.
  destruct (filter_type filters), (filter_status filters),
    (JS.truthyOpt (filter_searchTerm filters));
    repeat (etrans; [apply length_filter|]); done.
Qed.

(** X4.  [getAllDebts] reports exactly the stored debts, each with its status
    refreshed against the clock, that meet every filter given: the type, the
    status (the refreshed one) and the search term, compared in lower case.
    It reports no more entries than are stored, and when the creation dates
    of the stored debts parse, the most recently created come first. *)
Theorem getAllDebts_lists_matching_newest_first
    (w : World) (filters : DebtFilters) :
  exists reported w',
    getAllDebts filters w = (Ok reported, w')
    /\ (forall e,
          e ∈ reported
          <-> (exists d, d ∈ debts w
                         /\ e = refreshOverdue w (clock w (ticks w)) d)
              /\ debtMatches filters e)
    /\ (length reported <= length (debts w))%nat
    /\ (Forall (fun d => is_Some (parseDate w (debt_createdAt d))) (debts w) ->
        StronglySorted
          (fun a b => atLeastAsRecent w (debt_createdAt a) (debt_createdAt b))
          reported).
Proof.
  destruct (getAllDebts_run w filters) as (w' & Hrun & _).
  eexists _, w'. split; [exact Hrun|]. split; [|split].
  - intros e. rewrite elem_of_sort, elem_of_applyFilters, passes_debtMatches.
    rewrite list_elem_of_fmap. split.
    + intros [(d & -> & Hd) Hm]. split; [eauto|done].
    + intros [(d & Hd & ->) Hm]. split; [eauto|done].
  - rewrite length_sort. etrans; [apply length_applyFilters|].
    by rewrite length_fmap.
  - intros Hparse. apply sort_newestFirst.
    apply Forall_forall. intros e He.
    apply elem_of_applyFilters in He as [He _].
    apply list_elem_of_fmap in He as (d & -> & Hd).
    rewrite refreshOverdue_createdAt.
    rewrite Forall_forall in Hparse. by apply Hparse.
Qed.

Lemma getAllDebts_lists_matching_newest_first_witness :
  Forall (fun d => is_Some (parseDate Demo.book (debt_createdAt d)))
    (debts Demo.book)
  /\ exists reported w',
       getAllDebts noFilters Demo.book = (Ok reported, w')
       /\ (length reported <= 2)%nat
       /\ StronglySorted
            (fun a b => atLeastAsRecent Demo.book (debt_createdAt a)
                          (debt_createdAt b))
            reported.
Proof.
  assert (Hparse : Forall (fun d => is_Some (parseDate Demo.book
                                               (debt_createdAt d)))
                     (debts Demo.book)).
  { repeat constructor; eexists; reflexivity. }
  split; [exact Hparse|].
  destruct (getAllDebts_lists_matching_newest_first Demo.book noFilters)
    as (reported & w' & Hrun & _ & Hlen & Hsorted).
  exists reported, w'. split; [exact Hrun|]. split; [exact Hlen|].
  exact (Hsorted Hparse).
Defined.

Lemma getAllProducts_run (w : World) (filters : InventoryFilters) :
  exists kept,
    getAllProducts filters w
    = (Ok (sort (fun a b => newestFirst w (updatedAt a) (updatedAt b)) kept), w)
    /\ (forall p, p ∈ kept <-> p ∈ products w /\ productPasses filters p)
    /\ (length kept <= length (products w))%nat.
Proof.
  unfold getAllProducts, getProducts. unfold bind at 1.
  eexists. split; [by destruct w|]. unfold productPasses.
  destruct filters as [fterm fcat flow]; cbn [inv_searchTerm inv_category
    lowStock].
  assert (Hlen : forall (P : Product -> Prop) `{!forall p, Decision (P p)}
                        (b : bool) (l : list Product),
             (length (if b then filter P l else l) <= length l)%nat).
  { intros P ? [] l; [apply length_filter|done]. }
  split.
  - intros p. rewrite !forall_Some.
    assert (Hlow : forall l : list Product,
               p ∈ (if JS.definedOr flow false
                    then filter (fun p => totalQuantity p <= 10) l else l)
               <-> p ∈ l /\ (flow = Some true -> totalQuantity p <= 10)).
    { intros l. destruct flow as [[]|]; cbn [JS.definedOr];
        rewrite ?list_elem_of_filter; intuition congruence. }
    assert (Hcat : forall l : list Product,
               p ∈ (if JS.truthyOpt fcat
                    then filter (fun p => product_category p = fcat) l else l)
               <-> p ∈ l /\ match fcat with
                            | Some c => c <> "" -> product_category p = Some c
                            | None => True
                            end).
    { intros l. destruct fcat as [c|]; cbn [JS.truthyOpt]; [|tauto].
      destruct (JS.truthy c) eqn:Hc.
      - apply truthy_nonempty in Hc. rewrite list_elem_of_filter. tauto.
      - assert (c = "") as -> by (destruct c; [done|discriminate]). tauto. }
    assert (Hterm : forall l : list Product,
               p ∈ (if JS.truthyOpt fterm
                    then filter (fun p => productMatches
                                   (JS.toLowerCase (JS.definedOr fterm "")) p
                                 = true) l
                    else l)
               <-> p ∈ l /\ match fterm with
                            | Some term =>
                                term <> "" ->
                                productMatches (JS.toLowerCase term) p = true
                            | None => True
                            end).
    { intros l. destruct fterm as [term|]; cbn [JS.truthyOpt JS.definedOr];
        [|tauto].
      destruct (JS.truthy term) eqn:Ht.
      - apply truthy_nonempty in Ht. rewrite list_elem_of_filter. tauto.
      - assert (term = "") as -> by (destruct term; [done|discriminate]).
        tauto. }
    rewrite Hlow, Hcat, Hterm. tauto.
  - etrans; [apply Hlen; apply _|]. etrans; [apply Hlen; apply _|].
    apply Hlen; apply _.
Qed.

(** X5.  [getAllProducts] writes nothing and reports exactly the stored
    products that meet every filter given: the search term, compared in
    lower case with the name, the description or the category; the category,
    which must be the same text; and the low-stock switch, which keeps the
    products whose total quantity is at most ten.  It reports no more
    products than are stored, and when the update dates of the stored
    products parse, the most recently updated come first. *)
Theorem getAllProducts_lists_matching_newest_first
    (w : World) (filters : InventoryFilters) :
  exists reported,
    getAllProducts filters w = (Ok reported, w)
    /\ (forall p, p ∈ reported <-> p ∈ products w /\ productPasses filters p)
    /\ (length reported <= length (products w))%nat
    /\ (Forall (fun p => is_Some (parseDate w (updatedAt p))) (products w) ->
        StronglySorted
          (fun a b => atLeastAsRecent w (updatedAt a) (updatedAt b)) reported).
Proof.
  destruct (getAllProducts_run w filters) as (kept & Hrun & Hkept & Hlen).
  eexists. split; [exact Hrun|]. split; [|split].
  - intros p. by rewrite elem_of_sort.
  - by rewrite length_sort.
  - intros Hparse. apply sort_newestFirst.
    apply Forall_forall. intros p Hp. apply Hkept in Hp as [Hp _].
    rewrite Forall_forall in Hparse. by apply Hparse.
Qed.

Lemma getAllProducts_lists_matching_newest_first_witness :
  Forall (fun p => is_Some (parseDate Demo.stationery (updatedAt p)))
    (products Demo.stationery)
  /\ exists reported,
       getAllProducts Demo.onlyLowStock Demo.stationery
       = (Ok reported, Demo.stationery)
       /\ (forall p, p ∈ reported -> totalQuantity p <= 10)
       /\ StronglySorted
            (fun a b => atLeastAsRecent Demo.stationery (updatedAt a)
                          (updatedAt b))
            reported.
Proof.
  assert (Hparse : Forall (fun p => is_Some (parseDate Demo.stationery
                                               (updatedAt p)))
                     (products Demo.stationery)).
  { repeat constructor; eexists; reflexivity. }
  split; [exact Hparse|].
  destruct (getAllProducts_lists_matching_newest_first Demo.stationery
              Demo.onlyLowStock)
    as (reported & Hrun & Hin & _ & Hsorted).
  exists reported. split; [exact Hrun|]. split; [|exact (Hsorted Hparse)].
  intros p Hp. apply Hin in Hp as [_ (_ & _ & Hlow)]. by apply Hlow.
Defined.

Lemma elem_of_filter_if
    {A : Type} (b : bool) (P : A -> Prop) `{!forall x, Decision (P x)}
    (l : list A) (x : A) :
  x ∈ (if b then filter P l else l) <-> x ∈ l /\ (b = true -> P x).
Proof.
  destruct b; [rewrite list_elem_of_filter|]; intuition congruence.
Qed.

(** A test made on an optional text when the text is not empty. *)
Lemma truthyOpt_forall (o : option string) (Q : string -> Prop) :
  (JS.truthyOpt o = true -> Q (JS.definedOr o ""))
  <-> (forall s, o = Some s -> s <> "" -> Q s).
Proof.
  rewrite forall_Some. destruct o as [s|]; cbn [JS.truthyOpt JS.definedOr].
  - by rewrite truthy_nonempty.
  - intuition discriminate.
Qed.

Lemma elem_of_filter_if_Some
    {A B : Type} (o : option B) (P : B -> A -> Prop)
    `{!forall b x, Decision (P b x)} (l : list A) (x : A) :
  x ∈ match o with Some b => filter (P b) l | None => l end
  <-> x ∈ l /\ (forall b, o = Some b -> P b x).
Proof.
  rewrite forall_Some. destruct o as [b|]; [|tauto].
  rewrite list_elem_of_filter. tauto.
Qed.

(** The steps of [getTransactionsWithFilters], one after the other. *)
Lemma getTransactionsWithFilters_run
    (w : World) (endOfDay : string -> option string)
    (filters : TransactionFilters) :
  getTransactionsWithFilters endOfDay filters w
  = let started :=
      if JS.truthyOpt (query_startDate filters)
      then filter (fun t => String.leb
                              (JS.definedOr (query_startDate filters) "")
                              (tx_timestamp t) = true) (transactions w)
      else transactions w in
    match
      (if JS.truthyOpt (query_endDate filters)
       then
         match started with
         | [] => ret []
         | _ :: _ =>
             match endOfDay (JS.definedOr (query_endDate filters) "") with
             | None => throw (HostError "Invalid time value")
             | Some limit =>
                 ret (filter (fun t => String.leb (tx_timestamp t) limit
                                       = true) started)
             end
         end
       else ret started) w
    with
    | (Ok ended, w') =>
        (Ok (sort (fun a b => newestFirst w' (tx_timestamp a) (tx_timestamp b))
               (if JS.truthyOpt (query_searchTerm filters)
                then
                  filter
                    (fun t => transactionMatches
                                (JS.toLowerCase
                                   (JS.definedOr (query_searchTerm filters) ""))
                                t = true)
                    match query_type filters with
                    | Some type => filter (fun t => tx_type t = type) ended
                    | None => ended
                    end
                else
                  match query_type filters with
                  | Some type => filter (fun t => tx_type t = type) ended
                  | None => ended
                  end)), w')
    | (Throw e, w') => (Throw e, w')
    end.
Proof. reflexivity. Qed.

(** X6.  [getTransactionsWithFilters] never writes.  When the end date is
    given and the host cannot make a day of it, the query throws as soon as
    one transaction is left to compare after the start date was applied, and
    answers the empty list when none is.  Otherwise it answers exactly the
    recorded transactions that meet every filter given: a timestamp not
    before the start date and not after the end of the end date's day (both
    compared as text), the type, and the search term, compared in lower case
    with the description or the category; and when the timestamps parse, the
    most recent come first. *)
Theorem getTransactionsWithFilters_answers
    (w : World) (endOfDay : string -> option string)
    (filters : TransactionFilters) :
  (forall e,
      query_endDate filters = Some e -> e <> "" -> endOfDay e = None ->
      ((exists t, t ∈ transactions w
                  /\ forall s, query_startDate filters = Some s -> s <> "" ->
                               String.leb s (tx_timestamp t) = true) ->
       getTransactionsWithFilters endOfDay filters w
       = (Throw (HostError "Invalid time value"), w))
      /\ ((forall t, t ∈ transactions w ->
                     exists s, query_startDate filters = Some s /\ s <> ""
                               /\ String.leb s (tx_timestamp t) = false) ->
          getTransactionsWithFilters endOfDay filters w = (Ok [], w)))
  /\ ((forall e, query_endDate filters = Some e -> e <> "" ->
                 is_Some (endOfDay e)) ->
      exists answer,
        getTransactionsWithFilters endOfDay filters w = (Ok answer, w)
        /\ (forall t, t ∈ answer
                      <-> t ∈ transactions w
                          /\ transactionPasses endOfDay filters t)
        /\ (Forall (fun t => is_Some (parseDate w (tx_timestamp t)))
              (transactions w) ->
            StronglySorted
              (fun a b => atLeastAsRecent w (tx_timestamp a) (tx_timestamp b))
              answer)).
Proof.
  rewrite getTransactionsWithFilters_run.
  set (started :=
         if JS.truthyOpt (query_startDate filters)
         then filter (fun t => String.leb
                                 (JS.definedOr (query_startDate filters) "")
                                 (tx_timestamp t) = true) (transactions w)
         else transactions w).
  cbv zeta.
  assert (Hstarted :
            forall t, t ∈ started
                      <-> t ∈ transactions w
                          /\ forall s, query_startDate filters = Some s ->
                                       s <> "" ->
                                       String.leb s (tx_timestamp t) = true).
  { intros t. subst started. rewrite elem_of_filter_if.
    by rewrite (truthyOpt_forall (query_startDate filters)
                  (fun s => String.leb s (tx_timestamp t) = true)). }
  split.
  - intros e He Hne Hnoday.
    assert (Htruthy : JS.truthyOpt (query_endDate filters) = true)
      by (rewrite He; by apply truthy_nonempty).
    rewrite Htruthy, He. cbn [JS.definedOr]. rewrite Hnoday. split.
    + intros (t & Ht). apply Hstarted in Ht.
      destruct started as [|t0 ts]; [by apply elem_of_nil in Ht|].
      reflexivity.
    + intros Hnone. destruct started as [|t0 ts] eqn:Hlist.
      * by destruct (query_type filters),
          (JS.truthyOpt (query_searchTerm filters)).
      * exfalso. assert (Ht0 : t0 ∈ t0 :: ts) by (by left).
        apply Hstarted in Ht0 as [Hin Hfrom].
        destruct (Hnone t0 Hin) as (s & Hs & Hsne & Hbefore).
        rewrite (Hfrom s Hs Hsne) in Hbefore. discriminate.
  - intros Hday.
    assert (Hended :
              exists ended,
                (if JS.truthyOpt (query_endDate filters)
                 then
                   match started with
                   | [] => ret []
                   | _ :: _ =>
                       match endOfDay (JS.definedOr (query_endDate filters) "")
                       with
                       | None => throw (HostError "Invalid time value")
                       | Some limit =>
                           ret (filter (fun t => String.leb (tx_timestamp t)
                                                   limit = true) started)
                       end
                   end
                 else ret started) w = (Ok ended, w)
                /\ forall t,
                     t ∈ ended
                     <-> t ∈ started
                         /\ forall e limit,
                              query_endDate filters = Some e -> e <> "" ->
                              endOfDay e = Some limit ->
                              String.leb (tx_timestamp t) limit = true).
    { destruct (query_endDate filters) as [e|] eqn:He;
        cbn [JS.truthyOpt JS.definedOr].
      - destruct (JS.truthy e) eqn:Htruthy.
        + apply truthy_nonempty in Htruthy.
          destruct (Hday e eq_refl Htruthy) as [limit Hlimit].
          rewrite Hlimit.
          exists (filter (fun t => String.leb (tx_timestamp t) limit = true)
                    started).
          split; [by destruct started|].
          intros t. rewrite list_elem_of_filter. split.
          * intros [Hle Hin]. split; [done|].
            intros e' limit' [= <-] _ Hl. congruence.
          * intros [Hin Hle]. split; [|done]. by apply (Hle e limit).
        + exists started. split; [reflexivity|].
          assert (e = "") as -> by (destruct e; [done|discriminate]).
          intros t. split; [|tauto]. intros Hin. split; [done|].
          intros e' limit' [= <-] Hne. done.
      - exists started. split; [reflexivity|].
        intros t. split; [|tauto]. intros Hin. split; [done|].
        intros e' limit' Hnone. discriminate. }
    destruct Hended as (ended & -> & Hended).
    eexists. split; [reflexivity|]. split.
    + intros t. rewrite elem_of_sort, elem_of_filter_if.
      rewrite (truthyOpt_forall (query_searchTerm filters)
                 (fun term => transactionMatches (JS.toLowerCase term) t = true)).
      rewrite (elem_of_filter_if_Some (query_type filters)
                 (fun type t => tx_type t = type)).
      rewrite Hended, Hstarted. unfold transactionPasses. tauto.
    + intros Hparse. apply sort_newestFirst.
      apply Forall_forall. intros t Ht.
      apply elem_of_filter_if in Ht as [Ht _].
      apply (elem_of_filter_if_Some (query_type filters)
               (fun type t => tx_type t = type)) in Ht as [Ht _].
      apply Hended in Ht as [Ht _]. apply Hstarted in Ht as [Ht _].
      rewrite Forall_forall in Hparse. by apply Hparse.
Qed.

Lemma getTransactionsWithFilters_answers_witness :
  getTransactionsWithFilters Demo.endOfDay Demo.untilNonsense Demo.journal
  = (Throw (HostError "Invalid time value"), Demo.journal)
  /\ exists answer,
       getTransactionsWithFilters Demo.endOfDay Demo.untilJune Demo.journal
       = (Ok answer, Demo.journal)
       /\ (Demo.sale2024 ∈ answer)
       /\ (Demo.rent2030 ∉ answer)
       /\ StronglySorted
            (fun a b => atLeastAsRecent Demo.journal (tx_timestamp a)
                          (tx_timestamp b))
            answer.
Proof.
  split.
  - destruct (getTransactionsWithFilters_answers Demo.journal Demo.endOfDay
                Demo.untilNonsense) as [Hthrow _].
    destruct (Hthrow "soon" eq_refl ltac:(discriminate) eq_refl)
      as [Hone _].
    apply Hone. exists Demo.sale2024. split; [by left|]. discriminate.
  - destruct (getTransactionsWithFilters_answers Demo.journal Demo.endOfDay
                Demo.untilJune) as [_ Hanswer].
    destruct Hanswer as (answer & Hrun & Hin & Hsorted).
    { intros e [= <-] _. eexists. reflexivity. }
    exists answer. split; [exact Hrun|]. split; [|split].
    + apply Hin. split; [by left|]. unfold transactionPasses.
      split; [discriminate|]. split; [|split; discriminate].
      intros e limit [= <-] _ [= <-]. reflexivity.
    + intros Hrent. apply Hin in Hrent as [_ (_ & Hend & _)].
      specialize (Hend "2024-06-30" "2024-06-30T23:59:59.999Z"
                    eq_refl ltac:(discriminate) eq_refl).
      discriminate.
    + apply Hsorted. repeat constructor; eexists; reflexivity.
Defined.

(* ===================================================================== *)
(** ** Debts read back after a write                                      *)
(* ===================================================================== *)

Section Finding.

Context {A : Type} (P : A -> Prop) `{Pdec : !forall x, Decision (P x)}.

Lemma find_app_other (l : list A) (x : A) :
  ~ P x -> snd <$> list_find P (l ++ [x]) = snd <$> list_find P l.
Proof.
  intros Hx. induction l as [|a l IH]; simpl.
  - by rewrite decide_False.
  - destruct (decide (P a)); [done|].
    destruct (list_find P (l ++ [x])) as [[j y]|],
      (list_find P l) as [[j' y']|]; simpl in *; congruence.
Qed.

Lemma find_app_fresh (l : list A) (x : A) :
  (forall a, a ∈ l -> ~ P a) -> P x ->
  snd <$> list_find P (l ++ [x]) = Some x.
Proof.
  intros Hl Hx. induction l as [|a l IH]; simpl.
  - by rewrite decide_True.
  - rewrite decide_False by (apply Hl; by left).
    destruct (list_find P (l ++ [x])) as [[j y]|]; simpl in *.
    + rewrite <- IH; [done|]. intros b Hb. apply Hl. by right.
    + rewrite <- IH; [done|]. intros b Hb. apply Hl. by right.
Qed.

Lemma find_app_some (l : list A) (x : A) :
  P x -> exists y, snd <$> list_find P (l ++ [x]) = Some y /\ P y.
Proof.
  intros Hx. induction l as [|a l (y & IH & Hy)]; simpl.
  - rewrite decide_True by done. eauto.
  - destruct (decide (P a)); [eauto|].
    destruct (list_find P (l ++ [x])) as [[j z]|]; simpl in *; eauto.
Qed.

(** A search among the elements that another test [Q] keeps. *)
Lemma find_filter_kept (Q : A -> Prop) `{Qdec : !forall x, Decision (Q x)}
    (l : list A) :
  (forall a, P a -> Q a) ->
  snd <$> list_find P (filter Q l) = snd <$> list_find P l.
Proof.
  intros HPQ. induction l as [|a l IH]; [done|].
  rewrite filter_cons. simpl. destruct (decide (P a)) as [Ha|Ha].
  - rewrite decide_True by auto. simpl. by rewrite decide_True.
  - destruct (decide (Q a)); simpl.
    + rewrite decide_False by done.
      destruct (list_find P (filter Q l)) as [[j y]|],
        (list_find P l) as [[j' y']|]; simpl in *; congruence.
    + destruct (list_find P l) as [[j' y']|]; simpl in *; congruence.
Qed.

Lemma find_filter_dropped (l : list A) :
  list_find P (filter (fun a => ~ P a) l) = None.
Proof.
  apply list_find_None, Forall_forall. intros a Ha.
  by apply list_elem_of_filter in Ha as [Ha _].
Qed.

Lemma filter_all (l : list A) :
  (forall a, a ∈ l -> P a) -> filter P l = l.
Proof.
  induction l as [|a l IH]; intros Hall; [done|].
  rewrite filter_cons_True by (apply Hall; by left).
  f_equal. apply IH. intros b Hb. apply Hall. by right.
Qed.

End Finding.

Lemma getDebtById_run (w : World) (id : string) :
  getDebtById id w
  = (Ok (snd <$> list_find (fun d => debt_id d = id) (debts w)), w).
Proof. reflexivity. Qed.

(** X7.  [createDebt] always returns.  The entry it stores carries the
    arguments, with the counterparty and the description trimmed and a blank
    category or note left out; it is never paid and has no payment date and
    no linked transaction.  Reading the new id back gives an entry with that
    id, which is the new entry itself when no stored debt had the id; every
    other id reads as it did before. *)
Theorem createDebt_then_getDebtById
    (w : World) (type : DebtType) (cp : string) (amount : Z)
    (description due : string) (category notes : option string) :
  exists d w',
    createDebt type cp amount description due category notes w = (Ok d, w')
    /\ debt_type d = type
    /\ counterparty d = JS.trim cp
    /\ debt_amount d = amount
    /\ debt_description d = JS.trim description
    /\ dueDate d = due
    /\ debt_category d = JS.orUndefined (JS.trim <$> category)
    /\ debt_notes d = JS.orUndefined (JS.trim <$> notes)
    /\ status d <> paid
    /\ paidAt d = None
    /\ linkedTransactionId d = None
    /\ (exists e, fst (getDebtById (debt_id d) w') = Ok (Some e)
                  /\ debt_id e = debt_id d)
    /\ ((forall e, e ∈ debts w -> debt_id e <> debt_id d) ->
        fst (getDebtById (debt_id d) w') = Ok (Some d))
    /\ (forall id, id <> debt_id d ->
                   fst (getDebtById id w') = fst (getDebtById id w)).
Proof.
  eexists _, _. split; [unfold createDebt; run; reflexivity|].
  cbn [debt_type counterparty debt_amount debt_description dueDate
         debt_category debt_notes status paidAt linkedTransactionId debt_id].
  repeat (split; [reflexivity|]).
  split.
  { match goal with
    | |- (if ?b then _ else _) <> _ => destruct b; discriminate
    end. }
  repeat (split; [reflexivity|]).
  split; [|split].
  - rewrite getDebtById_run. cbn [fst debts].
    match goal with
    | |- context [list_find ?P (?l ++ [?x])] =>
        destruct (find_app_some P l x eq_refl) as (e & -> & He)
    end.
    eauto.
  - intros Hfresh. rewrite getDebtById_run. cbn [fst debts].
    f_equal. by apply find_app_fresh.
  - intros id Hid. rewrite !getDebtById_run. cbn [fst debts].
    f_equal. apply find_app_other. cbn. congruence.
Qed.

Lemma createDebt_then_getDebtById_witness :
  exists d w',
    createDebt receivable " Fay " 25 "Loan" "2030-01-01" (Some " ") None
      Demo.book = (Ok d, w')
    /\ counterparty d = "Fay"
    /\ debt_category d = None
    /\ fst (getDebtById (debt_id d) w') = Ok (Some d).
Proof.
  destruct (createDebt_then_getDebtById Demo.book receivable " Fay " 25
              "Loan" "2030-01-01" (Some " ") None)
    as (d & w' & Hrun & _ & Hcp & _ & _ & _ & Hcat & _ & _ & _ & _ & _
        & Hfresh & _).
  exists d, w'. split; [exact Hrun|]. split; [exact Hcp|].
  split; [exact Hcat|]. apply Hfresh.
  assert (Hid : debt_id d = "1750000000000_r0").
  { assert (Hfst : fst (createDebt receivable " Fay " 25 "Loan" "2030-01-01"
                          (Some " ") None Demo.book) = Ok d)
      by (by rewrite Hrun).
    vm_compute in Hfst. injection Hfst as <-. reflexivity. }
  rewrite Hid. intros e He.
  repeat (apply elem_of_cons in He as [->|He]; [discriminate|]).
  by apply elem_of_nil in He.
Defined.

(** X8.  [deleteDebt] always returns and always writes, whether or not a
    debt carries the id.  Afterwards the id reads as undefined, every other
    id reads as before, what is stored is what was stored without the
    entries of that id, in the same order, and deleting once more stores the
    same list again. *)
Theorem deleteDebt_removes (w : World) (id : string) :
  exists w',
    deleteDebt id w = (Ok tt, w')
    /\ fst (getDebtById id w') = Ok None
    /\ (forall id', id' <> id ->
                    fst (getDebtById id' w') = fst (getDebtById id' w))
    /\ (forall d, d ∈ debts w' <-> d ∈ debts w /\ debt_id d <> id)
    /\ debts w' `sublist_of` debts w
    /\ ((forall d, d ∈ debts w -> debt_id d <> id) -> debts w' = debts w)
    /\ trace w' = trace w ++ [SetItem DEBTS; Dispatch DEBTS]
    /\ debts (snd (deleteDebt id w')) = debts w'.
Proof.
  eexists. split; [unfold deleteDebt; run; reflexivity|].
  cbn [debts trace]. split; [|split; [|split; [|split; [|split; [|split]]]]].
  - rewrite getDebtById_run. cbn [fst debts].
    by rewrite (find_filter_dropped (fun d => debt_id d = id)).
  - intros id' Hid. rewrite !getDebtById_run. cbn [fst debts]. f_equal.
    apply (find_filter_kept (fun d => debt_id d = id')). congruence.
  - intros d. rewrite list_elem_of_filter. tauto.
  - apply sublist_filter.
  - intros Hnone. by apply filter_all.
  - by rewrite <- app_assoc.
  - unfold deleteDebt. run. apply list_filter_filter_l. tauto.
Qed.

Lemma deleteDebt_removes_witness :
  (forall d, d ∈ debts Demo.book -> debt_id d <> "d-none")
  /\ debts (snd (deleteDebt "d-none" Demo.book)) = debts Demo.book.
Proof.
  assert (Hnone : forall d, d ∈ debts Demo.book -> debt_id d <> "d-none").
  { intros d Hd.
    repeat (apply elem_of_cons in Hd as [->|Hd]; [discriminate|]).
    by apply elem_of_nil in Hd. }
  split; [exact Hnone|].
  destruct (deleteDebt_removes Demo.book "d-none")
    as (w' & Hrun & _ & _ & _ & _ & Hsame & _).
  rewrite Hrun. exact (Hsame Hnone).
Defined.

(** Reading the debts after the entry found under [id] was replaced by one
    of the same id. *)
Lemma getDebtById_replaced
    (ds : list DebtEntry) (id : string) (i : nat) (d d' : DebtEntry) :
  list_find (fun d => debt_id d = id) ds = Some (i, d) ->
  debt_id d' = id ->
  forall id',
    snd <$> list_find (fun d => debt_id d = id') (<[i := d']> ds)
    = if decide (id' = id) then Some d'
      else snd <$> list_find (fun d => debt_id d = id') ds.
Proof.
  intros Hfind Hid id'. destruct (decide (id' = id)) as [->|Hne].
  - by rewrite (find_insert_same _ ds i d d' Hfind Hid).
  - destruct (find_lookup _ ds i d Hfind) as [Hi Hd].
    rewrite (find_insert_other (fun d => debt_id d = id') ds i d d' Hi);
      [done|congruence|congruence].
Qed.

(** What [markAsPaid] leaves behind for a debt that is not paid. *)
Lemma markAsPaid_run (w : World) (id : string) (i : nat) (d : DebtEntry) :
  list_find (fun d => debt_id d = id) (debts w) = Some (i, d) ->
  status d <> paid ->
  exists tx stamp w',
    markAsPaid id w = (Ok (settle d stamp (tx_id tx), tx), w')
    /\ transactions w' = transactions w ++ [tx]
    /\ debts w' = <[i := settle d stamp (tx_id tx)]> (debts w)
    /\ tx_amount tx = debt_amount d
    /\ tx_type tx = transactionType d
    /\ bills w' = bills w
    /\ products w' = products w.
Proof.
  intros Hfind Hopen. unfold markAsPaid.
  rewrite (markAsPaidVia_found _ w id i d Hfind Hopen). unfold bind at 1.
  destruct (addTransaction_run w (transactionType d) (transactionDescription d)
              (debt_amount d) (debt_category d) None None)
    as (tx & w1 & -> & Htxs & Hty & _ & Hamt & _ & _ & _ & _ & Hbs & _ & Hps & _).
  eexists tx, _, _. split; [reflexivity|]. cbn.
  by rewrite Htxs, Hamt, Hty, Hbs, Hps.
Qed.

(** X9.  A debt is settled once.  When [markAsPaid] has returned, the ledger
    holds one transaction more, the one returned; the id reads as the
    returned entry, which is paid and linked to that transaction; every
    other id reads as before; and a second [markAsPaid] on the same id
    throws the already-paid error and leaves everything as it is, so no
    second transaction is recorded. *)
Theorem markAsPaid_only_once
    (w w' : World) (id : string) (d' : DebtEntry) (tx : Transaction) :
  markAsPaid id w = (Ok (d', tx), w') ->
  markAsPaid id w' = (Throw DebtAlreadyPaid, w')
  /\ transactions w' = transactions w ++ [tx]
  /\ debt_id d' = id
  /\ status d' = paid
  /\ linkedTransactionId d' = Some (tx_id tx)
  /\ tx_amount tx = debt_amount d'
  /\ fst (getDebtById id w') = Ok (Some d')
  /\ (forall id', id' <> id ->
                  fst (getDebtById id' w') = fst (getDebtById id' w))
  /\ length (debts w') = length (debts w).
Proof.
  intros Hrun.
  destruct (list_find (fun d => debt_id d = id) (debts w)) as [[i d]|] eqn:Hfind.
  2: { unfold markAsPaid, markAsPaidVia, getDebts in Hrun.
       unfold bind at 1 in Hrun. by rewrite Hfind in Hrun. }
  destruct (decide (status d = paid)) as [Hpaid|Hopen].
  { unfold markAsPaid, markAsPaidVia, getDebts in Hrun.
    unfold bind at 1 in Hrun. rewrite Hfind in Hrun.
    by rewrite bool_decide_eq_true_2 in Hrun. }
  destruct (markAsPaid_run w id i d Hfind Hopen)
    as (tx0 & stamp & w0 & Hrun0 & Htxs & Hds & Hamt & _).
  rewrite Hrun0 in Hrun. injection Hrun as <- <- <-.
  destruct (find_lookup _ _ _ _ Hfind) as [Hi Hid].
  pose proof (getDebtById_replaced (debts w) id i d
                (settle d stamp (tx_id tx0)) Hfind Hid) as Hread.
  split; [|split; [|split; [|split; [|split; [|split; [|split; [|split]]]]]]].
  - unfold markAsPaid, markAsPaidVia, getDebts. unfold bind at 1.
    rewrite Hds.
    rewrite (find_insert_same _ (debts w) i d (settle d stamp (tx_id tx0))
               Hfind Hid).
    by rewrite bool_decide_eq_true_2.
  - exact Htxs.
  - exact Hid.
  - reflexivity.
  - reflexivity.
  - exact Hamt.
  - rewrite getDebtById_run. cbn [fst]. rewrite Hds, Hread.
    by rewrite decide_True.
  - intros id' Hne. rewrite !getDebtById_run. cbn [fst].
    rewrite Hds, Hread. by rewrite decide_False.
  - by rewrite Hds, length_insert.
Qed.

Lemma markAsPaid_only_once_witness :
  exists d' tx w',
    markAsPaid "d-overdue" Demo.ledger = (Ok (d', tx), w')
    /\ markAsPaid "d-overdue" w' = (Throw DebtAlreadyPaid, w')
    /\ length (transactions w') = S (length (transactions Demo.ledger)).
Proof.
  destruct (markAsPaid_run Demo.ledger "d-overdue" 2 Demo.debtOverdue
              eq_refl ltac:(discriminate))
    as (tx & stamp & w' & Hrun & _).
  destruct (markAsPaid_only_once Demo.ledger w' "d-overdue" _ tx Hrun)
    as (Hagain & Htxs & _).
  eexists _, tx, w'. split; [exact Hrun|]. split; [exact Hagain|].
  rewrite Htxs, length_app. cbn. lia.
Defined.

Lemma orElse_nonempty (o : option string) (d : string) :
  d <> "" -> JS.orElse o d <> "".
Proof.
  intros Hd. destruct o as [s|]; [|done]. simpl.
  destruct (JS.truthy s) eqn:Hs; [|done]. by apply truthy_nonempty.
Qed.

Lemma setStatus_fields (d : DebtEntry) (s : DebtStatus) :
  debt_id (setStatus d s) = debt_id d
  /\ debt_createdAt (setStatus d s) = debt_createdAt d
  /\ paidAt (setStatus d s) = paidAt d
  /\ linkedTransactionId (setStatus d s) = linkedTransactionId d
  /\ counterparty (setStatus d s) = counterparty d
  /\ debt_description (setStatus d s) = debt_description d.
Proof. by repeat split. Qed.

(** X10.  [updateDebt] keeps what identifies a debt.  On an id that is found
    it returns; the stored entry keeps its id, its creation date, its payment
    date and its linked transaction, and its counterparty and description
    stay non-empty when they were; the other entries stay where they are; the
    id reads as the returned entry and every other id as before; the ledger
    is not touched.  On an id that is not found it throws the not-found
    error and leaves everything as it is. *)
Theorem updateDebt_keeps_identity (w : World) (id : string) (u : DebtUpdates) :
  (forall i d,
      list_find (fun d => debt_id d = id) (debts w) = Some (i, d) ->
      exists d' w',
        updateDebt id u w = (Ok d', w')
        /\ debt_id d' = id
        /\ debt_createdAt d' = debt_createdAt d
        /\ paidAt d' = paidAt d
        /\ linkedTransactionId d' = linkedTransactionId d
        /\ (counterparty d <> "" -> counterparty d' <> "")
        /\ (debt_description d <> "" -> debt_description d' <> "")
        /\ fst (getDebtById id w') = Ok (Some d')
        /\ (forall id', id' <> id ->
                        fst (getDebtById id' w') = fst (getDebtById id' w))
        /\ (forall j, j <> i -> debts w' !! j = debts w !! j)
        /\ length (debts w') = length (debts w)
        /\ transactions w' = transactions w)
  /\ ((forall d, d ∈ debts w -> debt_id d <> id) ->
      updateDebt id u w = (Throw DebtNotFound, w)).
Proof.
  split.
  - intros i d Hfind.
    destruct (updateDebt_run w id u i d Hfind)
      as (d' & w' & Hrun & Hds & Hd' & Htxs & _).
    destruct (find_lookup _ _ _ _ Hfind) as [Hi Hid].
    destruct (setStatus_fields (mergeDebt d u) (updatedStatus w d u))
      as (Fid & Fcreated & Fpaid & Flink & Fcp & Fdesc).
    rewrite <- Hd' in Fid, Fcreated, Fpaid, Flink, Fcp, Fdesc.
    cbn [mergeDebt debt_id debt_createdAt paidAt linkedTransactionId
           counterparty debt_description] in Fid, Fcreated, Fpaid, Flink,
           Fcp, Fdesc.
    assert (Hid' : debt_id d' = id) by congruence.
    pose proof (getDebtById_replaced (debts w) id i d d' Hfind Hid') as Hread.
    exists d', w'. split; [exact Hrun|].
    split; [exact Hid'|]. split; [exact Fcreated|]. split; [exact Fpaid|].
    split; [exact Flink|].
    split; [rewrite Fcp; apply orElse_nonempty|].
    split; [rewrite Fdesc; apply orElse_nonempty|].
    split; [|split; [|split; [|split]]].
    + rewrite getDebtById_run. cbn [fst]. rewrite Hds, Hread.
      by rewrite decide_True.
    + intros id' Hne. rewrite !getDebtById_run. cbn [fst].
      rewrite Hds, Hread. by rewrite decide_False.
    + intros j Hj. rewrite Hds. by apply list_lookup_insert_ne.
    + by rewrite Hds, length_insert.
    + exact Htxs.
  - intros Hnone. apply updateDebt_missing.
    apply list_find_None, Forall_forall. exact Hnone.
Qed.

Lemma updateDebt_keeps_identity_witness :
  (exists d' w',
      updateDebt "d-old" (mkDebtUpdates None (Some "  ") (Some 45) None None
                            None None None) Demo.book = (Ok d', w')
      /\ counterparty d' <> ""
      /\ fst (getDebtById "d-old" w') = Ok (Some d'))
  /\ updateDebt "d-none" (mkDebtUpdates None None (Some 45) None None None
                            None None) Demo.book
     = (Throw DebtNotFound, Demo.book).
Proof.
  split.
  - destruct (updateDebt_keeps_identity Demo.book "d-old"
                (mkDebtUpdates None (Some "  ") (Some 45) None None None
                   None None)) as [Hfound _].
    destruct (Hfound 0%nat Demo.debtOld eq_refl)
      as (d' & w' & Hrun & _ & _ & _ & _ & Hcp & _ & Hread & _).
    exists d', w'. split; [exact Hrun|]. split; [|exact Hread].
    apply Hcp. discriminate.
  - destruct (updateDebt_keeps_identity Demo.book "d-none"
                (mkDebtUpdates None None (Some 45) None None None None None))
      as [_ Hmissing].
    apply Hmissing. intros d Hd.
    repeat (apply elem_of_cons in Hd as [->|Hd]; [discriminate|]).
    by apply elem_of_nil in Hd.
Defined.

(* ===================================================================== *)
(** ** The summary of the debts                                           *)
(* ===================================================================== *)

Lemma sum_from (l : list DebtEntry) (acc : Z) :
  fold_left (fun sum d => sum + debt_amount d) l acc
  = acc + foldr Z.add 0 (debt_amount <$> l).
Proof.
  revert acc. induction l as [|d l IH]; intros acc; cbn [fold_left].
  - cbn. lia.
  - rewrite IH, fmap_cons. cbn [foldr]. lia.
Qed.

Lemma total_perm (l l' : list Z) :
  l ≡ₚ l' -> foldr Z.add 0 l = foldr Z.add 0 l'.
Proof.
  induction 1 as [|x l l' _ IH|x y l|l l' l'' _ IH1 _ IH2]; cbn [foldr];
    [done|by rewrite IH|lia|congruence].
Qed.

Lemma isOpen_unpaid (d : DebtEntry) : isOpen d = true <-> status d <> paid.
Proof.
  unfold isOpen. rewrite orb_true_iff, !bool_decide_eq_true.
  destruct (status d); intuition congruence.
Qed.

Lemma refreshOverdue_keeps (w : World) (now : Z) (d : DebtEntry) :
  debt_type (refreshOverdue w now d) = debt_type d
  /\ debt_amount (refreshOverdue w now d) = debt_amount d
  /\ (status (refreshOverdue w now d) <> paid <-> status d <> paid).
Proof.
  unfold refreshOverdue.
  destruct (bool_decide (status d = pending)) eqn:Hs; cbn [andb]; [|done].
  apply bool_decide_eq_true in Hs.
  destruct (isBefore w (dueDate d) now); [|done].
  cbn. rewrite Hs. intuition congruence.
Qed.

(** The open entries of one type, in any order and whatever the clock made
    of their status, add up to what is owed in that direction. *)
Lemma sumOpen_amountOwed
    (w : World) (now : Z) (t : DebtType) (ds reported : list DebtEntry) :
  reported ≡ₚ refreshOverdue w now <$> ds ->
  fold_left (fun sum d => sum + debt_amount d)
    (filter (fun d => isOpen d = true)
       (filter (fun d => debt_type d = t) reported)) 0
  = amountOwed t ds.
Proof.
  intros Hperm. rewrite sum_from, Z.add_0_l.
  rewrite (total_perm _
             (debt_amount <$>
                filter (fun d => isOpen d = true)
                  (filter (fun d => debt_type d = t)
                     (refreshOverdue w now <$> ds))))
    by (by rewrite Hperm).
  clear Hperm. unfold amountOwed. induction ds as [|d ds IH]; [done|].
  rewrite fmap_cons, !filter_cons.
  destruct (refreshOverdue_keeps w now d) as (Ht & Ha & Hs).
  rewrite Ht.
  destruct (decide (debt_type d = t)) as [Hty|Hty].
  - rewrite filter_cons.
    destruct (decide (isOpen (refreshOverdue w now d) = true)) as [Ho|Ho].
    + rewrite decide_True by (split; [done|by apply Hs, isOpen_unpaid]).
      rewrite !fmap_cons. cbn [foldr]. by rewrite IH, Ha.
    + rewrite decide_False; [exact IH|].
      intros [_ Hu]. by apply Ho, isOpen_unpaid, Hs.
  - rewrite decide_False by tauto. exact IH.
Qed.

Lemma countOpen_unpaid
    (w : World) (now : Z) (ds reported : list DebtEntry) :
  reported ≡ₚ refreshOverdue w now <$> ds ->
  length (filter (fun d => isOpen d = true) reported)
  = length (filter (fun d => status d <> paid) ds).
Proof.
  intros ->. induction ds as [|d ds IH]; [done|].
  rewrite fmap_cons, !filter_cons.
  destruct (refreshOverdue_keeps w now d) as (_ & _ & Hs).
  destruct (decide (isOpen (refreshOverdue w now d) = true)) as [Ho|Ho].
  - rewrite decide_True by (by apply Hs, isOpen_unpaid). cbn. by rewrite IH.
  - rewrite decide_False; [exact IH|].
    intros Hu. by apply Ho, isOpen_unpaid, Hs.
Qed.

Lemma overdue_among_open (l : list DebtEntry) :
  (length (filter (fun d => status d = overdue)
             (filter (fun d => debt_type d = receivable) l))
   + length (filter (fun d => status d = overdue)
               (filter (fun d => debt_type d = payable) l))
   <= length (filter (fun d => isOpen d = true) l))%nat.
Proof.
  induction l as [|d l IH]; [done|].
  pose proof (isOpen_unpaid d) as Hopen. rewrite !filter_cons.
  destruct (decide (debt_type d = receivable)) as [Hr|Hr],
    (decide (debt_type d = payable)) as [Hp|Hp],
    (decide (isOpen d = true)) as [Ho|Ho];
    rewrite ?filter_cons; repeat case_decide; cbn [length];
    try lia; try congruence;
    exfalso; apply Ho, Hopen; congruence.
Qed.

(** X11.  [getDebtStats] always returns and writes nothing.  Its two totals
    are what is owed in each direction: the amounts of the stored debts of
    that type that are not paid, whatever the clock says and in whatever
    order they are stored; the net balance is their difference; the count
    of pending debts is the number of stored debts that are not paid, and
    the two overdue counts together never exceed it. *)
Theorem getDebtStats_totals (w : World) :
  exists s w',
    getDebtStats w = (Ok s, w')
    /\ nothingWritten w w'
    /\ totalReceivablesPending s = amountOwed receivable (debts w)
    /\ totalPayablesPending s = amountOwed payable (debts w)
    /\ netBalance s
       = amountOwed receivable (debts w) - amountOwed payable (debts w)
    /\ totalPendingDebts s
       = length (filter (fun d => status d <> paid) (debts w))
    /\ (overdueReceivables s + overduePayables s <= totalPendingDebts s)%nat
    /\ (forall ds, ds ≡ₚ debts w ->
                   amountOwed receivable ds = amountOwed receivable (debts w)
                   /\ amountOwed payable ds = amountOwed payable (debts w)).
Proof.
  unfold getDebtStats. unfold bind at 1.
  destruct (getAllDebts_run w noFilters) as (w' & -> & Hw & _).
  eexists _, w'. split; [reflexivity|]. split; [exact Hw|].
  cbn [totalReceivablesPending totalPayablesPending netBalance
         totalPendingDebts overdueReceivables overduePayables].
  assert (Hperm :
            sort (fun a b => newestFirst w (debt_createdAt a) (debt_createdAt b))
              (applyFilters noFilters
                 (refreshOverdue w (clock w (ticks w)) <$> debts w))
            ≡ₚ refreshOverdue w (clock w (ticks w)) <$> debts w)
    by apply sort_perm.
  rewrite !(sumOpen_amountOwed w (clock w (ticks w)) _ (debts w) _ Hperm).
  rewrite (countOpen_unpaid w (clock w (ticks w)) (debts w) _ Hperm).
  repeat (split; [reflexivity|]). split.
  - rewrite <- (countOpen_unpaid w (clock w (ticks w)) (debts w) _ Hperm).
    apply overdue_among_open.
  - intros ds Hds. unfold amountOwed.
    split; apply total_perm; by rewrite Hds.
Qed.

Lemma getDebtStats_totals_witness :
  [Demo.debtNew; Demo.debtOld] ≡ₚ debts Demo.book
  /\ exists s w',
       getDebtStats Demo.book = (Ok s, w')
       /\ totalReceivablesPending s = 40
       /\ totalPayablesPending s = 60
       /\ netBalance s = -20
       /\ totalPendingDebts s = 2%nat
       /\ amountOwed payable [Demo.debtNew; Demo.debtOld]
          = totalPayablesPending s.
Proof.
  assert (Hswap : [Demo.debtNew; Demo.debtOld] ≡ₚ debts Demo.book)
    by apply perm_swap.
  split; [exact Hswap|].
  destruct (getDebtStats_totals Demo.book)
    as (s & w' & Hrun & _ & Hr & Hp & Hnet & Hcount & _ & Horder).
  exists s, w'. split; [exact Hrun|].
  rewrite Hr, Hp, Hnet, Hcount.
  repeat (split; [reflexivity|]).
  exact (proj2 (Horder _ Hswap)).
Defined.

(* ===================================================================== *)
(** ** Bills over several calls                                           *)
(* ===================================================================== *)

Lemma flipped_flipped (b : Bill) : flipped (flipped b) = b.
Proof. destruct b. unfold flipped. cbn. by rewrite negb_involutive. Qed.

Lemma toggleBillPaid_run
    (w : World) (id : string) (flag : bool) (i : nat) (b : Bill) :
  list_find (fun b => bill_id b = id) (bills w) = Some (i, b) ->
  exists w',
    toggleBillPaid id flag w = (Ok (flipped b), w')
    /\ bills w' = <[i := flipped b]> (bills w)
    /\ (if negb (isPaid b) && flag
        then exists tx,
            transactions w' = transactions w ++ [tx]
            /\ tx_type tx = outflow
            /\ tx_amount tx = bill_amount b
        else transactions w' = transactions w)
    /\ debts w' = debts w
    /\ products w' = products w.
Proof.
  intros Hb. unfold toggleBillPaid, getBills. unfold bind at 1. rewrite Hb.
  destruct (negb (isPaid b) && flag) eqn:Hc.
  - unfold addTransaction. run.
    eexists. split; [reflexivity|]. run.
    split; [reflexivity|]. split; [|by split].
    eexists. by split.
  - run. eexists. split; [reflexivity|]. run. by repeat split.
Qed.

Lemma toggleBillPaid_missing (w : World) (id : string) (flag : bool) :
  list_find (fun b => bill_id b = id) (bills w) = None ->
  toggleBillPaid id flag w = (Throw BillNotFound, w).
Proof.
  intros Hb. unfold toggleBillPaid, getBills. unfold bind at 1.
  by rewrite Hb.
Qed.

(** X12.  Toggling a bill twice brings the bills back to what they were, but
    not the ledger: the call that marked the bill paid has recorded its
    payment when its flag was set, and the call that marked it unpaid
    removes nothing.  So a bill that goes through paid and back leaves one
    outflow of its amount behind, and none when the paying call's flag was
    off.  On an id that no bill carries the call throws the not-found error
    and changes nothing. *)
Theorem toggleBillPaid_twice
    (w : World) (id : string) (first second : bool) :
  (forall i b,
      list_find (fun b => bill_id b = id) (bills w) = Some (i, b) ->
      exists b1 w1 b2 w2,
        toggleBillPaid id first w = (Ok b1, w1)
        /\ toggleBillPaid id second w1 = (Ok b2, w2)
        /\ isPaid b1 = negb (isPaid b)
        /\ b2 = b
        /\ bills w2 = bills w
        /\ (if (if isPaid b then second else first)
            then exists tx,
                transactions w2 = transactions w ++ [tx]
                /\ tx_type tx = outflow
                /\ tx_amount tx = bill_amount b
            else transactions w2 = transactions w))
  /\ ((forall b, b ∈ bills w -> bill_id b <> id) ->
      toggleBillPaid id first w = (Throw BillNotFound, w)).
Proof.
  split.
  - intros i b Hb.
    destruct (toggleBillPaid_run w id first i b Hb)
      as (w1 & Hrun1 & Hbs1 & Htx1 & _).
    assert (Hb1 : list_find (fun b => bill_id b = id) (bills w1)
                  = Some (i, flipped b)).
    { rewrite Hbs1. apply (find_insert_same _ (bills w) i b); [done|].
      by destruct (find_lookup _ _ _ _ Hb). }
    destruct (toggleBillPaid_run w1 id second i (flipped b) Hb1)
      as (w2 & Hrun2 & Hbs2 & Htx2 & _).
    exists (flipped b), w1, (flipped (flipped b)), w2.
    split; [exact Hrun1|]. split; [exact Hrun2|]. split; [reflexivity|].
    split; [apply flipped_flipped|]. split.
    + rewrite Hbs2, Hbs1, list_insert_insert_eq, flipped_flipped.
      apply list_insert_id. by destruct (find_lookup _ _ _ _ Hb).
    + cbn [flipped isPaid bill_amount] in Htx2.
      destruct (isPaid b); cbn [negb andb] in *.
      * rewrite Htx1 in Htx2. exact Htx2.
      * destruct first; [|congruence].
        destruct Htx1 as (tx & Htx & Hty & Hamt).
        exists tx. rewrite Htx2. by split.
  - intros Hnone. apply toggleBillPaid_missing.
    apply list_find_None, Forall_forall. exact Hnone.
Qed.

Lemma toggleBillPaid_twice_witness :
  exists b1 w1 b2 w2 tx,
    toggleBillPaid "b-rent" true Demo.office = (Ok b1, w1)
    /\ toggleBillPaid "b-rent" true w1 = (Ok b2, w2)
    /\ bills w2 = bills Demo.office
    /\ transactions w2 = transactions Demo.office ++ [tx]
    /\ tx_amount tx = 500.
Proof.
  destruct (toggleBillPaid_twice Demo.office "b-rent" true true)
    as [Hfound _].
  destruct (Hfound 0%nat Demo.billRent eq_refl)
    as (b1 & w1 & b2 & w2 & Hrun1 & Hrun2 & _ & _ & Hbs & tx & Htx & _ & Hamt).
  exists b1, w1, b2, w2, tx. by repeat split.
Defined.

Lemma createBill_run
    (w : World) (name : string) (amount : Z) (due : string)
    (frequency : Frequency) (category notes : option string) :
  exists b w',
    createBill name amount due frequency category notes w = (Ok b, w')
    /\ bills w' = bills w ++ [b]
    /\ b = mkBill (bill_id b) (JS.trim name) amount due frequency
             (JS.orUndefined (JS.trim <$> category))
             (JS.orUndefined (JS.trim <$> notes)) false (bill_createdAt b)
    /\ transactions w' = transactions w
    /\ debts w' = debts w
    /\ products w' = products w.
Proof.
  unfold createBill. run. eexists _, _. split; [reflexivity|]. run.
  by repeat split.
Qed.

Lemma deleteBill_run (w : World) (id : string) :
  exists w',
    deleteBill id w = (Ok tt, w')
    /\ bills w' = filter (fun b => bill_id b <> id) (bills w)
    /\ transactions w' = transactions w.
Proof.
  unfold deleteBill. run. eexists. split; [reflexivity|]. run. by split.
Qed.

(** X13.  [createBill] always returns: it appends an unpaid bill that
    carries the arguments, with the name trimmed and a blank category or
    note left out, so [getAllBills] then lists the bills of before followed
    by the new one; it records no transaction.  [deleteBill] on the new id
    then returns and leaves the bills of before that do not carry that id,
    which is all of them when the id was new. *)
Theorem createBill_then_deleteBill
    (w : World) (name : string) (amount : Z) (due : string)
    (frequency : Frequency) (category notes : option string) :
  exists b w1 w2,
    createBill name amount due frequency category notes w = (Ok b, w1)
    /\ getAllBills w1 = (Ok (bills w ++ [b]), w1)
    /\ bill_name b = JS.trim name
    /\ bill_amount b = amount
    /\ bill_dueDate b = due
    /\ bill_frequency b = frequency
    /\ bill_category b = JS.orUndefined (JS.trim <$> category)
    /\ bill_notes b = JS.orUndefined (JS.trim <$> notes)
    /\ isPaid b = false
    /\ transactions w1 = transactions w
    /\ deleteBill (bill_id b) w1 = (Ok tt, w2)
    /\ (forall b0, b0 ∈ bills w2 <-> b0 ∈ bills w /\ bill_id b0 <> bill_id b)
    /\ ((forall b0, b0 ∈ bills w -> bill_id b0 <> bill_id b) ->
        bills w2 = bills w).
Proof.
  destruct (createBill_run w name amount due frequency category notes)
    as (b & w1 & Hrun & Hbs & Hb & Htxs & _).
  destruct (deleteBill_run w1 (bill_id b)) as (w2 & Hdel & Hbs2 & _).
  exists b, w1, w2. split; [exact Hrun|].
  split; [unfold getAllBills, getBills; by rewrite Hbs|].
  rewrite Hb at 1 2 3 4 5 6 7. cbn [bill_name bill_amount bill_dueDate
    bill_frequency bill_category bill_notes isPaid].
  repeat (split; [reflexivity|]).
  split; [exact Htxs|]. split; [exact Hdel|].
  assert (Hleft : bills w2 = filter (fun b0 => bill_id b0 <> bill_id b) (bills w)).
  { rewrite Hbs2, Hbs, filter_app, filter_cons_False, filter_nil by tauto.
    apply app_nil_r. }
  rewrite Hleft. split.
  - intros b0. rewrite list_elem_of_filter. tauto.
  - intros Hfresh. by apply filter_all.
Qed.

Lemma createBill_then_deleteBill_witness :
  exists b w1 w2,
    createBill " Water " 30 "2024-08-01" monthly None (Some "") Demo.office
    = (Ok b, w1)
    /\ bill_name b = "Water"
    /\ bill_notes b = None
    /\ deleteBill (bill_id b) w1 = (Ok tt, w2)
    /\ bills w2 = bills Demo.office.
Proof.
  destruct (createBill_then_deleteBill Demo.office " Water " 30 "2024-08-01"
              monthly None (Some ""))
    as (b & w1 & w2 & Hrun & _ & Hname & _ & _ & _ & _ & Hnotes & _ & _
        & Hdel & _ & Hfresh).
  exists b, w1, w2. split; [exact Hrun|]. split; [exact Hname|].
  split; [exact Hnotes|]. split; [exact Hdel|]. apply Hfresh.
  assert (Hid : bill_id b = "1750000000000_r0").
  { assert (Hfst : fst (createBill " Water " 30 "2024-08-01" monthly None
                          (Some "") Demo.office) = Ok b)
      by (by rewrite Hrun).
    vm_compute in Hfst. injection Hfst as <-. reflexivity. }
  rewrite Hid. intros b0 Hb0.
  repeat (apply elem_of_cons in Hb0 as [->|Hb0]; [discriminate|]).
  by apply elem_of_nil in Hb0.
Defined.

(** X14.  [updateBill] keeps what identifies a bill.  On an id that is found
    it returns; the stored bill keeps its id and its creation date, its name
    stays non-empty when it was, and the other bills stay where they are.
    The paid flag is the payload's when it has one, and whatever it becomes
    the ledger is not touched: marking a bill paid through [updateBill]
    records no payment.  On an id that no bill carries it throws the
    not-found error and changes nothing. *)
Theorem updateBill_keeps_identity (w : World) (id : string) (u : BillUpdates) :
  (forall i b,
      list_find (fun b => bill_id b = id) (bills w) = Some (i, b) ->
      exists b' w',
        updateBill id u w = (Ok b', w')
        /\ bill_id b' = id
        /\ bill_createdAt b' = bill_createdAt b
        /\ (bill_name b <> "" -> bill_name b' <> "")
        /\ isPaid b' = JS.definedOr (upd_isPaid u) (isPaid b)
        /\ bills w' = <[i := b']> (bills w)
        /\ (forall j, j <> i -> bills w' !! j = bills w !! j)
        /\ length (bills w') = length (bills w)
        /\ transactions w' = transactions w)
  /\ ((forall b, b ∈ bills w -> bill_id b <> id) ->
      updateBill id u w = (Throw BillNotFound, w)).
Proof.
  split.
  - intros i b Hb. destruct (find_lookup _ _ _ _ Hb) as [Hi Hid].
    unfold updateBill, getBills. unfold bind at 1. rewrite Hb. run.
    eexists _, _. split; [reflexivity|]. run.
    cbn [bill_id bill_createdAt bill_name isPaid].
    split; [exact Hid|]. split; [reflexivity|].
    split; [apply orElse_nonempty|]. split; [reflexivity|].
    split; [reflexivity|]. split; [|split; [|reflexivity]].
    + intros j Hj. by apply list_lookup_insert_ne.
    + by rewrite length_insert.
  - intros Hnone. unfold updateBill, getBills. unfold bind at 1.
    assert (Hf : list_find (fun b => bill_id b = id) (bills w) = None)
      by (apply list_find_None, Forall_forall; exact Hnone).
    by rewrite Hf.
Qed.

Lemma updateBill_keeps_identity_witness :
  exists b' w',
    updateBill "b-rent" (mkBillUpdates (Some " ") None None None None None
                           (Some true)) Demo.office = (Ok b', w')
    /\ bill_name b' <> ""
    /\ isPaid b' = true
    /\ transactions w' = transactions Demo.office.
Proof.
  destruct (updateBill_keeps_identity Demo.office "b-rent"
              (mkBillUpdates (Some " ") None None None None None (Some true)))
    as [Hfound _].
  destruct (Hfound 0%nat Demo.billRent eq_refl)
    as (b' & w' & Hrun & _ & _ & Hname & Hpaid & _ & _ & _ & Htxs).
  exists b', w'. split; [exact Hrun|].
  split; [apply Hname; discriminate|]. by split.
Defined.

(* ===================================================================== *)
(** ** The catalog over several calls                                     *)
(* ===================================================================== *)

Lemma getProductById_run (w : World) (pid : string) :
  getProductById pid w = (Ok (findProduct pid (products w)), w).
Proof. reflexivity. Qed.

Lemma variantTotal_insert
    (vs : list ProductVariant) (j : nat) (v v' : ProductVariant) :
  vs !! j = Some v ->
  variantTotal (<[j := v']> vs)
  = variantTotal vs - variant_quantity v + variant_quantity v'.
Proof.
  unfold variantTotal. revert j.
  induction vs as [|a vs IH]; intros j Hj; [done|].
  destruct j as [|j]; cbn [lookup list_lookup] in Hj.
  - injection Hj as ->. change (<[0%nat:=v']> (v :: vs)) with (v' :: vs).
    rewrite !fmap_cons. cbn [foldr]. lia.
  - specialize (IH j Hj).
    change (<[S j:=v']> (a :: vs)) with (a :: <[j:=v']> vs).
    rewrite !fmap_cons. cbn [foldr]. lia.
Qed.

(** X15.  [updateVariantQuantity] touches one variant of one product.  For a
    product and a variant that are found it returns; that variant gets the
    new quantity, or zero for a negative one, and the other variants, the
    name, the price, the category, the creation date and the variant switch
    stay; the total moves by the same amount as the variant; the id reads as
    the returned product and every other product stays where it is.  On a
    product id that is not found it throws the product error, on a variant
    id that the product does not have the variant error, and in both cases
    nothing changes. *)
Theorem updateVariantQuantity_touches_one_variant
    (w : World) (pid vid : string) (q : Z) :
  (forall i p j v,
      list_find (fun p => product_id p = pid) (products w) = Some (i, p) ->
      list_find (fun v => variant_id v = vid) (variants p) = Some (j, v) ->
      exists p' w',
        updateVariantQuantity pid vid q w = (Ok p', w')
        /\ variants p' !! j = Some (setQuantity v (Z.max 0 q))
        /\ (forall k, k <> j -> variants p' !! k = variants p !! k)
        /\ length (variants p') = length (variants p)
        /\ totalQuantity p'
           = variantTotal (variants p) - variant_quantity v + Z.max 0 q
        /\ product_id p' = pid
        /\ product_name p' = product_name p
        /\ price p' = price p
        /\ product_category p' = product_category p
        /\ createdAt p' = createdAt p
        /\ hasVariants p' = hasVariants p
        /\ fst (getProductById pid w') = Ok (Some p')
        /\ (forall pid', pid' <> pid ->
                         fst (getProductById pid' w')
                         = fst (getProductById pid' w))
        /\ (forall k, k <> i -> products w' !! k = products w !! k))
  /\ ((forall p, p ∈ products w -> product_id p <> pid) ->
      updateVariantQuantity pid vid q w = (Throw ProductNotFound, w))
  /\ (forall i p,
        list_find (fun p => product_id p = pid) (products w) = Some (i, p) ->
        (forall v, v ∈ variants p -> variant_id v <> vid) ->
        updateVariantQuantity pid vid q w = (Throw VariantNotFound, w)).
Proof.
  split; [|split].
  - intros i p j v Hp Hv.
    destruct (find_lookup _ _ _ _ Hp) as [Hi Hpid].
    destruct (find_lookup _ _ _ _ Hv) as [Hj Hvid].
    unfold updateVariantQuantity, getProducts. unfold bind at 1.
    rewrite Hp, Hv. run.
    eexists _, _. split; [reflexivity|]. run.
    cbn [variants totalQuantity product_id product_name price
           product_category createdAt hasVariants].
    split; [apply list_lookup_insert_eq; eauto using lookup_lt_Some|].
    split; [intros k Hk; by apply list_lookup_insert_ne|].
    split; [by rewrite length_insert|].
    split.
    { rewrite sumVariants_variantTotal.
      by rewrite (variantTotal_insert _ j v _ Hj). }
    split; [exact Hpid|].
    repeat (split; [reflexivity|]).
    rewrite !getProductById_run. cbn [fst products].
    split; [|split].
    + f_equal. by apply (findProduct_insert_same _ pid i p).
    + intros pid' Hne. rewrite !getProductById_run. cbn [fst products].
      f_equal. by apply (findProduct_insert_other _ pid pid' i p).
    + intros k Hk. by apply list_lookup_insert_ne.
  - intros Hnone. unfold updateVariantQuantity, getProducts.
    unfold bind at 1.
    assert (Hf : list_find (fun p => product_id p = pid) (products w) = None)
      by (apply list_find_None, Forall_forall; exact Hnone).
    by rewrite Hf.
  - intros i p Hp Hnone. unfold updateVariantQuantity, getProducts.
    unfold bind at 1. rewrite Hp.
    assert (Hf : list_find (fun v => variant_id v = vid) (variants p) = None)
      by (apply list_find_None, Forall_forall; exact Hnone).
    by rewrite Hf.
Qed.

Lemma updateVariantQuantity_touches_one_variant_witness :
  (exists p' w',
      updateVariantQuantity "p-shirt" "v-s" 2 Demo.shop = (Ok p', w')
      /\ variants p' !! 1%nat = Some Demo.shirtM
      /\ totalQuantity p' = 5
      /\ fst (getProductById "p-mug" w') = Ok (Some Demo.mug))
  /\ updateVariantQuantity "p-none" "v-s" 2 Demo.shop
     = (Throw ProductNotFound, Demo.shop)
  /\ updateVariantQuantity "p-mug" "v-s" 2 Demo.shop
     = (Throw VariantNotFound, Demo.shop).
Proof.
  destruct (updateVariantQuantity_touches_one_variant Demo.shop "p-shirt"
              "v-s" 2) as (Hfound & _ & _).
  destruct (Hfound 0%nat Demo.shirt 0%nat Demo.shirtS eq_refl eq_refl)
    as (p' & w' & Hrun & _ & Hrest & _ & Htotal & _ & _ & _ & _ & _ & _ & _
        & Hothers & _).
  split; [|split].
  - exists p', w'. split; [exact Hrun|].
    split; [by rewrite Hrest|]. split; [exact Htotal|].
    by rewrite Hothers.
  - apply (updateVariantQuantity_touches_one_variant Demo.shop "p-none"
             "v-s" 2).
    intros p Hp.
    repeat (apply elem_of_cons in Hp as [->|Hp]; [discriminate|]).
    by apply elem_of_nil in Hp.
  - destruct (updateVariantQuantity_touches_one_variant Demo.shop "p-mug"
                "v-s" 2) as (_ & _ & Hvariant).
    apply (Hvariant 1%nat Demo.mug eq_refl).
    intros v Hv. by apply elem_of_nil in Hv.
Defined.

Lemma createProduct_variants_carry (vs : list VariantInput) (w : World) :
  exists pvs w',
    mapM (fun v =>
            newId <- generateId ;;
            ret {| variant_id := newId;
                   variant_name := input_name v;
                   variant_quantity := input_quantity v;
                   sku := input_sku v |}) vs w = (Ok pvs, w')
    /\ ((fun v => (variant_name v, variant_quantity v, sku v)) <$> pvs)
       = ((fun v => (input_name v, input_quantity v, input_sku v)) <$> vs)
    /\ nothingWritten w w'.
Proof.
  revert w. induction vs as [|v vs IH]; intros w.
  - exists [], w. split; [reflexivity|]. split; [done|apply nothingWritten_refl].
  - cbn [mapM]. unfold bind at 1. unfold bind at 1.
    destruct (generateId_run w) as (newId & w1 & -> & Hw1).
    cbn [ret]. unfold bind at 1.
    destruct (IH w1) as (pvs & w2 & -> & Hq & Hw2).
    eexists _, w2. split; [reflexivity|]. split.
    + rewrite !fmap_cons. cbn. by rewrite Hq.
    + eauto using nothingWritten_trans.
Qed.

Lemma deleteProduct_run (w : World) (pid : string) :
  exists w',
    deleteProduct pid w = (Ok tt, w')
    /\ products w' = filter (fun p => product_id p <> pid) (products w)
    /\ transactions w' = transactions w.
Proof.
  unfold deleteProduct. run. eexists. split; [reflexivity|]. run. by split.
Qed.

(** X16.  [createProduct] always returns and appends one product.  It carries
    the arguments: the name trimmed, the description and the category
    trimmed when given (a blank one is kept as the empty text), the price,
    the image, the variant switch, off by default, and one variant per
    variant given, in the same order, with its name, quantity and SKU.
    Reading the new id back gives the new product when no stored product
    had the id, and every other id reads as before; [deleteProduct] on the
    new id then leaves the catalog as it was before the creation. *)
Theorem createProduct_then_read_and_delete
    (w : World) (name : string) (cost : Z)
    (description picture category : option string)
    (hv : option bool) (vs : option (list VariantInput)) (sq : option Z) :
  exists p w1 w2,
    createProduct name cost description picture category hv vs sq w
    = (Ok p, w1)
    /\ products w1 = products w ++ [p]
    /\ product_name p = JS.trim name
    /\ product_description p = JS.trim <$> description
    /\ product_category p = JS.trim <$> category
    /\ price p = cost
    /\ image p = picture
    /\ hasVariants p = JS.definedOr hv false
    /\ ((fun v => (variant_name v, variant_quantity v, sku v)) <$> variants p)
       = ((fun v => (input_name v, input_quantity v, input_sku v))
            <$> JS.definedOr vs [])
    /\ (forall pid, pid <> product_id p ->
                    fst (getProductById pid w1) = fst (getProductById pid w))
    /\ deleteProduct (product_id p) w1 = (Ok tt, w2)
    /\ fst (getProductById (product_id p) w2) = Ok None
    /\ ((forall p0, p0 ∈ products w -> product_id p0 <> product_id p) ->
        fst (getProductById (product_id p) w1) = Ok (Some p)
        /\ products w2 = products w).
Proof.
  assert (Hcreate :
            exists p w1,
              createProduct name cost description picture category hv vs sq w
              = (Ok p, w1)
              /\ products w1 = products w ++ [p]
              /\ product_name p = JS.trim name
              /\ product_description p = JS.trim <$> description
              /\ product_category p = JS.trim <$> category
              /\ price p = cost
              /\ image p = picture
              /\ hasVariants p = JS.definedOr hv false
              /\ ((fun v => (variant_name v, variant_quantity v, sku v))
                    <$> variants p)
                 = ((fun v => (input_name v, input_quantity v, input_sku v))
                      <$> JS.definedOr vs [])).
  { unfold createProduct, getProducts. unfold bind at 1. unfold bind at 1.
    destruct (createProduct_variants_carry (JS.definedOr vs []) w)
      as (pvs & w0 & -> & Hcarry & Hw0).
    destruct Hw0 as (_ & _ & _ & Hps & _).
    run. eexists _, _. split; [reflexivity|].
    run. repeat split; done. }
  destruct Hcreate as (p & w1 & Hrun & Hps & Hrest).
  destruct (deleteProduct_run w1 (product_id p)) as (w2 & Hdel & Hps2 & _).
  exists p, w1, w2. split; [exact Hrun|]. split; [exact Hps|].
  destruct Hrest as (Hn & Hd & Hc & Hpr & Hi & Hhv & Hvs).
  repeat (split; [assumption|]).
  assert (Hleft : products w2
                  = filter (fun p0 => product_id p0 <> product_id p)
                      (products w)).
  { rewrite Hps2, Hps, filter_app, filter_cons_False, filter_nil by tauto.
    apply app_nil_r. }
  split; [|split; [exact Hdel|split]].
  - intros pid Hne. rewrite !getProductById_run. cbn [fst].
    rewrite Hps. f_equal. apply find_app_other. congruence.
  - rewrite getProductById_run. cbn [fst]. rewrite Hleft. f_equal.
    unfold findProduct.
    by rewrite (find_filter_dropped (fun p0 => product_id p0 = product_id p)).
  - intros Hfresh. split.
    + rewrite getProductById_run. cbn [fst]. rewrite Hps. f_equal.
      by apply find_app_fresh.
    + rewrite Hleft. by apply filter_all.
Qed.

Lemma createProduct_then_read_and_delete_witness :
  exists p w1 w2,
    createProduct " Scarf " 15 (Some " ") None None None
      (Some [mkVariantInput "Red" 4 None]) None Demo.shop = (Ok p, w1)
    /\ product_name p = "Scarf"
    /\ product_description p = Some ""
    /\ fst (getProductById (product_id p) w1) = Ok (Some p)
    /\ deleteProduct (product_id p) w1 = (Ok tt, w2)
    /\ products w2 = products Demo.shop.
Proof.
  destruct (createProduct_then_read_and_delete Demo.shop " Scarf " 15
              (Some " ") None None None (Some [mkVariantInput "Red" 4 None])
              None)
    as (p & w1 & w2 & Hrun & _ & Hname & Hdesc & _ & _ & _ & _ & _ & _
        & Hdel & _ & Hfresh).
  assert (Hnew : forall p0, p0 ∈ products Demo.shop ->
                            product_id p0 <> product_id p).
  { assert (Hid : product_id p = "1750000000001_r1").
    { assert (Hfst : fst (createProduct " Scarf " 15 (Some " ") None None None
                            (Some [mkVariantInput "Red" 4 None]) None
                            Demo.shop) = Ok p)
        by (by rewrite Hrun).
      vm_compute in Hfst. injection Hfst as <-. reflexivity. }
    rewrite Hid. intros p0 Hp0.
    repeat (apply elem_of_cons in Hp0 as [->|Hp0]; [discriminate|]).
    by apply elem_of_nil in Hp0. }
  destruct (Hfresh Hnew) as [Hread Hback].
  exists p, w1, w2. by repeat split.
Defined.

(** X17.  [updateProduct] keeps what identifies a product.  On an id that is
    found it returns; the stored product keeps its id and its creation date,
    its name stays non-empty when it was, its price and its image are the
    payload's when it has them and the former ones otherwise; the id reads
    as the returned product, every other id as before, and the other
    products stay where they are.  On an id that is not found it throws the
    product error and changes nothing. *)
Theorem updateProduct_keeps_identity
    (w : World) (pid : string) (u : ProductUpdates) :
  (forall i p,
      list_find (fun p => product_id p = pid) (products w) = Some (i, p) ->
      exists p' w',
        updateProduct pid u w = (Ok p', w')
        /\ product_id p' = pid
        /\ createdAt p' = createdAt p
        /\ (product_name p <> "" -> product_name p' <> "")
        /\ price p' = JS.definedOr (upd_price u) (price p)
        /\ (forall picture, upd_image u = Some picture ->
                            image p' = Some picture)
        /\ (upd_image u = None -> image p' = image p)
        /\ fst (getProductById pid w') = Ok (Some p')
        /\ (forall pid', pid' <> pid ->
                         fst (getProductById pid' w')
                         = fst (getProductById pid' w))
        /\ (forall k, k <> i -> products w' !! k = products w !! k)
        /\ length (products w') = length (products w))
  /\ ((forall p, p ∈ products w -> product_id p <> pid) ->
      updateProduct pid u w = (Throw ProductNotFound, w)).
Proof.
  split.
  - intros i p Hp. destruct (find_lookup _ _ _ _ Hp) as [Hi Hpid].
    unfold updateProduct, getProducts. unfold bind at 1. rewrite Hp. run.
    eexists _, _. split; [reflexivity|]. run.
    cbn [product_id createdAt product_name price image].
    split; [exact Hpid|]. split; [reflexivity|].
    split; [apply orElse_nonempty|]. split; [reflexivity|].
    split; [by intros picture ->|]. split; [by intros ->|].
    rewrite !getProductById_run. cbn [fst products].
    split; [|split; [|split]].
    + f_equal. by apply (findProduct_insert_same _ pid i p).
    + intros pid' Hne. rewrite !getProductById_run. cbn [fst products].
      f_equal. by apply (findProduct_insert_other _ pid pid' i p).
    + intros k Hk. by apply list_lookup_insert_ne.
    + by rewrite length_insert.
  - intros Hnone. unfold updateProduct, getProducts. unfold bind at 1.
    assert (Hf : list_find (fun p => product_id p = pid) (products w) = None)
      by (apply list_find_None, Forall_forall; exact Hnone).
    by rewrite Hf.
Qed.

Lemma updateProduct_keeps_identity_witness :
  (exists p' w',
      updateProduct "p-mug" (mkProductUpdates (Some "  ") None None (Some 8)
                               None None None None) Demo.shop = (Ok p', w')
      /\ product_name p' <> ""
      /\ price p' = 8
      /\ image p' = image Demo.mug
      /\ fst (getProductById "p-shirt" w') = Ok (Some Demo.shirt))
  /\ (exists p' w',
        updateProduct "p-mug" (mkProductUpdates None None (Some "mug.png")
                                 None None None None None) Demo.shop
        = (Ok p', w')
        /\ image p' = Some "mug.png"
        /\ price p' = 7)
  /\ updateProduct "p-none" (mkProductUpdates None None None (Some 8) None
                               None None None) Demo.shop
     = (Throw ProductNotFound, Demo.shop).
Proof.
  split; [|split].
  - destruct (updateProduct_keeps_identity Demo.shop "p-mug"
                (mkProductUpdates (Some "  ") None None (Some 8) None None
                   None None)) as [Hfound _].
    destruct (Hfound 1%nat Demo.mug eq_refl)
      as (p' & w' & Hrun & _ & _ & Hname & Hprice & _ & Himage & _ & Hothers
          & _).
    exists p', w'. split; [exact Hrun|].
    split; [apply Hname; discriminate|]. split; [exact Hprice|].
    split; [by apply Himage|]. by rewrite Hothers.
  - destruct (updateProduct_keeps_identity Demo.shop "p-mug"
                (mkProductUpdates None None (Some "mug.png") None None None
                   None None)) as [Hfound _].
    destruct (Hfound 1%nat Demo.mug eq_refl)
      as (p' & w' & Hrun & _ & _ & _ & Hprice & Hgiven & _).
    exists p', w'. split; [exact Hrun|].
    split; [by apply Hgiven|exact Hprice].
  - apply (updateProduct_keeps_identity Demo.shop "p-none"
             (mkProductUpdates None None None (Some 8) None None None None)).
    intros p Hp.
    repeat (apply elem_of_cons in Hp as [->|Hp]; [discriminate|]).
    by apply elem_of_nil in Hp.
Defined.

(* ===================================================================== *)
(** ** The categories of the catalog                                      *)
(* ===================================================================== *)

Lemma elem_of_fromSet (xs : list string) (x : string) :
  x ∈ fromSet xs <-> x ∈ xs.
Proof.
  induction xs as [|a xs IH]; [done|]. cbn [fromSet].
  rewrite !elem_of_cons, list_elem_of_filter, IH.
  destruct (decide (x = a)); intuition.
Qed.

Lemma NoDup_fromSet (xs : list string) : NoDup (fromSet xs).
Proof.
  induction xs as [|a xs IH]; [constructor|]. cbn [fromSet].
  apply NoDup_cons. split.
  - intros Hin. by apply list_elem_of_filter in Hin as [Hne _].
  - by apply NoDup_filter.
Qed.

Lemma orUndefined_Some (o : option string) (c : string) :
  JS.orUndefined o = Some c <-> o = Some c /\ c <> "".
Proof.
  destruct o as [s|]; cbn; [|intuition discriminate].
  destruct (JS.truthy s) eqn:Hs.
  - apply truthy_nonempty in Hs. intuition congruence.
  - assert (s = "") as -> by (destruct s; [done|discriminate]).
    intuition congruence.
Qed.

Lemma compare_refl (a : string) : String.compare a a = Eq.
Proof.
  induction a as [|c a IH]; [done|]. cbn.
  unfold Ascii.compare. by rewrite N.compare_refl.
Qed.

(** The order of strings by their code units is transitive. *)
Lemma compare_trans (a b c : string) :
  String.compare a b <> Gt -> String.compare b c <> Gt ->
  String.compare a c <> Gt.
Proof.
  revert b c. induction a as [|x a IH]; intros [|y b] [|z c]; cbn; try done.
  unfold Ascii.compare.
  destruct (N.compare_spec (N_of_ascii x) (N_of_ascii y)) as [Hxy|Hxy|Hxy],
    (N.compare_spec (N_of_ascii y) (N_of_ascii z)) as [Hyz|Hyz|Hyz],
    (N.compare_spec (N_of_ascii x) (N_of_ascii z)) as [Hxz|Hxz|Hxz];
    try done; try lia.
  apply IH.
Qed.

Lemma compareStrings_le (a b : string) :
  compareStrings a b <= 0 <-> String.compare a b <> Gt.
Proof. unfold compareStrings. destruct (String.compare a b); intuition. Qed.

(** X18.  [getCategories] writes nothing and lists the categories of the
    catalog: a text is listed exactly when it is not empty and is the
    category of a stored product; it is listed once; and the list is in
    increasing order of the texts. *)
Theorem getCategories_lists_each_once (w : World) :
  exists cs,
    getCategories w = (Ok cs, w)
    /\ (forall c, c ∈ cs
                  <-> c <> ""
                      /\ exists p, p ∈ products w /\ product_category p = Some c)
    /\ NoDup cs
    /\ StronglySorted (fun a b => String.compare a b = Lt) cs.
Proof.
  eexists. split; [reflexivity|].
  set (categories :=
         omap (fun p => JS.orUndefined (product_category p)) (products w)).
  assert (Hnodup : NoDup (sort compareStrings (fromSet categories)))
    by (rewrite sort_perm; apply NoDup_fromSet).
  split; [|split; [exact Hnodup|]].
  - intros c. rewrite elem_of_sort, elem_of_fromSet.
    subst categories. rewrite list_elem_of_omap. split.
    + intros (p & Hp & Hc). apply orUndefined_Some in Hc as [Hc Hne]. eauto.
    + intros (Hne & p & Hp & Hc). exists p. split; [done|].
      by apply orUndefined_Some.
  - pose proof (sort_sorted compareStrings (fun _ => True)) as Hsorted.
    assert (Hle : StronglySorted (fun a b => compareStrings a b <= 0)
                    (sort compareStrings (fromSet categories))).
    { apply Hsorted.
      - intros a b _ _. rewrite !compareStrings_le.
        rewrite (String.compare_antisym b a).
        destruct (String.compare a b); cbn; intuition congruence.
      - intros a b c _ _ _. rewrite !compareStrings_le. apply compare_trans.
      - by apply Forall_forall. }
    clear Hsorted. revert Hnodup Hle.
    generalize (sort compareStrings (fromSet categories)).
    intros l Hnodup Hle. induction Hle as [|a l Hle IH Ha]; [constructor|].
    apply NoDup_cons in Hnodup as [Hnotin Hnodup].
    apply SSorted_cons; [by apply IH|].
    rewrite Forall_forall in Ha. apply Forall_forall. intros b Hb.
    specialize (Ha b Hb). apply compareStrings_le in Ha.
    destruct (String.compare a b) eqn:Hab; [|done|done].
    apply String.compare_eq_iff in Hab. congruence.
Qed.

(* ===================================================================== *)
(** ** The outcomes of a submitted sale                                   *)
(* ===================================================================== *)

(** X19.  A submitted sale ends in one of three ways.  With nothing chosen
    the form alerts and stays as it is, the ledger and the catalog
    untouched.  Otherwise either every stock update returns, the form is
    reset and exactly one transaction is recorded, an inflow that carries
    the items of the sale and whose amount is the sum of price × quantity
    over those items; or a stock update throws one of the two catalog
    errors, the submission throws it too, and no transaction is recorded. *)
Theorem handleSubmit_outcomes (st : FormState) (w : World) :
  (productQuantities st = [] ->
   exists w',
     handleSubmit st w = (Ok st, w')
     /\ trace w' = trace w ++ [Alert "Agrega al menos un producto a la venta"]
     /\ transactions w' = transactions w
     /\ products w' = products w)
  /\ (productQuantities st <> [] ->
      (exists w' tx,
          handleSubmit st w = (Ok (mkFormState (form_products st) [] "" ""), w')
          /\ transactions w' = transactions w ++ [tx]
          /\ tx_type tx = inflow
          /\ tx_items tx = Some (saleItems st)
          /\ tx_amount tx = itemsAmount (saleItems st)
          /\ tx_paymentMethod tx = JS.orUndefined (Some (paymentMethod st)))
      \/ (exists err w',
            handleSubmit st w = (Throw err, w')
            /\ catalogError err
            /\ transactions w' = transactions w)).
Proof.
  split.
  - intros Hnone. unfold handleSubmit, handleSubmitWith. rewrite Hnone.
    cbn [length Nat.eqb]. run. eexists. by split.
  - intros Hsome. rewrite (handleSubmit_nonempty st w Hsome).
    destruct (sellLines_outcome st (productQuantities st) w)
      as [(w1 & -> & Htxs)|(err & w1 & -> & Herr & Htxs)].
    + left.
      destruct (addTransaction_run w1 inflow (saleDescription st)
                  (calculateTotal st) None
                  (JS.orUndefined (Some (paymentMethod st)))
                  (Some (saleItems st)))
        as (tx & w' & -> & Htxs' & Hty & _ & Hamt & _ & Hpm & Hitems & _).
      exists w', tx. split; [reflexivity|].
      split; [congruence|]. split; [exact Hty|]. split; [exact Hitems|].
      split; [by rewrite Hamt, calculateTotal_items|exact Hpm].
    + right. exists err, w1. by split.
Qed.

Lemma handleSubmit_outcomes_witness :
  (exists w', handleSubmit Demo.emptyBasket Demo.shop
              = (Ok Demo.emptyBasket, w')
              /\ transactions w' = transactions Demo.shop)
  /\ (exists err w',
         handleSubmit Demo.basket Demo.shopWithoutMug = (Throw err, w')
         /\ transactions w' = transactions Demo.shopWithoutMug
         /\ totalQuantity <$> findProduct "p-shirt" (products w') = Some 6).
Proof.
  split.
  - destruct (handleSubmit_outcomes Demo.emptyBasket Demo.shop)
      as [Hempty _].
    destruct (Hempty eq_refl) as (w' & Hrun & _ & Htxs & _). eauto.
  - destruct (handleSubmit_outcomes Demo.basket Demo.shopWithoutMug)
      as [_ Hsome].
    destruct (Hsome ltac:(discriminate))
      as [(w' & tx & Hrun & _)|(err & w' & Hrun & _ & Htxs)].
    + exfalso.
      assert (Hfst : fst (handleSubmit Demo.basket Demo.shopWithoutMug)
                     = Ok (mkFormState (form_products Demo.basket) [] "" ""))
        by (by rewrite Hrun).
      vm_compute in Hfst. discriminate.
    + exists err, w'. split; [exact Hrun|]. split; [exact Htxs|].
      assert (Hsnd : snd (handleSubmit Demo.basket Demo.shopWithoutMug) = w')
        by (by rewrite Hrun).
      rewrite <- Hsnd. vm_compute. reflexivity.
Defined.

(* ===================================================================== *)
(** ** The form on a concrete catalog                                     *)
(* ===================================================================== *)

Lemma shop_ids : idsWellFormed (products Demo.shop).
Proof.
  split.
  - cbn.
    repeat (apply NoDup_cons; split;
            [intros Hin;
             repeat (apply elem_of_cons in Hin as [Hin|Hin]; [discriminate|]);
             by apply elem_of_nil in Hin|]).
    apply NoDup_nil_2.
  - intros p v Hp Hv.
    repeat (apply elem_of_cons in Hp as [->|Hp];
            [repeat (apply elem_of_cons in Hv as [->|Hv]; [reflexivity|]);
             by apply elem_of_nil in Hv|]).
    by apply elem_of_nil in Hp.
Qed.

Lemma formReachable_within_stock_witness :
  idsWellFormed (products Demo.shop)
  /\ formReachable (products Demo.shop) Demo.oneShirt
  /\ linesWithinStock (products Demo.shop) Demo.oneShirt
  /\ productQuantities Demo.oneShirt
     = [("p-shirt", mkLineData 1 (Some "v-s"))].
Proof.
  assert (Hreach : formReachable (products Demo.shop) Demo.oneShirt).
  { apply reach_card; [apply reach_mounted|by left]. }
  split; [exact shop_ids|]. split; [exact Hreach|]. split; [|reflexivity].
  exact (formReachable_within_stock (products Demo.shop) Demo.oneShirt
           shop_ids Hreach).
Defined.

Lemma loadProducts_agrees_witness :
  NoDup (product_id <$> products Demo.shop)
  /\ exists st' w',
       loadProducts Demo.emptyBasket Demo.shop = (Ok st', w')
       /\ products w' = products Demo.shop
       /\ findProduct "p-mug" (form_products st') = Some Demo.mug.
Proof.
  assert (Hnodup : NoDup (product_id <$> products Demo.shop))
    by exact (proj1 shop_ids).
  split; [exact Hnodup|].
  destruct (loadProducts_agrees Demo.shop Demo.emptyBasket Hnodup)
    as (st' & w' & Hrun & Hps & _ & _ & Hsame).
  exists st', w'. split; [exact Hrun|]. split; [exact Hps|].
  by rewrite Hsame, Hps.
Defined.

(* ===================================================================== *)
(** ** What a card shows after a click                                    *)
(* ===================================================================== *)

Lemma getKey_setKey {A : Type} (obj : list (string * A)) (key key' : string)
    (value : A) :
  getKey key' (setKey key value obj)
  = if decide (key' = key) then Some value else getKey key' obj.
Proof.
  induction obj as [|[k v] obj IH]; cbn [setKey getKey].
  - destruct (decide (key = key')), (decide (key' = key)); congruence.
  - destruct (decide (k = key)) as [->|Hk]; cbn [getKey].
    + destruct (decide (key = key')), (decide (key' = key)); congruence.
    + rewrite IH.
      destruct (decide (k = key')), (decide (key' = key)); congruence.
Qed.

Lemma getKey_deleteKey {A : Type} (obj : list (string * A)) (key key' : string) :
  getKey key' (deleteKey key obj)
  = if decide (key' = key) then None else getKey key' obj.
Proof.
  unfold deleteKey. induction obj as [|[k v] obj IH]; cbn [getKey].
  - by destruct (decide (key' = key)).
  - rewrite filter_cons. cbn [fst].
    destruct (decide (k <> key)) as [Hk|Hk]; cbn [getKey].
    + rewrite IH.
      destruct (decide (k = key')), (decide (key' = key)); congruence.
    + apply dec_stable in Hk. rewrite IH.
      destruct (decide (k = key')), (decide (key' = key)); congruence.
Qed.

(** What [updateProductQuantity] leaves to be read under each key. *)
Lemma getKey_updateProductQuantity
    (st : FormState) (pid pid' : string) (q : Z) (vid : option string) :
  getKey pid' (productQuantities (updateProductQuantity st pid q vid))
  = if decide (pid' = pid)
    then (if q =? 0 then None else Some (mkLineData q vid))
    else getKey pid' (productQuantities st).
Proof.
  unfold updateProductQuantity. destruct (q =? 0); cbn [productQuantities
    setProductQuantities]; [apply getKey_deleteKey|apply getKey_setKey].
Qed.

Lemma currentQuantity_updateProductQuantity
    (st : FormState) (p : Product) (q : Z) (vid : option string) :
  currentQuantity (updateProductQuantity st (product_id p) q vid) p = q.
Proof.
  unfold currentQuantity. rewrite getKey_updateProductQuantity.
  rewrite decide_True by done.
  destruct (q =? 0) eqn:Hq; [|done]. apply Z.eqb_eq in Hq. by subst.
Qed.

Lemma onCardEvent_others
    (st : FormState) (product : Product) (ev : CardEvent) (pid : string) :
  pid <> product_id product ->
  getKey pid (productQuantities (onCardEvent st product ev))
  = getKey pid (productQuantities st).
Proof.
  intros Hne. unfold onCardEvent. destruct ev as [| |variantId].
  - destruct (_ =? 0); [done|].
    rewrite getKey_updateProductQuantity. by rewrite decide_False.
  - destruct (_ || _); [done|].
    rewrite getKey_updateProductQuantity. by rewrite decide_False.
  - destruct (_ && _); [|done]. unfold updateProductVariant.
    destruct (findProduct _ _) as [p|]; [|done].
    destruct (findVariant _ _) as [v|]; [|done].
    destruct (0 <? variant_quantity v); [|done].
    cbn [productQuantities setProductQuantities].
    rewrite getKey_setKey. by rewrite decide_False.
Qed.

(** X22.  The controls of a card step its quantity.  The minus button takes
    one off, down to zero; the plus button adds one unless it is disabled,
    which it is when the quantity has reached the stock that the card shows
    or when that stock is zero, so a quantity within that stock stays within
    it; choosing a variant shows either the former quantity or one.  No
    control of a card changes what the card of a product with another id
    shows, nor the products, the payment method or the search term of the
    form. *)
Theorem card_controls_step (st : FormState) (product : Product) :
  let cur := currentQuantity st product in
  let maxStock := getMaxStock product (cardVariantId st product) in
  currentQuantity (onCardEvent st product ClickMinus) product
  = Z.max 0 (cur - 1)
  /\ currentQuantity (onCardEvent st product ClickPlus) product
     = (if (maxStock <=? cur) || (maxStock =? 0) then cur else cur + 1)
  /\ (cur <= maxStock ->
      currentQuantity (onCardEvent st product ClickPlus) product <= maxStock)
  /\ (forall variantId,
         currentQuantity (onCardEvent st product (ChooseVariant variantId))
           product = cur
         \/ currentQuantity (onCardEvent st product (ChooseVariant variantId))
              product = 1)
  /\ (forall ev other,
         product_id other <> product_id product ->
         currentQuantity (onCardEvent st product ev) other
         = currentQuantity st other
         /\ cardVariantId (onCardEvent st product ev) other
            = cardVariantId st other)
  /\ (forall ev,
         form_products (onCardEvent st product ev) = form_products st
         /\ paymentMethod (onCardEvent st product ev) = paymentMethod st
         /\ searchTerm (onCardEvent st product ev) = searchTerm st).
Proof.
  intros cur maxStock.
  assert (Hplus : currentQuantity (onCardEvent st product ClickPlus) product
                  = (if (maxStock <=? cur) || (maxStock =? 0)
                     then cur else cur + 1)).
  { unfold onCardEvent. fold cur. fold maxStock.
    destruct ((maxStock <=? cur) || (maxStock =? 0)); [done|].
    apply currentQuantity_updateProductQuantity. }
  split; [|split; [exact Hplus|split; [|split; [|split]]]].
  - unfold onCardEvent. fold cur.
    destruct (cur =? 0) eqn:Hzero.
    + apply Z.eqb_eq in Hzero. fold cur. lia.
    + apply currentQuantity_updateProductQuantity.
  - intros Hwithin. rewrite Hplus.
    destruct (maxStock <=? cur) eqn:Hfull; cbn [orb]; [done|].
    apply Z.leb_gt in Hfull. destruct (maxStock =? 0); lia.
  - intros variantId. unfold onCardEvent.
    destruct (_ && _); [|by left]. unfold updateProductVariant.
    destruct (findProduct _ _) as [p|]; [|by left].
    destruct (findVariant _ _) as [v|]; [|by left].
    destruct (0 <? variant_quantity v); [|by left].
    right. unfold currentQuantity.
    cbn [productQuantities setProductQuantities].
    rewrite getKey_setKey. by rewrite decide_True.
  - intros ev other Hne. unfold currentQuantity, cardVariantId.
    by rewrite (onCardEvent_others st product ev (product_id other) Hne).
  - intros ev. unfold onCardEvent, updateProductQuantity, updateProductVariant.
    destruct ev as [| |variantId]; repeat case_match; done.
Qed.

Lemma card_controls_step_witness :
  currentQuantity Demo.basket Demo.mug
  <= getMaxStock Demo.mug (cardVariantId Demo.basket Demo.mug)
  /\ currentQuantity (onCardEvent Demo.basket Demo.mug ClickPlus) Demo.mug = 4
  /\ currentQuantity (onCardEvent Demo.basket Demo.mug ClickPlus) Demo.mug
     <= 12
  /\ currentQuantity (onCardEvent Demo.basket Demo.mug ClickPlus) Demo.shirt
     = 2.
Proof.
  assert (Hwithin : currentQuantity Demo.basket Demo.mug
                    <= getMaxStock Demo.mug
                         (cardVariantId Demo.basket Demo.mug))
    by (vm_compute; discriminate).
  destruct (card_controls_step Demo.basket Demo.mug)
    as (_ & Hplus & Hmax & _ & Hother & _).
  split; [exact Hwithin|]. split; [by rewrite Hplus|].
  split; [exact (Hmax Hwithin)|].
  by destruct (Hother ClickPlus Demo.shirt ltac:(discriminate)) as [-> _].
Defined.

(* ===================================================================== *)
(** ** The stock that a sale writes                                       *)
(* ===================================================================== *)

(** X23.  The stock that a sale writes is worked out from the form's own copy
    of the product, not from the stored product.  For a line without
    variant, on a stored product that is not in variant mode, the stored
    total becomes the total of the form's copy less the quantity sold; for a
    line on a variant that the form's copy and the stored product both
    have, the stored variant quantity becomes that of the form's copy less
    the quantity sold, or zero when that is negative.  What the store held
    before does not enter, so a form that has not reloaded the catalog
    writes a stock that ignores the sales made in between. *)
Theorem sale_writes_from_form_copy
    (st : FormState) (w : World) (e : string * LineData)
    (held : Product) (i : nat) (stored : Product) :
  findProduct (fst e) (form_products st) = Some held ->
  list_find (fun p => product_id p = fst e) (products w) = Some (i, stored) ->
  (chosenVariant (snd e) = None ->
   ~ inVariantMode stored ->
   exists w' p',
     sellLine st e w = (Ok tt, w')
     /\ findProduct (fst e) (products w') = Some p'
     /\ totalQuantity p' = totalQuantity held - quantity (snd e))
  /\ (forall vid v j sv,
         chosenVariant (snd e) = Some vid ->
         findVariant vid held = Some v ->
         list_find (fun v => variant_id v = vid) (variants stored)
         = Some (j, sv) ->
         exists w' p' v',
           sellLine st e w = (Ok tt, w')
           /\ findProduct (fst e) (products w') = Some p'
           /\ findVariant vid p' = Some v'
           /\ variant_quantity v'
              = Z.max 0 (variant_quantity v - quantity (snd e))).
Proof.
  intros Hheld Hstored. split.
  - intros Hnone Hmode. apply chosenVariant_None in Hnone.
    unfold sellLine. rewrite Hheld, Hnone. unfold bind.
    destruct (updateProduct_run w (fst e)
                (onlyStandaloneQuantity
                   (totalQuantity held - quantity (snd e))) i stored Hstored)
      as (p' & w' & -> & Hps & Hhv & Hvs & Htotal & _ & _ & Hid & _).
    exists w', p'. split; [reflexivity|]. split.
    + rewrite Hps. by apply (findProduct_insert_same _ _ i stored).
    + rewrite Htotal. cbn [onlyStandaloneQuantity upd_standaloneQuantity
        JS.definedOr].
      apply calculateTotalQuantity_standalone.
      rewrite Hhv, Hvs. exact Hmode.
  - intros vid v j sv Hvid Hv Hsv.
    apply chosenVariant_Some in Hvid as [Htruthy Hdef].
    unfold sellLine. rewrite Hheld, Htruthy, Hdef, Hv. unfold bind.
    destruct (updateVariantQuantity_run w (fst e) vid
                (variant_quantity v - quantity (snd e)) i stored j sv
                Hstored Hsv)
      as (p' & w' & -> & Hvs & _ & _ & Hid & _ & Hps & _).
    exists w', p', (setQuantity sv
                      (Z.max 0 (variant_quantity v - quantity (snd e)))).
    split; [reflexivity|]. split; [|split; [|reflexivity]].
    + rewrite Hps. by apply (findProduct_insert_same _ _ i stored).
    + by apply (findVariant_setQuantity stored p' vid j sv).
Qed.

Lemma sale_writes_from_form_copy_witness :
  (totalQuantity <$> findProduct "p-mug" (products Demo.shopAfterSale))
  = Some 9
  /\ exists w' p',
       sellLine Demo.threeMugs ("p-mug", mkLineData 3 None) Demo.shopAfterSale
       = (Ok tt, w')
       /\ findProduct "p-mug" (products w') = Some p'
       /\ totalQuantity p' = 9.
Proof.
  split; [vm_compute; reflexivity|].
  assert (Hstored :
            exists stored,
              list_find (fun p => product_id p = "p-mug")
                (products Demo.shopAfterSale) = Some (1%nat, stored)
              /\ ~ inVariantMode stored).
  { eexists. split; [vm_compute; reflexivity|]. intros [Hmode _].
    discriminate Hmode. }
  destruct Hstored as (stored & Hstored & Hmode).
  destruct (sale_writes_from_form_copy Demo.threeMugs Demo.shopAfterSale
              ("p-mug", mkLineData 3 None) Demo.mug 1 stored eq_refl Hstored)
    as [Hsale _].
  destruct (Hsale eq_refl Hmode) as (w' & p' & Hrun & Hfind & Htotal).
  exists w', p'. split; [exact Hrun|]. split; [exact Hfind|].
  rewrite Htotal. reflexivity.
Defined.

(* ===================================================================== *)
(** ** A transaction read back                                            *)
(* ===================================================================== *)

Lemma getTransactionsWithFilters_byType
    (w : World) (endOfDay : string -> option string) (t : TransactionType) :
  getTransactionsWithFilters endOfDay (byType t) w
  = (Ok (sort (fun a b => newestFirst w (tx_timestamp a) (tx_timestamp b))
           (filter (fun tx => tx_type tx = t) (transactions w))), w).
Proof. reflexivity. Qed.

(** X24.  [addTransaction] always returns and records its arguments as they
    are, the description and the category not trimmed.  Asked for the type
    of the new transaction, [getTransactionsWithFilters] then lists the new
    transaction with those of that type recorded before; asked for the
    other type, it answers exactly what it answered before. *)
Theorem addTransaction_then_listed
    (w : World) (type : TransactionType) (description : string) (amount : Z)
    (category method : option string) (items : option (list SaleItem))
    (endOfDay : string -> option string) :
  exists tx w',
    addTransaction type description amount category method items w
    = (Ok tx, w')
    /\ tx_type tx = type
    /\ tx_description tx = description
    /\ tx_amount tx = amount
    /\ tx_category tx = category
    /\ tx_paymentMethod tx = method
    /\ tx_items tx = items
    /\ (exists listed,
           getTransactionsWithFilters endOfDay (byType type) w'
           = (Ok listed, w')
           /\ forall t, t ∈ listed
                        <-> t = tx \/ (t ∈ transactions w /\ tx_type t = type))
    /\ (forall other,
           other <> type ->
           fst (getTransactionsWithFilters endOfDay (byType other) w')
           = fst (getTransactionsWithFilters endOfDay (byType other) w)).
Proof.
  destruct (addTransaction_run w type description amount category method items)
    as (tx & w' & Hrun & Htxs & Hty & Hdesc & Hamt & Hcat & Hpm & Hitems & _
        & _ & _ & _ & Hparse & _).
  exists tx, w'. split; [exact Hrun|].
  repeat (split; [assumption|]). split.
  - eexists. split; [apply getTransactionsWithFilters_byType|].
    intros t. rewrite elem_of_sort, list_elem_of_filter, Htxs, elem_of_app.
    rewrite list_elem_of_singleton. split.
    + intros [Ht [Hin| ->]]; [right|left]; done.
    + intros [->|[Hin Ht]]; split; auto.
  - intros other Hother. rewrite !getTransactionsWithFilters_byType.
    cbn [fst]. rewrite Htxs, filter_app, filter_cons_False, filter_nil
      by congruence.
    rewrite app_nil_r. unfold newestFirst. by rewrite Hparse.
Qed.

Lemma addTransaction_then_listed_witness :
  exists tx w',
    addTransaction inflow " Venta " 10 None None None Demo.journal
    = (Ok tx, w')
    /\ tx_description tx = " Venta "
    /\ fst (getTransactionsWithFilters Demo.endOfDay (byType outflow) w')
       = Ok [Demo.rent2030].
Proof.
  destruct (addTransaction_then_listed Demo.journal inflow " Venta " 10 None
              None None Demo.endOfDay)
    as (tx & w' & Hrun & _ & Hdesc & _ & _ & _ & _ & _ & Hother).
  exists tx, w'. split; [exact Hrun|]. split; [exact Hdesc|].
  rewrite (Hother outflow) by discriminate. reflexivity.
Defined.

(* ===================================================================== *)
(** ** What a settlement moves                                            *)
(* ===================================================================== *)

Lemma amountOwed_cons (t : DebtType) (d : DebtEntry) (ds : list DebtEntry) :
  amountOwed t (d :: ds) = owedBy t d + amountOwed t ds.
Proof.
  unfold amountOwed, owedBy. rewrite filter_cons.
  destruct (decide (debt_type d = t /\ status d <> paid)); [|lia].
  by rewrite fmap_cons.
Qed.

Lemma amountOwed_insert
    (t : DebtType) (ds : list DebtEntry) (i : nat) (d d' : DebtEntry) :
  ds !! i = Some d ->
  amountOwed t (<[i := d']> ds) = amountOwed t ds - owedBy t d + owedBy t d'.
Proof.
  revert i. induction ds as [|a ds IH]; intros i Hi; [done|].
  destruct i as [|i]; cbn [lookup list_lookup] in Hi.
  - injection Hi as ->. change (<[0%nat:=d']> (d :: ds)) with (d' :: ds).
    rewrite !amountOwed_cons. lia.
  - specialize (IH i Hi).
    change (<[S i:=d']> (a :: ds)) with (a :: <[i:=d']> ds).
    rewrite !amountOwed_cons. lia.
Qed.

(** X25.  A settlement moves the amount of a debt from what is owed to the
    ledger.  When [markAsPaid] has returned, what is owed in the direction
    of the debt is less by its amount, what is owed in the other direction
    is unchanged, and the one transaction recorded carries that amount, as
    an inflow for a receivable and an outflow for a payable. *)
Theorem markAsPaid_moves_amount
    (w w' : World) (id : string) (d' : DebtEntry) (tx : Transaction) :
  markAsPaid id w = (Ok (d', tx), w') ->
  amountOwed (debt_type d') (debts w')
  = amountOwed (debt_type d') (debts w) - debt_amount d'
  /\ (forall other, other <> debt_type d' ->
                    amountOwed other (debts w') = amountOwed other (debts w))
  /\ transactions w' = transactions w ++ [tx]
  /\ tx_amount tx = debt_amount d'
  /\ tx_type tx
     = match debt_type d' with receivable => inflow | payable => outflow end.
Proof.
  intros Hrun.
  destruct (list_find (fun d => debt_id d = id) (debts w)) as [[i d]|] eqn:Hfind.
  2: { unfold markAsPaid, markAsPaidVia, getDebts in Hrun.
       unfold bind at 1 in Hrun. by rewrite Hfind in Hrun. }
  destruct (decide (status d = paid)) as [Hpaid|Hopen].
  { unfold markAsPaid, markAsPaidVia, getDebts in Hrun.
    unfold bind at 1 in Hrun. rewrite Hfind in Hrun.
    by rewrite bool_decide_eq_true_2 in Hrun. }
  destruct (markAsPaid_run w id i d Hfind Hopen)
    as (tx0 & stamp & w0 & Hrun0 & Htxs & Hds & Hamt & Hty & _).
  rewrite Hrun0 in Hrun. injection Hrun as <- <- <-.
  destruct (find_lookup _ _ _ _ Hfind) as [Hi _].
  cbn [settle debt_type debt_amount].
  assert (Hsettled : forall t, owedBy t (settle d stamp (tx_id tx0)) = 0).
  { intros t. unfold owedBy. cbn [settle status].
    rewrite decide_False; [done|]. intros [_ Hp]. by apply Hp. }
  split; [|split; [|split; [|split]]].
  - rewrite Hds, (amountOwed_insert _ _ i d _ Hi), Hsettled.
    unfold owedBy. rewrite decide_True by done. lia.
  - intros other Hother.
    rewrite Hds, (amountOwed_insert _ _ i d _ Hi), Hsettled.
    unfold owedBy. rewrite decide_False by (intros [Ht _]; congruence). lia.
  - exact Htxs.
  - exact Hamt.
  - rewrite Hty. reflexivity.
Qed.

Lemma markAsPaid_moves_amount_witness :
  exists d' tx w',
    markAsPaid "d-old" Demo.book = (Ok (d', tx), w')
    /\ amountOwed receivable (debts Demo.book) = 40
    /\ amountOwed receivable (debts w') = 0
    /\ amountOwed payable (debts w') = 60
    /\ tx_amount tx = 40.
Proof.
  destruct (markAsPaid_run Demo.book "d-old" 0 Demo.debtOld eq_refl
              ltac:(discriminate))
    as (tx & stamp & w' & Hrun & _).
  destruct (markAsPaid_moves_amount Demo.book w' "d-old" _ tx Hrun)
    as (Hless & Hother & _ & Hamt & _).
  change (debt_type (settle Demo.debtOld stamp (tx_id tx))) with receivable
    in Hless, Hother.
  eexists _, tx, w'. split; [exact Hrun|]. split; [reflexivity|].
  split; [rewrite Hless; reflexivity|].
  split; [rewrite (Hother payable) by discriminate; reflexivity|exact Hamt].
Defined.
